(** * Conservation Atlas: the asynchronous pipeline, embedded and verified

    A shallow embedding of the queue consumer ([consumer.ts], [sqsService.ts],
    [queueMessages.ts]), the geolocation validator ([geoValidation.ts]), the
    extraction job ([extract.job.ts]), the event clustering service
    ([eventCluster.ts]) and the two pure functions of the place brief
    ([placeBriefService.ts]).

    Conventions of the embedding.
    - A JavaScript [number] is an exact rational ([Q]); the rounding of
      floating-point arithmetic, [NaN] and the infinities of IEEE doubles are
      idealised away.  [Math.min]/[Math.max] are [Qmin]/[Qmax].
    - A [Date] is its epoch time in milliseconds ([Z]).
    - Text is a [string] of ASCII characters.
    - Database keys are integers ([Z]); the TypeScript code carries them as
      their decimal strings, so [parseInt]/[toString] on keys are the identity.
    - [async] functions become state passing over the persistent store, with
      thrown errors as a [Throw] outcome; reads of the clock ([NOW()],
      [new Date()]) and draws of [Math.random()] are explicit arguments.
    - Calls of the logger write to the process log only and are left out.

    Not embedded, as no property below is about them: the outer loop and the
    shutdown of the consumer ([mainLoop], [handleShutdown]), the delayed send
    of the queue client, and the database queries of the place brief. *)

From Stdlib Require Import ZArith QArith Qminmax Qabs Qround.
From Stdlib Require Import String Ascii List Bool Lia Lqa DecimalString.
Import ListNotations.

Set Implicit Arguments.
Set Warnings "-register-all".
Open Scope string_scope.
Open Scope list_scope.
Open Scope Q_scope.

(** ** JavaScript values and operators used by the sources *)
Module Js.

(** [a < b] on numbers. *)
Definition Qltb (a b : Q) : bool := negb (Qle_bool b a).

(** Truthiness of a [number | null]: [null] and [0] are falsy. *)
Definition truthyNum (x : option Q) : bool :=
  match x with
  | Some q => negb (Qeq_bool q 0)
  | None => false
  end.

(** The number behind a [number | null] used in arithmetic: the value itself
    (also under a non-null assertion [x!]), and [0] for [null]. *)
Definition toNumber (x : option Q) : Q :=
  match x with
  | Some q => q
  | None => 0
  end.

(** Truthiness of a [string | null]: [null] and the empty string are falsy. *)
Definition truthyStr (x : option string) : bool :=
  match x with
  | Some s => negb (String.eqb s "")
  | None => false
  end.

(** Truthiness of a [Date | null]. *)
Definition truthyDate (x : option Z) : bool :=
  match x with Some _ => true | None => false end.

(** [a === b] on [string | null]. *)
Definition strictEqStr (a b : option string) : bool :=
  match a, b with
  | Some x, Some y => String.eqb x y
  | None, None => true
  | _, _ => false
  end.

Definition isUpper (c : ascii) : bool :=
  let n := nat_of_ascii c in (65 <=? n)%nat && (n <=? 90)%nat.

Definition lowerChar (c : ascii) : ascii :=
  if isUpper c then ascii_of_nat (nat_of_ascii c + 32) else c.

(** [String.prototype.toLowerCase]. *)
Fixpoint toLowerCase (s : string) : string :=
  match s with
  | EmptyString => EmptyString
  | String c r => String (lowerChar c) (toLowerCase r)
  end.

(** The regular-expression class [\w]. *)
Definition isWordChar (c : ascii) : bool :=
  let n := nat_of_ascii c in
  ((48 <=? n) && (n <=? 57) || (65 <=? n) && (n <=? 90)
   || (97 <=? n) && (n <=? 122) || (n =? 95))%nat.

(** The regular-expression class [\s]. *)
Definition isSpace (c : ascii) : bool :=
  let n := nat_of_ascii c in ((9 <=? n) && (n <=? 13) || (n =? 32))%nat.

(** [s.replace(/[^\w\s]/g, ' ')]. *)
Fixpoint replaceNonWord (s : string) : string :=
  match s with
  | EmptyString => EmptyString
  | String c r =>
      String (if isWordChar c || isSpace c then c else " "%char) (replaceNonWord r)
  end.

(** [s.split(/\s+/)]: [cur] is the piece being read (reversed), [inSep] tells
    that the previous character belonged to a separator. *)
Fixpoint splitWsFrom (cur : list ascii) (inSep : bool) (s : string) : list string :=
  match s with
  | EmptyString => [string_of_list_ascii (rev cur)]
  | String c r =>
      if isSpace c then
        if inSep then splitWsFrom cur true r
        else string_of_list_ascii (rev cur) :: splitWsFrom [] true r
      else splitWsFrom (c :: cur) false r
  end.

Definition splitWs (s : string) : list string := splitWsFrom [] false s.

(** [xs.includes(x)] on an array of strings, [set.has(x)] on a set of them. *)
Definition includes (xs : list string) (x : string) : bool :=
  existsb (String.eqb x) xs.

(** [new Set(xs)]: the distinct elements. *)
Definition mkSet (xs : list string) : list string := nodup string_dec xs.

(** [hay.includes(needle)] on strings. *)
Fixpoint isPrefix (p s : string) : bool :=
  match p, s with
  | EmptyString, _ => true
  | String a p', String b s' => Ascii.eqb a b && isPrefix p' s'
  | String _ _, EmptyString => false
  end.

Fixpoint strIncludes (hay needle : string) : bool :=
  isPrefix needle hay ||
  match hay with
  | EmptyString => false
  | String _ r => strIncludes r needle
  end.

(** [String.prototype.trim]. *)
Fixpoint trimStart (s : string) : string :=
  match s with
  | String c r => if isSpace c then trimStart r else s
  | EmptyString => EmptyString
  end.

Definition strRev (s : string) : string :=
  string_of_list_ascii (rev (list_ascii_of_string s)).

Definition trim (s : string) : string := strRev (trimStart (strRev (trimStart s))).

(** [Math.round]: the nearest integer, a tie going up. *)
Definition round (x : Q) : Q := inject_Z (Qfloor (x + (1 # 2))).

(** The text of a whole number in a template literal, which is also the text
    of a database key. *)
Definition showZ (z : Z) : string := NilZero.string_of_int (Z.to_int z).

(** The names every plain object inherits from [Object.prototype]: a lookup
    [obj[name]] with one of them finds a member that is not [undefined]. *)
Definition OBJECT_PROTOTYPE : list string :=
  [ "constructor"; "__proto__"; "hasOwnProperty"; "isPrototypeOf";
    "propertyIsEnumerable"; "toLocaleString"; "toString"; "valueOf";
    "__defineGetter__"; "__defineSetter__"; "__lookupGetter__"; "__lookupSetter__" ].

End Js.

(** ** Outcomes of code that may throw *)
Record JsError : Type := mkError {
  name : string;
  message : string;
  code : option string
}.

Definition error (msg : string) : JsError := mkError "Error" msg None.
Definition typeError (msg : string) : JsError := mkError "TypeError" msg None.

Inductive Outcome (A : Type) : Type :=
| Return (a : A)
| Throw (e : JsError).
Arguments Return {A} a.
Arguments Throw {A} e.

(** [xs.sort(cmp)] for a comparator [(a, b) => key(b) - key(a)] (descending
    keys); the sort is stable, as ECMAScript requires. *)
Section StableSort.
Context {A K : Type} (key : A -> K) (gtb : K -> K -> bool).

Fixpoint insertDesc (x : A) (l : list A) : list A :=
  match l with
  | [] => [x]
  | y :: r => if gtb (key y) (key x) then y :: insertDesc x r else x :: l
  end.

Definition sortDesc (l : list A) : list A := fold_right insertDesc [] l.
End StableSort.

(** ** The structured payload returned by the extraction capability

    The fields of an [event_extraction_v1] object that the code reads. *)
Module Extraction.

Record Geometry : Type := mkGeometry {
  type : string;
  (** [[lng, lat]] *)
  coordinates : option (Q * Q);
  precision : option string
}.

Record Admin : Type := mkAdmin {
  country : string;
  admin1 : option string;
  admin2 : option string;
  locality : option string
}.

Record Location : Type := mkLocation {
  geometry : option Geometry;
  admin : Admin;
  description : option string
}.

Record t : Type := mk {
  title : string;
  event_type_primary : string;
  event_type_secondary : option string;
  severity_level : Z;
  confidence_extraction : Q;
  confidence_geolocation : Q;
  location : Location;
  summary_short : string;
  summary_detailed : option string;
  is_classroom_safe : option bool;
  start_date : option Z;
  end_date : option Z;
  is_ongoing : option bool;
  source_ref_publisher : option string
}.

End Extraction.

(** ** Geolocation validation ([geoValidation.ts]) *)
Module GeoValidation.
Import Extraction.

Inductive FixAction : Type := nullify | swap | use_centroid.

(** The entries of [issues]; the message text is not rendered. *)
Inductive Issue : Type :=
| InvalidLatitude (lat : Q)
| InvalidLongitude (lng : Q)
| MaybeSwapped (lat lng : Q)
| OutsideCountry (country : string) (lng lat : Q)
| InOcean
| ExactPrecisionWithIssues.

Record GeoValidationResult : Type := mkResult {
  valid : bool;
  issues : list Issue;
  adjustedConfidence : Q;
  shouldNullifyCoords : bool;
  suggestedFix : option FixAction
}.

(** [[minLng, minLat, maxLng, maxLat]] *)
Definition Bounds : Type := (Q * Q * Q * Q)%type.

(** A bounding box with whole-degree corners. *)
Definition box (x1 y1 x2 y2 : Z) : Bounds :=
  (inject_Z x1, inject_Z y1, inject_Z x2, inject_Z y2).

Definition COUNTRY_BOUNDS : list (string * Bounds) :=
  [ ("united states", box (-125) 24 (-66) 49);
    ("usa", box (-125) 24 (-66) 49);
    ("canada", box (-141) 41 (-52) 84);
    ("brazil", box (-74) (-34) (-32) 6);
    ("australia", box 112 (-44) 154 (-10));
    ("china", box 73 18 135 54);
    ("india", box 68 6 97 36);
    ("russia", box 19 41 180 82);
    ("united kingdom", box (-8) 49 2 61);
    ("france", box (-5) 41 10 51);
    ("germany", box 5 47 16 55);
    ("japan", box 123 24 146 46);
    ("indonesia", box 95 (-11) 141 6);
    ("mexico", box (-118) 14 (-86) 33);
    ("south africa", box 16 (-35) 33 (-22));
    ("kenya", box 33 (-5) 42 5);
    ("tanzania", box 29 (-12) 41 (-1));
    ("peru", box (-82) (-18) (-68) 0);
    ("colombia", box (-79) (-4) (-67) 14);
    ("democratic republic of congo", box 12 (-14) 32 6);
    ("madagascar", box 43 (-26) 51 (-12));
    ("new zealand", box 166 (-47) 179 (-34));
    ("norway", box 4 57 32 71);
    ("sweden", box 11 55 24 69);
    ("finland", box 20 59 32 70);
    ("italy", box 6 36 19 47);
    ("spain", box (-10) 35 5 44);
    ("portugal", box (-10) 36 (-6) 42);
    ("philippines", box 116 5 127 21);
    ("vietnam", box 102 8 110 24);
    ("thailand", box 97 5 106 21);
    ("malaysia", box 99 0 120 8);
    ("singapore", box 103 1 104 2);
    ("costa rica", box (-86) 8 (-82) 11);
    ("panama", box (-83) 7 (-77) 10);
    ("ecuador", box (-81) (-5) (-75) 2);
    ("chile", box (-76) (-56) (-66) (-17));
    ("argentina", box (-74) (-55) (-53) (-21));
    ("egypt", box 24 22 37 32);
    ("morocco", box (-13) 27 (-1) 36);
    ("nigeria", box 2 4 15 14);
    ("ethiopia", box 33 3 48 15);
    ("botswana", box 20 (-27) 30 (-17));
    ("namibia", box 11 (-29) 25 (-17));
    ("iceland", box (-24) 63 (-13) 67);
    ("greenland", box (-73) 59 (-11) 84) ].

(** [COUNTRY_BOUNDS[key]] on a plain object: besides its own entries the
    lookup finds the members inherited from [Object.prototype]; those with an
    all-lowercase name can be hit after [toLowerCase()], and they are truthy
    but not iterable. *)
Inductive Lookup : Type :=
| Own (b : Bounds)
| Inherited
| Absent.

Fixpoint assoc (key : string) (l : list (string * Bounds)) : option Bounds :=
  match l with
  | [] => None
  | (k, v) :: r => if String.eqb k key then Some v else assoc key r
  end.

Definition lookupBounds (key : string) : Lookup :=
  match assoc key COUNTRY_BOUNDS with
  | Some b => Own b
  | None =>
      if String.eqb key "constructor" || String.eqb key "__proto__"
      then Inherited else Absent
  end.

Record CountryCheck : Type := mkCountryCheck {
  matches : bool;
  severeMismatch : bool
}.

(** [severeMismatch] is [Math.sqrt(lngDist ** 2 + latDist ** 2) > 30] in the
    source, stated here on the squares. *)
Definition checkCountryCoordinateMatch (country : string) (lng lat : Q)
  : Outcome CountryCheck :=
  let normalizedCountry := Js.trim (Js.toLowerCase country) in
  match lookupBounds normalizedCountry with
  | Absent => Return (mkCountryCheck true false)
  | Inherited => Throw (typeError "bounds is not iterable")
  | Own (minLng, minLat, maxLng, maxLat) =>
      let buffer := 2 in
      let inBounds :=
        Qle_bool (minLng - buffer) lng && Qle_bool lng (maxLng + buffer) &&
        Qle_bool (minLat - buffer) lat && Qle_bool lat (maxLat + buffer) in
      if inBounds then Return (mkCountryCheck true false)
      else
        let lngDist := Qmin (Qabs (lng - minLng)) (Qabs (lng - maxLng)) in
        let latDist := Qmin (Qabs (lat - minLat)) (Qabs (lat - maxLat)) in
        Return (mkCountryCheck false
                  (Js.Qltb (30 * 30) (lngDist * lngDist + latDist * latDist)))
  end.

Definition checkIfLikelyOcean (lng lat : Q) : bool :=
  if (Js.Qltb 140 lng || Js.Qltb lng (-120)) && (Js.Qltb (-60) lat && Js.Qltb lat 60)
  then false
  else if Js.Qltb (-40) lng && Js.Qltb lng (-20) && Js.Qltb (-30) lat && Js.Qltb lat 40
  then true
  else if Js.Qltb 50 lng && Js.Qltb lng 90 && Js.Qltb (-40) lat && Js.Qltb lat 0
  then false
  else if Js.Qltb lat (-60) then true
  else if Js.Qltb 80 lat then true
  else false.

(** [[a, b].filter(Boolean).join(' ')]. *)
Definition joinTruthy (parts : list (option string)) : string :=
  String.concat " "
    (flat_map (fun p => match p with
                        | Some s => if String.eqb s "" then [] else [s]
                        | None => []
                        end) parts).

Definition isMarineEventExpected (extraction : Extraction.t) : bool :=
  let eventType := event_type_primary extraction in
  let marineTypes := ["coral_bleaching"; "oil_spill"; "pollution"] in
  if Js.includes marineTypes eventType then true
  else
    let locationText :=
      Js.toLowerCase
        (joinTruthy [locality (admin (location extraction));
                     description (location extraction)]) in
    let marineKeywords :=
      ["ocean"; "sea"; "reef"; "marine"; "coast"; "island"; "bay"; "gulf"] in
    existsb (fun kw => Js.strIncludes locationText kw) marineKeywords.

(** The mutable locals of [validateGeolocation]. *)
Record Acc : Type := mkAcc {
  acc_issues : list Issue;
  acc_confidence : Q;
  acc_nullify : bool;
  acc_fix : option FixAction
}.

(** Check 1: valid coordinate ranges. *)
Definition checkRanges (lng lat : Q) (a : Acc) : Acc :=
  let a :=
    if Js.Qltb lat (-90) || Js.Qltb 90 lat
    then mkAcc (acc_issues a ++ [InvalidLatitude lat]) (acc_confidence a) true (Some nullify)
    else a in
  if Js.Qltb lng (-180) || Js.Qltb 180 lng
  then mkAcc (acc_issues a ++ [InvalidLongitude lng]) (acc_confidence a) true (Some nullify)
  else a.

(** Check 2: latitude and longitude possibly swapped. *)
Definition checkSwapped (lng lat : Q) (a : Acc) : Acc :=
  if negb (acc_nullify a) && Js.Qltb 90 (Qabs lat) && Qle_bool (Qabs lng) 90
  then mkAcc (acc_issues a ++ [MaybeSwapped lat lng]) (acc_confidence a * (3 # 10))
             (acc_nullify a) (Some swap)
  else a.

(** Check 3: country and coordinates agree. *)
Definition checkCountry (country : string) (lng lat : Q) (a : Acc) : Outcome Acc :=
  if negb (acc_nullify a) && negb (String.eqb country "")
  then
    match checkCountryCoordinateMatch country lng lat with
    | Throw m => Throw m
    | Return countryCheck =>
        if negb (matches countryCheck)
        then Return (mkAcc (acc_issues a ++ [OutsideCountry country lng lat])
                           (acc_confidence a * (4 # 10)) (acc_nullify a)
                           (if severeMismatch countryCheck then Some use_centroid
                            else acc_fix a))
        else Return a
    end
  else Return a.

(** Check 4: point in the ocean. *)
Definition checkOcean (extraction : Extraction.t) (lng lat : Q) (a : Acc) : Acc :=
  if negb (acc_nullify a)
  then
    if checkIfLikelyOcean lng lat && negb (isMarineEventExpected extraction)
    then mkAcc (acc_issues a ++ [InOcean]) (acc_confidence a * (5 # 10))
               (acc_nullify a) (acc_fix a)
    else a
  else a.

(** Check 5: precision sanity. *)
Definition checkPrecision (precision : option string) (a : Acc) : Acc :=
  if Js.strictEqStr precision (Some "exact") && (0 <? length (acc_issues a))%nat
  then mkAcc (acc_issues a ++ [ExactPrecisionWithIssues]) (acc_confidence a * (7 # 10))
             (acc_nullify a) (acc_fix a)
  else a.

Definition finalConfidence (a : Acc) : Q :=
  if acc_nullify a then 0 else Qmax (1 # 10) (acc_confidence a).

Definition validateGeolocation (extraction : Extraction.t) : Outcome GeoValidationResult :=
  let loc := location extraction in
  match geometry loc with
  | None => Return (mkResult true [] (5 # 10) false None)
  | Some g =>
      match coordinates g with
      | None => Return (mkResult true [] (5 # 10) false None)
      | Some (lng, lat) =>
          let a := mkAcc [] 1 false None in
          let a := checkRanges lng lat a in
          let a := checkSwapped lng lat a in
          match checkCountry (country (admin loc)) lng lat a with
          | Throw m => Throw m
          | Return a =>
              let a := checkOcean extraction lng lat a in
              let a := checkPrecision (precision g) a in
              Return (mkResult ((length (acc_issues a) =? 0)%nat) (acc_issues a)
                               (finalConfidence a) (acc_nullify a) (acc_fix a))
          end
      end
  end.

(** [CENTROIDS] of [getCountryCentroid], as [[lng, lat]]. *)
Definition CENTROIDS : list (string * (Q * Q)) :=
  [ ("united states", (-985795 # 10000, 398283 # 10000));
    ("usa", (-985795 # 10000, 398283 # 10000));
    ("canada", (-1063468 # 10000, 561304 # 10000));
    ("brazil", (-519253 # 10000, -142350 # 10000));
    ("australia", (1337751 # 10000, -252744 # 10000));
    ("china", (1041954 # 10000, 358617 # 10000));
    ("india", (789629 # 10000, 205937 # 10000));
    ("russia", (1053188 # 10000, 615240 # 10000));
    ("united kingdom", (-34360 # 10000, 553781 # 10000));
    ("france", (22137 # 10000, 462276 # 10000));
    ("germany", (104515 # 10000, 511657 # 10000));
    ("japan", (1382529 # 10000, 362048 # 10000));
    ("indonesia", (1139213 # 10000, -7893 # 10000));
    ("mexico", (-1025528 # 10000, 236345 # 10000)) ].

Fixpoint assocCentroid (key : string) (l : list (string * (Q * Q))) : option (Q * Q) :=
  match l with
  | [] => None
  | (k, v) :: r => if String.eqb k key then Some v else assocCentroid key r
  end.

(** What [CENTROIDS[key] ?? null] evaluates to: the coordinates of an own
    entry, [null], or a member inherited from [Object.prototype], which is
    not nullish and is returned as it is. *)
Inductive Centroid : Type :=
| Coordinates (lng lat : Q)
| InheritedMember
| Null.

Definition getCountryCentroid (country : string) : Centroid :=
  let key := Js.trim (Js.toLowerCase country) in
  match assocCentroid key CENTROIDS with
  | Some (lng, lat) => Coordinates lng lat
  | None =>
      if String.eqb key "constructor" || String.eqb key "__proto__"
      then InheritedMember else Null
  end.

End GeoValidation.

(** ** The persistent store (the Prisma models and tables the code touches)

    Columns that no embedded function reads or writes are left out. *)
Module Store.

(** How the client returns a numeric column: a JavaScript number for a
    [Float] column, a [Decimal] object for a [Decimal] one.  The Prisma schema
    is not part of the sources, so the kind of a column is a parameter of the
    functions that test such a raw value for truthiness; the sources read the
    value as [parseFloat(x.toString())], which suits both kinds and is the
    identity on the rational kept here. *)
Inductive NumericColumn : Type := FloatColumn | DecimalColumn.

(** Truthiness of the raw value of a nullable numeric column: an object is
    always truthy, a number is truthy unless it is [0]. *)
Definition truthy (k : NumericColumn) (x : option Q) : bool :=
  match x, k with
  | None, _ => false
  | Some q, FloatColumn => negb (Qeq_bool q 0)
  | Some _, DecimalColumn => true
  end.

Module Event.
Record t : Type := mk {
  id : Z;
  title : string;
  eventTypePrimary : string;
  eventTypeSecondary : option string;
  severityLevel : Z;
  confidenceExtraction : option Q;
  country : string;
  admin1 : option string;
  admin2 : option string;
  locationName : option string;
  latitude : option Q;
  longitude : option Q;
  summaryShort : string;
  summaryDetailed : option string;
  isClassroomSafe : bool;
  startDate : option Z;
  endDate : option Z;
  isOngoing : bool;
  sourceCount : Z;
  primarySourceType : string;
  episodeEligible : bool;
  status : string;
  mergedIntoId : option Z;
  createdAt : Z;
  updatedAt : Z
}.
End Event.

Module EventSource.
Record t : Type := mk {
  id : Z;
  url : string;
  publisher : option string;
  title : option string;
  sourceType : string;
  publishedAt : option Z;
  scrapedAt : Z;
  language : option string;
  snippet : option string;
  credibilityScore : option Q;
  eventId : option Z;
  extraction_status : string;
  updated_at : Z
}.
End EventSource.

(** A row of [event_merges]. *)
Module EventMerge.
Record t : Type := mk {
  primary_event_id : Z;
  merged_event_id : Z;
  similarity_score : Q;
  merged_at : Z
}.
End EventMerge.

(** A row of [source_extractions]. *)
Module SourceExtraction.
Record t : Type := mk {
  source_id : Z;
  event_id : Z;
  schema_version : string;
  model : string;
  extraction_json : Extraction.t;
  quality_score : Q;
  geo_validation : GeoValidation.GeoValidationResult;
  created_at : Z
}.
End SourceExtraction.

Record Db : Type := mkDb {
  events : list Event.t;
  eventSources : list EventSource.t;
  sourceExtractions : list SourceExtraction.t;
  eventMerges : list EventMerge.t;
  (** the next value of the key sequence of [events] *)
  nextEventId : Z
}.

(** [prisma.event.findUnique({ where: { id } })]. *)
Definition findEvent (i : Z) (es : list Event.t) : option Event.t :=
  find (fun e => Event.id e =? i)%Z es.

(** [tx.event.update({ where: { id }, data })]: [None] when no row has the
    key (the client then throws and the transaction rolls back). *)
Definition updateEvent (i : Z) (f : Event.t -> Event.t) (es : list Event.t)
  : option (list Event.t) :=
  match findEvent i es with
  | Some _ => Some (map (fun e => if (Event.id e =? i)%Z then f e else e) es)
  | None => None
  end.

(** [prisma.eventSource.findUnique({ where: { id } })]. *)
Definition findSource (i : Z) (ss : list EventSource.t) : option EventSource.t :=
  find (fun s => EventSource.id s =? i)%Z ss.

(** An [UPDATE ... WHERE] or [updateMany]: every matching row is rewritten. *)
Definition updateWhere {A : Type} (p : A -> bool) (f : A -> A) (l : list A) : list A :=
  map (fun x => if p x then f x else x) l.

End Store.

(** ** The [Math] functions the sources call on real arguments

    They are built-ins of the language, not code of the repository: the
    embedding takes them as an interface. *)
Record MathLib : Type := mkMath {
  sin : Q -> Q;
  cos : Q -> Q;
  sqrt : Q -> Q;
  atan2 : Q -> Q -> Q;
  PI : Q
}.

(** ** Event deduplication and clustering ([eventCluster.ts]) *)
Module EventCluster.
Import Store.

Inductive Action : Type := new | merged | duplicate.

Module ClusterResult.
Record t : Type := mk {
  action : Action;
  primaryEventId : Z;
  mergedEventIds : list Z;
  confidenceBoost : Q;
  sourceCount : Z
}.
End ClusterResult.

Record EventForClustering : Type := mkEvent {
  id : Z;
  title : string;
  eventTypePrimary : string;
  severityLevel : Z;
  confidenceExtraction : Q;
  country : string;
  admin1 : option string;
  latitude : option Q;
  longitude : option Q;
  startDate : option Z;
  summaryShort : string;
  sourceCount : Z;
  createdAt : Z
}.

(** [CLUSTER_CONFIG] *)
Definition TIME_WINDOW_HOURS : Z := 72.
Definition MAX_DISTANCE_KM : Q := 50.
Definition MIN_SIMILARITY_SCORE : Q := 7 # 10.
Definition SOURCE_CONFIDENCE_BOOST : Q := 5 # 100.
Definition MAX_BOOSTED_CONFIDENCE : Q := 98 # 100.

Definition STOP_WORDS : list string :=
  [ "the"; "a"; "an"; "and"; "or"; "but"; "in"; "on"; "at"; "to"; "for";
    "of"; "with"; "by"; "from"; "as"; "is"; "was"; "are"; "were"; "been";
    "be"; "have"; "has"; "had"; "do"; "does"; "did"; "will"; "would"; "could";
    "should"; "may"; "might"; "must"; "shall"; "can"; "need"; "this"; "that";
    "these"; "those"; "than"; "when"; "where"; "which"; "who"; "whom"; "whose" ].

Definition tokenize (text : string) : list string :=
  filter (fun w => negb (Js.includes STOP_WORDS w))
    (filter (fun w => (2 <? String.length w)%nat)
       (Js.splitWs (Js.replaceNonWord (Js.toLowerCase text)))).

Definition size (s : list string) : Q := inject_Z (Z.of_nat (length s)).

Definition calculateTextSimilarity (text1 text2 : string) : Q :=
  let words1 := Js.mkSet (tokenize text1) in
  let words2 := Js.mkSet (tokenize text2) in
  if (length words1 =? 0)%nat && (length words2 =? 0)%nat then 1
  else if (length words1 =? 0)%nat || (length words2 =? 0)%nat then 0
  else
    let intersection := Js.mkSet (filter (Js.includes words2) words1) in
    let union := Js.mkSet (words1 ++ words2) in
    size intersection / size union.

Section WithMath.
Variable M : MathLib.

Definition toRad (deg : Q) : Q := deg * (PI M / 180).

(** Haversine distance in km. *)
Definition calculateDistanceKm (lat1 lon1 lat2 lon2 : Q) : Q :=
  let R := 6371 in
  let dLat := toRad (lat2 - lat1) in
  let dLon := toRad (lon2 - lon1) in
  let a := sin M (dLat / 2) * sin M (dLat / 2) +
           cos M (toRad lat1) * cos M (toRad lat2) *
           (sin M (dLon / 2) * sin M (dLon / 2)) in
  let c := 2 * atan2 M (sqrt M a) (sqrt M (1 - a)) in
  R * c.

(** The two mutable locals [score] and [weights] of [calculateSimilarity]
    after each of its five steps. *)
Definition typeStep (event1 event2 : EventForClustering) (sw : Q * Q) : Q * Q :=
  let (score, weights) := sw in
  let score :=
    if String.eqb (eventTypePrimary event1) (eventTypePrimary event2)
    then score + (2 # 10) else score in
  (score, weights + (2 # 10)).

Definition geoStep (event1 event2 : EventForClustering) (sw : Q * Q) : Q * Q :=
  let (score, weights) := sw in
  if Js.truthyNum (latitude event1) && Js.truthyNum (longitude event1) &&
     Js.truthyNum (latitude event2) && Js.truthyNum (longitude event2)
  then
    let distance :=
      calculateDistanceKm (Js.toNumber (latitude event1)) (Js.toNumber (longitude event1))
                          (Js.toNumber (latitude event2)) (Js.toNumber (longitude event2)) in
    let geoScore := Qmax 0 (1 - distance / MAX_DISTANCE_KM) * (3 # 10) in
    (score + geoScore, weights + (3 # 10))
  else if Js.truthyStr (admin1 event1) && Js.truthyStr (admin1 event2) &&
          Js.strictEqStr (admin1 event1) (admin1 event2)
  then (score + (2 # 10), weights + (3 # 10))
  else (score, weights + (3 # 10)).

Definition titleStep (event1 event2 : EventForClustering) (sw : Q * Q) : Q * Q :=
  let (score, weights) := sw in
  let titleSimilarity := calculateTextSimilarity (title event1) (title event2) in
  (score + titleSimilarity * (25 # 100), weights + (25 # 100)).

Definition summaryStep (event1 event2 : EventForClustering) (sw : Q * Q) : Q * Q :=
  let (score, weights) := sw in
  let summarySimilarity :=
    calculateTextSimilarity (summaryShort event1) (summaryShort event2) in
  (score + summarySimilarity * (15 # 100), weights + (15 # 100)).

Definition temporalStep (event1 event2 : EventForClustering) (sw : Q * Q) : Q * Q :=
  let (score, weights) := sw in
  match startDate event1, startDate event2 with
  | Some t1, Some t2 =>
      let daysDiff := Qabs (inject_Z (t1 - t2) / inject_Z (1000 * 60 * 60 * 24)) in
      let temporalScore := Qmax 0 (1 - daysDiff / 7) * (1 # 10) in
      (score + temporalScore, weights + (1 # 10))
  | _, _ => (score, weights + (1 # 10))
  end.

Definition scoreAndWeights (event1 event2 : EventForClustering) : Q * Q :=
  temporalStep event1 event2
    (summaryStep event1 event2
       (titleStep event1 event2
          (geoStep event1 event2
             (typeStep event1 event2 (0, 0))))).

Definition calculateSimilarity (event1 event2 : EventForClustering) : Q :=
  let (score, weights) := scoreAndWeights event1 event2 in
  if Js.Qltb 0 weights then score / weights else 0.

(** The kind of the [latitude] and [longitude] columns of [events]. *)
Variable coordColumn : NumericColumn.

Definition mapToClusteringEvent (event : Event.t) : EventForClustering :=
  {| id := Event.id event;
     title := Event.title event;
     eventTypePrimary := Event.eventTypePrimary event;
     severityLevel := Event.severityLevel event;
     confidenceExtraction :=
       match Event.confidenceExtraction event with
       | Some c => c
       | None => 5 # 10
       end;
     country := Event.country event;
     admin1 := Event.admin1 event;
     latitude :=
       if truthy coordColumn (Event.latitude event) then Event.latitude event else None;
     longitude :=
       if truthy coordColumn (Event.longitude event) then Event.longitude event else None;
     startDate := Event.startDate event;
     summaryShort := Event.summaryShort event;
     sourceCount := Event.sourceCount event;
     createdAt := Event.createdAt event |}.

Definition loadEventForClustering (eventId : Z) (db : Db) : option EventForClustering :=
  match findEvent eventId (events db) with
  | Some event => Some (mapToClusteringEvent event)
  | None => None
  end.

(** The [findMany] query of [findCandidateMatches].  [setHours] moves the
    window start by whole hours (no daylight-saving shift is modelled); rows
    with equal [createdAt] keep their table order. *)
Definition queryCandidates (event : EventForClustering) (db : Db) : list Event.t :=
  let timeWindowStart := (createdAt event - TIME_WINDOW_HOURS * 3600000)%Z in
  firstn 50
    (sortDesc Event.createdAt Z.gtb
       (filter (fun c =>
                  negb (Event.id c =? id event)%Z &&
                  String.eqb (Event.eventTypePrimary c) (eventTypePrimary event) &&
                  String.eqb (Event.country c) (country event) &&
                  (timeWindowStart <=? Event.createdAt c)%Z)
          (events db))).

(** The filter by geographic proximity. *)
Definition withinDistance (event : EventForClustering) (c : Event.t) : bool :=
  if negb (truthy coordColumn (Event.latitude c)) ||
     negb (truthy coordColumn (Event.longitude c))
  then true
  else
    let distance :=
      calculateDistanceKm (Js.toNumber (latitude event)) (Js.toNumber (longitude event))
                          (Js.toNumber (Event.latitude c)) (Js.toNumber (Event.longitude c)) in
    Qle_bool distance MAX_DISTANCE_KM.

(** The filter by first-level subdivision. *)
Definition sameAdmin1 (event : EventForClustering) (c : Event.t) : bool :=
  Js.strictEqStr (Event.admin1 c) (admin1 event) ||
  negb (Js.truthyStr (admin1 event)) || negb (Js.truthyStr (Event.admin1 c)).

Definition findCandidateMatches (event : EventForClustering) (db : Db)
  : list EventForClustering :=
  let candidates := queryCandidates event db in
  if Js.truthyNum (latitude event) && Js.truthyNum (longitude event)
  then map mapToClusteringEvent (filter (withinDistance event) candidates)
  else map mapToClusteringEvent (filter (sameAdmin1 event) candidates).

(** The rewrite of the surviving event (step 1 of the transaction). *)
Definition absorb (existing newEvent : EventForClustering)
    (newConfidence : Q) (newSourceCount now : Z) (e : Event.t) : Event.t :=
  Event.mk (Event.id e) (Event.title e) (Event.eventTypePrimary e)
    (Event.eventTypeSecondary e)
    (if (severityLevel existing <? severityLevel newEvent)%Z
     then severityLevel newEvent else Event.severityLevel e)
    (Some newConfidence)
    (Event.country e) (Event.admin1 e) (Event.admin2 e) (Event.locationName e)
    (Event.latitude e) (Event.longitude e) (Event.summaryShort e)
    (Event.summaryDetailed e) (Event.isClassroomSafe e) (Event.startDate e)
    (Event.endDate e) (Event.isOngoing e) newSourceCount
    (Event.primarySourceType e) (Event.episodeEligible e) (Event.status e)
    (Event.mergedIntoId e) (Event.createdAt e) now.

(** The rewrite of the absorbed event (step 3 of the transaction). *)
Definition markMerged (into : Z) (e : Event.t) : Event.t :=
  Event.mk (Event.id e) (Event.title e) (Event.eventTypePrimary e)
    (Event.eventTypeSecondary e) (Event.severityLevel e)
    (Event.confidenceExtraction e)
    (Event.country e) (Event.admin1 e) (Event.admin2 e) (Event.locationName e)
    (Event.latitude e) (Event.longitude e) (Event.summaryShort e)
    (Event.summaryDetailed e) (Event.isClassroomSafe e) (Event.startDate e)
    (Event.endDate e) (Event.isOngoing e) (Event.sourceCount e)
    (Event.primarySourceType e) (Event.episodeEligible e) "merged"
    (Some into) (Event.createdAt e) (Event.updatedAt e).

(** Step 2 of the transaction: the sources of the absorbed event move. *)
Definition transferSources (from to : Z) (ss : list EventSource.t) : list EventSource.t :=
  updateWhere
    (fun s => match EventSource.eventId s with
              | Some i => (i =? from)%Z
              | None => false
              end)
    (fun s =>
       EventSource.mk (EventSource.id s) (EventSource.url s) (EventSource.publisher s)
         (EventSource.title s) (EventSource.sourceType s) (EventSource.publishedAt s)
         (EventSource.scrapedAt s) (EventSource.language s) (EventSource.snippet s)
         (EventSource.credibilityScore s) (Some to) (EventSource.extraction_status s)
         (EventSource.updated_at s))
    ss.

(** [mergeEvents]; [now] is the clock read by [new Date()] and [NOW()].  A
    failed statement rolls the transaction back. *)
Definition mergeEvents (now : Z) (existing newEvent : EventForClustering) (db : Db)
  : Db * Outcome ClusterResult.t :=
  let newSourceCount := (sourceCount existing + sourceCount newEvent)%Z in
  let additionalSources := sourceCount newEvent in
  let confidenceBoost := inject_Z additionalSources * SOURCE_CONFIDENCE_BOOST in
  let newConfidence :=
    Qmin (confidenceExtraction existing + confidenceBoost) MAX_BOOSTED_CONFIDENCE in
  match updateEvent (id existing)
          (absorb existing newEvent newConfidence newSourceCount now) (events db) with
  | None => (db, Throw (error "Record to update not found"))
  | Some es1 =>
      let sources := transferSources (id newEvent) (id existing) (eventSources db) in
      match updateEvent (id newEvent) (markMerged (id existing)) es1 with
      | None => (db, Throw (error "Record to update not found"))
      | Some es2 =>
          let audit := EventMerge.mk (id existing) (id newEvent) 0 now in
          (mkDb es2 sources (sourceExtractions db) (eventMerges db ++ [audit])
                (nextEventId db),
           Return (ClusterResult.mk merged (id existing) [id newEvent]
                                    confidenceBoost newSourceCount))
      end
  end.

Record Scored : Type := mkScored {
  candidate : EventForClustering;
  similarity : Q
}.

(** Steps 3 and 4 of [clusterEvent]: the best match at or above the
    threshold, if any. *)
Definition bestMatch (newEvent : EventForClustering)
    (candidates : list EventForClustering) : option Scored :=
  let scoredCandidates :=
    map (fun c => mkScored c (calculateSimilarity newEvent c)) candidates in
  hd_error
    (sortDesc similarity (fun a b => Js.Qltb b a)
       (filter (fun sc => Qle_bool MIN_SIMILARITY_SCORE (similarity sc))
          scoredCandidates)).

Definition unique (eventId : Z) (newEvent : EventForClustering) : ClusterResult.t :=
  ClusterResult.mk new eventId [] 0 (sourceCount newEvent).

Definition clusterEvent (now : Z) (eventId : Z) (db : Db)
  : Db * Outcome ClusterResult.t :=
  match loadEventForClustering eventId db with
  | None => (db, Throw (error ("Event not found: " ++ Js.showZ eventId)))
  | Some newEvent =>
      let candidates := findCandidateMatches newEvent db in
      if (length candidates =? 0)%nat
      then (db, Return (unique eventId newEvent))
      else
        match bestMatch newEvent candidates with
        | None => (db, Return (unique eventId newEvent))
        | Some best => mergeEvents now (candidate best) newEvent db
        end
  end.

(** [getEventCluster]: the primary event of the cluster and the events
    merged into it. *)
Definition getEventCluster (eventId : Z) (db : Db) : list EventForClustering :=
  match findEvent eventId (events db) with
  | None => []
  | Some event =>
      let primaryId :=
        match Event.mergedIntoId event with
        | Some p => p
        | None => Event.id event
        end in
      map mapToClusteringEvent
        (filter (fun e =>
                   (Event.id e =? primaryId)%Z ||
                   match Event.mergedIntoId e with
                   | Some m => (m =? primaryId)%Z
                   | None => false
                   end)
           (events db))
  end.

End WithMath.
End EventCluster.

(** ** Job envelopes ([queueMessages.ts]) *)
Module QueueMessages.

(** A value produced by [JSON.parse]. *)
Inductive Json : Type :=
| JNull
| JBool (b : bool)
| JNumber (q : Q)
| JString (s : string)
| JArray (items : list Json)
| JObject (fields : list (string * Json)).

(** [obj[key]] on a parsed object: of two members with one name the later
    one stands. *)
Fixpoint get (key : string) (fields : list (string * Json)) : option Json :=
  match fields with
  | [] => None
  | (k, v) :: r =>
      match get key r with
      | Some w => Some w
      | None => if String.eqb k key then Some v else None
      end
  end.

Inductive JobType : Type :=
| INGEST | EXTRACT | CLUSTER | GEO_JOIN | ALERTS
| VIDEO_BRIEF | CLASSROOM_EPISODE | SMOKE_TEST.

Definition JOB_TYPES : list string :=
  [ "INGEST"; "EXTRACT"; "CLUSTER"; "GEO_JOIN"; "ALERTS";
    "VIDEO_BRIEF"; "CLASSROOM_EPISODE"; "SMOKE_TEST" ].

Definition jobTypeName (t : JobType) : string :=
  match t with
  | INGEST => "INGEST" | EXTRACT => "EXTRACT" | CLUSTER => "CLUSTER"
  | GEO_JOIN => "GEO_JOIN" | ALERTS => "ALERTS" | VIDEO_BRIEF => "VIDEO_BRIEF"
  | CLASSROOM_EPISODE => "CLASSROOM_EPISODE" | SMOKE_TEST => "SMOKE_TEST"
  end.

Definition jobTypeOfName (s : string) : option JobType :=
  find (fun t => String.eqb (jobTypeName t) s)
    [INGEST; EXTRACT; CLUSTER; GEO_JOIN; ALERTS; VIDEO_BRIEF; CLASSROOM_EPISODE; SMOKE_TEST].

(** The envelope, with [payload] left as parsed. *)
Record JobMessage : Type := mkJobMessage {
  job_type : JobType;
  job_id : string;
  correlation_id : string;
  enqueued_at : string;
  attempt : option Z;
  payload : Json
}.

Definition isString (x : option Json) : bool :=
  match x with Some (JString _) => true | _ => false end.

(** The type guard.  A primitive or [null] fails [!x || typeof x !== 'object'];
    an array has no member [version]. *)
Definition isJobMessage (x : Json) : bool :=
  match x with
  | JObject msg =>
      match get "version" msg with
      | Some (JString v) => String.eqb v "job_v1"
      | _ => false
      end &&
      match get "job_type" msg with
      | Some (JString t) => Js.includes JOB_TYPES t
      | _ => false
      end &&
      isString (get "job_id" msg) &&
      isString (get "correlation_id" msg) &&
      isString (get "enqueued_at" msg) &&
      match get "payload" msg with
      | None | Some JNull => false
      | Some _ => true
      end
  | _ => false
  end.

(** A value that passed the guard, read at the type [JobMessage].  [attempt] is
    declared a counter: a value that is not a whole number is outside the
    declared type and is read as absent. *)
Definition asJobMessage (x : Json) : option JobMessage :=
  match x with
  | JObject msg =>
      match get "job_type" msg, get "job_id" msg, get "correlation_id" msg,
            get "enqueued_at" msg, get "payload" msg with
      | Some (JString t), Some (JString j), Some (JString c), Some (JString e), Some p =>
          match jobTypeOfName t with
          | Some ty =>
              Some (mkJobMessage ty j c e
                      match get "attempt" msg with
                      | Some (JNumber q) =>
                          if Qeq_bool q (inject_Z (Qfloor q)) then Some (Qfloor q) else None
                      | _ => None
                      end
                      p)
          | None => None
          end
      | _, _, _, _, _ => None
      end
  | _ => None
  end.

(** [createJobMessage]; the generated identifier and the clock reading are
    arguments. *)
Definition createJobMessage (jobType : JobType) (payload : Json)
    (correlationId : option string) (jobId generatedCorrelationId nowIso : string)
  : JobMessage :=
  mkJobMessage jobType jobId
    match correlationId with Some c => c | None => generatedCorrelationId end
    nowIso None payload.

End QueueMessages.

(** ** The queue client ([sqsService.ts])

    Requests to the queue provider are recorded in the order they are sent;
    a request is taken to succeed. *)
Module SqsService.
Import QueueMessages.

Definition QueueName : Type := string.

(** The keys of [QUEUES]. *)
Definition QUEUES : list QueueName :=
  [ "q_ingest"; "q_extract"; "q_cluster"; "q_geojoin";
    "q_alerts"; "q_video"; "q_classroom"; "q_smoketest" ].

Definition ROUTE_BY_JOBTYPE (t : JobType) : QueueName :=
  match t with
  | INGEST => "q_ingest" | EXTRACT => "q_extract" | CLUSTER => "q_cluster"
  | GEO_JOIN => "q_geojoin" | ALERTS => "q_alerts" | VIDEO_BRIEF => "q_video"
  | CLASSROOM_EPISODE => "q_classroom" | SMOKE_TEST => "q_smoketest"
  end.

Inductive Command : Type :=
| SendMessage (queue : QueueName) (msg : JobMessage)
| DeleteMessage (queue : QueueName) (receiptHandle : string)
| ChangeMessageVisibility (queue : QueueName) (receiptHandle : string) (timeout : Q).

(** [QUEUES[queue]] is defined for the keys of [QUEUES] and for the names
    inherited from [Object.prototype]; for the latter the [url] read from it
    is [undefined], and the request is issued with that. *)
Definition hasEntry (queue : string) : bool :=
  Js.includes QUEUES queue || Js.includes Js.OBJECT_PROTOTYPE queue.

(** [enqueueJob]: [QUEUES[queue].url] throws on a name for which
    [QUEUES[queue]] is [undefined]. *)
Definition enqueueJob (queue : string) (msg : JobMessage) (sent : list Command)
  : list Command * Outcome unit :=
  if hasEntry queue
  then (sent ++ [SendMessage queue msg], Return tt)
  else (sent, Throw (typeError "Cannot read properties of undefined (reading 'url')")).

Definition enqueueRouted (msg : JobMessage) (sent : list Command)
  : list Command * Outcome unit :=
  enqueueJob (ROUTE_BY_JOBTYPE (job_type msg)) msg sent.

(** A message as the provider returns it. *)
Record Message : Type := mkMessage {
  ReceiptHandle : option string;
  Body : option string;
  MessageId : option string;
  ApproximateReceiveCount : option Z
}.

Record ReceivedMessage : Type := mkReceived {
  receiptHandle : string;
  rawBody : string;
  parsed : option JobMessage;
  messageId : option string;
  approximateReceiveCount : option Z
}.

Section Receive.
(** [JSON.parse]: [None] when it throws. *)
Variable JSON_parse : string -> option Json.

Definition parseBody (body : string) : option JobMessage :=
  match JSON_parse body with
  | Some candidate => if isJobMessage candidate then asJobMessage candidate else None
  | None => None
  end.

(** The loop body of [receiveMessages] over the messages of one response. *)
Definition receiveOne (m : Message) : list ReceivedMessage :=
  match ReceiptHandle m, Body m with
  | Some h, Some body =>
      if String.eqb h "" || String.eqb body "" then []
      else [mkReceived h body (parseBody body) (MessageId m) (ApproximateReceiveCount m)]
  | _, _ => []
  end.

Definition receiveMessages (response : list Message) : list ReceivedMessage :=
  flat_map receiveOne response.
End Receive.

Definition deleteMessage (queue : QueueName) (receiptHandle : string)
    (sent : list Command) : list Command :=
  sent ++ [DeleteMessage queue receiptHandle].

Definition requeueSoon (queue : QueueName) (receiptHandle : string) (delaySeconds : Q)
    (sent : list Command) : list Command :=
  sent ++ [ChangeMessageVisibility queue receiptHandle
             (Qmax 0 (Qmin delaySeconds (12 * 60 * 60)))].

Definition handlePoisonMessage (queue : QueueName) (receiptHandle rawBody : string)
    (sent : list Command) : list Command :=
  deleteMessage queue receiptHandle sent.

(** An entry of a batch request.  [Id] is the text of [i + idx], which the
    code reads back with [parseInt]: the number is kept. *)
Record BatchEntry : Type := mkEntry {
  Id : nat;
  entryMessage : JobMessage
}.

(** The answer of the provider to a batch request: the [Id]s under
    [Successful] and under [Failed]. *)
Record BatchAnswer : Type := mkAnswer {
  Successful : list nat;
  Failed : list nat
}.

Record BatchRequest : Type := mkBatchRequest {
  batchQueue : QueueName;
  Entries : list BatchEntry
}.

Record BatchOutput : Type := mkBatchOutput {
  successful : list string;
  failed : list string
}.

(** [batch.map((msg, idx) => ({ Id: i + idx, ... }))]. *)
Fixpoint entriesFrom (i : nat) (batch : list JobMessage) : list BatchEntry :=
  match batch with
  | [] => []
  | msg :: rest => mkEntry i msg :: entriesFrom (S i) rest
  end.

(** The [job_id]s pushed for a list of answered [Id]s: [batch[id].job_id] for
    each; [None] when an index falls outside the batch, where reading
    [job_id] of [undefined] throws. *)
Fixpoint jobIdsAt (batch : list JobMessage) (ids : list nat) : option (list string) :=
  match ids with
  | [] => Some []
  | n :: rest =>
      match nth_error batch n, jobIdsAt batch rest with
      | Some msg, Some js => Some (job_id msg :: js)
      | _, _ => None
      end
  end.

Section Batch.
(** The provider's answer to a batch request. *)
Variable respond : BatchRequest -> BatchAnswer.

(** The loop of [enqueueBatch], [rounds] iterations from index [i]. *)
Fixpoint enqueueBatchFrom (rounds i : nat) (queue : string) (messages : list JobMessage)
    (acc : BatchOutput) (sent : list BatchRequest)
  : list BatchRequest * Outcome BatchOutput :=
  match rounds with
  | O => (sent, Return acc)
  | S rounds' =>
      let batch := firstn 10 (skipn i messages) in
      if negb (hasEntry queue)
      then (sent, Throw (typeError "Cannot read properties of undefined (reading 'url')"))
      else
        let request := mkBatchRequest queue (entriesFrom i batch) in
        let result := respond request in
        let sent := sent ++ [request] in
        match jobIdsAt batch (Successful result) with
        | None =>
            (sent, Throw (typeError "Cannot read properties of undefined (reading 'job_id')"))
        | Some s =>
            match jobIdsAt batch (Failed result) with
            | None =>
                (sent,
                 Throw (typeError "Cannot read properties of undefined (reading 'job_id')"))
            | Some f =>
                enqueueBatchFrom rounds' (i + 10) queue messages
                  (mkBatchOutput (successful acc ++ s) (failed acc ++ f)) sent
            end
        end
  end.

(** [enqueueBatch]: the loop [for (i = 0; i < messages.length; i += 10)] runs
    once for every started ten of messages. *)
Definition enqueueBatch (queue : string) (messages : list JobMessage)
  : list BatchRequest * Outcome BatchOutput :=
  enqueueBatchFrom ((length messages + 9) / 10) 0 queue messages
    (mkBatchOutput [] []) [].
End Batch.

End SqsService.

(** ** The consumer loop ([consumer.ts]) *)
Module Consumer.
Import QueueMessages SqsService.

(** The settings read from the environment at start-up. *)
Record Config : Type := mkConfig {
  MAX_MESSAGES_PER_POLL : Z;
  WAIT_SECONDS : Z;
  VISIBILITY_TIMEOUT_SECONDS : Z;
  MAX_APP_RETRIES : Z;
  BASE_RETRY_DELAY_SECONDS : Q;
  SHUTDOWN_GRACE_MS : Z
}.

(** The values taken when the environment sets none. *)
Definition defaults : Config := mkConfig 5 20 120 2 30 10000.

(** [computeBackoffSeconds]; [random] is the draw of [Math.random()], a number
    in [[0, 1)]. *)
Definition backoffBase (cfg : Config) (attempt : Z) : Q :=
  BASE_RETRY_DELAY_SECONDS cfg * inject_Z (2 ^ Z.max 0 (attempt - 1)).

Definition computeBackoffSeconds (cfg : Config) (random : Q) (attempt : Z) : Q :=
  let base := backoffBase cfg attempt in
  let jitter := random * (2 # 10) * base in
  Qmin (base + jitter) (15 * 60).

Definition isRetryableError (err : JsError) : bool :=
  let msg := Js.toLowerCase (message err) in
  let code := match code err with Some c => c | None => name err end in
  if Js.strIncludes msg "rate limit" || Js.strIncludes msg "throttl" then true
  else if Js.strIncludes code "Throttl" then true
  else if Js.strIncludes msg "timeout" || Js.strIncludes msg "timed out" then true
  else if Js.strIncludes msg "econnreset" || Js.strIncludes msg "econnrefused" then true
  else if Js.strIncludes code "ECONNRESET" || Js.strIncludes code "ETIMEDOUT" then true
  else if Js.strIncludes msg "temporar" || Js.strIncludes msg "try again" then true
  else if Js.strIncludes msg "500" || Js.strIncludes msg "502" ||
          Js.strIncludes msg "503" || Js.strIncludes msg "504" then true
  else if Js.strIncludes msg "overloaded" || Js.strIncludes msg "capacity" then true
  else if Js.strIncludes msg "validation" || Js.strIncludes msg "invalid" then false
  else true.

Section Loop.
(** What the job handlers act on (the store, the capability, the queues). *)
Variable World : Type.
Variable cfg : Config.
(** The extraction job as the handler of [EXTRACT] messages. *)
Variable runExtractJob : JobMessage -> World -> World * Outcome unit.

Definition Handler : Type := JobMessage -> World -> World * Outcome unit.

Definition notImplementedHandler : Handler := fun _ w => (w, Return tt).

Definition handlers (t : JobType) : option Handler :=
  match t with
  | EXTRACT => Some runExtractJob
  | _ => Some notImplementedHandler
  end.

(** The worker: the world of the handlers, the requests sent to the queue
    provider, the handler invocations so far, and the flag [shuttingDown].
    The counter [activeJobs] is raised around a handler call and restored by
    the [finally] block, so it is the same before and after [handleMessage]. *)
Record State : Type := mkState {
  world : World;
  sent : list Command;
  invoked : list JobMessage;
  shuttingDown : bool
}.

Definition withSent (st : State) (cmds : list Command) : State :=
  mkState (world st) cmds (invoked st) (shuttingDown st).

(** [handleMessage]; [random] is the draw used if a delay is computed. *)
Definition handleMessage (random : Q) (queue : QueueName) (receiptHandle rawBody : string)
    (parsed : option JobMessage) (receiveCount : option Z) (st : State) : State :=
  match parsed with
  | None => withSent st (handlePoisonMessage queue receiptHandle rawBody (sent st))
  | Some parsed =>
      match handlers (job_type parsed) with
      | None => withSent st (deleteMessage queue receiptHandle (sent st))
      | Some handler =>
          let attempt :=
            match receiveCount with
            | Some n => n
            | None => (match attempt parsed with Some a => a | None => 0 end + 1)%Z
            end in
          let (w, outcome) := handler parsed (world st) in
          let st := mkState w (sent st) (invoked st ++ [parsed]) (shuttingDown st) in
          match outcome with
          | Return _ => withSent st (deleteMessage queue receiptHandle (sent st))
          | Throw err =>
              if negb (isRetryableError err)
              then withSent st (deleteMessage queue receiptHandle (sent st))
              else if (MAX_APP_RETRIES cfg <=? attempt)%Z
              then withSent st (requeueSoon queue receiptHandle
                                  (computeBackoffSeconds cfg random attempt) (sent st))
              else withSent st (requeueSoon queue receiptHandle
                                  (computeBackoffSeconds cfg random attempt) (sent st))
          end
      end
  end.

(** The loop of [pollQueue] over one received batch; [randoms] supplies one
    draw per message. *)
Fixpoint processBatch (randoms : list Q) (queue : QueueName)
    (messages : list ReceivedMessage) (st : State) : State :=
  match messages with
  | [] => st
  | m :: rest =>
      if shuttingDown st then st
      else
        let st := handleMessage (hd 0 randoms) queue (receiptHandle m) (rawBody m)
                    (parsed m) (approximateReceiveCount m) st in
        processBatch (tl randoms) queue rest st
  end.

Definition pollQueue (JSON_parse : string -> option Json) (randoms : list Q)
    (queue : QueueName) (response : list Message) (st : State) : State :=
  processBatch randoms queue (receiveMessages JSON_parse response) st.

End Loop.
End Consumer.

(** ** The extraction job ([extract.job.ts]) *)
Module ExtractJob.
Import Store QueueMessages SqsService.

Definition OPENAI_MODEL : string := "gpt-4-turbo".
Definition MAX_SOURCE_CHARS : nat := 20 * 1000.
Definition MIN_SOURCE_CHARS : nat := 200.

Record SourceRow : Type := mkSourceRow {
  id : Z;
  url : string;
  publisher : option string;
  title : option string;
  sourceType : string;
  publishedAt : option Z;
  scrapedAt : Z;
  language : option string;
  snippet : option string;
  credibilityScore : option Q
}.

Record ExtractionResult : Type := mkExtractionResult {
  eventId : Z;
  confidence : Q;
  geoValidation : GeoValidation.GeoValidationResult
}.

Record Payload : Type := mkPayload {
  source_id : Z;
  force_reextract : option bool;
  model_hint : option string
}.

Record ExtractJobMessage : Type := mkExtractJobMessage {
  job_id : string;
  correlation_id : string;
  payload : Payload
}.

(** One call of the extraction capability: the source and text put into the
    user prompt, and whether the strict variant is asked for.  The prompt
    text itself is not rendered. *)
Record Request : Type := mkRequest {
  req_source : SourceRow;
  req_text : string;
  req_strict : bool
}.

(** What the job acts on: the store, the requests sent to the queue
    provider, and the calls made to the capability. *)
Record World : Type := mkWorld {
  db : Db;
  sent : list Command;
  calls : list Request
}.

(** Code that reads and writes the world and may throw. *)
Definition Job (A : Type) : Type := World -> World * Outcome A.

Definition ret {A : Type} (a : A) : Job A := fun w => (w, Return a).

Definition throw {A : Type} (e : JsError) : Job A := fun w => (w, Throw e).

Definition bind {A B : Type} (m : Job A) (k : A -> Job B) : Job B :=
  fun w =>
    match m w with
    | (w', Return a) => k a w'
    | (w', Throw e) => (w', Throw e)
    end.

Notation "x <- m ;; k" := (bind m (fun x => k))
  (at level 61, m at next level, right associativity).
Notation "m ;;; k" := (bind m (fun _ => k))
  (at level 61, right associativity).

Definition newline : string := String (ascii_of_nat 10) "".

Definition truncateText (text : string) (maxChars : nat) : string :=
  if (String.length text <=? maxChars)%nat then text
  else String.substring 0 maxChars text ++ newline ++ newline ++ "[TRUNCATED]".

Definition categorizePublisher (publisher : string) : string :=
  let lower := Js.toLowerCase publisher in
  if Js.strIncludes lower "gov" || Js.strIncludes lower "department" ||
     Js.strIncludes lower "ministry" then "gov"
  else if Js.strIncludes lower "wwf" || Js.strIncludes lower "conservation" ||
          Js.strIncludes lower "wildlife" then "ngo"
  else if Js.strIncludes lower "university" || Js.strIncludes lower "journal" ||
          Js.strIncludes lower "science" then "academic"
  else "news".

Definition shouldMarkEpisodeEligible (extraction : Extraction.t) (qualityScore : Q) : bool :=
  (4 <=? Extraction.severity_level extraction)%Z &&
  Qle_bool (75 # 100) (Extraction.confidence_extraction extraction) &&
  match Extraction.is_classroom_safe extraction with Some true => true | _ => false end &&
  Qle_bool (6 # 10) qualityScore.

Section WithCapability.
(** The extraction capability: the reply to the [n]-th call overall. *)
Variable callOpenAIForExtraction : nat -> Request -> Outcome Extraction.t.
(** The compiled validator of the [event_extraction_v1] schema.  A reply
    that fails it is never read, so a malformed object is any value the
    validator refuses. *)
Variable validateEventSchema : Extraction.t -> bool.
(** [calculateSourceQualityScore] of [sourceQuality.ts]. *)
Variable calculateSourceQualityScore : string -> option string -> option Q -> Q.
(** The kind of the column [credibilityScore]. *)
Variable scoreColumn : NumericColumn.

Definition loadSource (sourceId : Z) : Job (option SourceRow) :=
  fun w =>
    (w, Return
          match findSource sourceId (eventSources (db w)) with
          | None => None
          | Some source =>
              Some (mkSourceRow (EventSource.id source) (EventSource.url source)
                      (EventSource.publisher source) (EventSource.title source)
                      (EventSource.sourceType source) (EventSource.publishedAt source)
                      (EventSource.scrapedAt source) (EventSource.language source)
                      (EventSource.snippet source)
                      (if truthy scoreColumn (EventSource.credibilityScore source)
                       then EventSource.credibilityScore source else None))
          end).

Definition hasExistingExtraction (sourceId : Z) : Job bool :=
  fun w =>
    let count :=
      length (filter (fun x => SourceExtraction.source_id x =? sourceId)%Z
                (sourceExtractions (db w))) in
    (w, Return (0 <? count)%nat).

Definition withDb (w : World) (d : Db) : World := mkWorld d (sent w) (calls w).

Definition markSourceStatus (now : Z) (sourceId : Z) (status : string) : Job unit :=
  fun w =>
    let d := db w in
    (withDb w
       (mkDb (events d)
          (updateWhere (fun s => EventSource.id s =? sourceId)%Z
             (fun s =>
                EventSource.mk (EventSource.id s) (EventSource.url s) (EventSource.publisher s)
                  (EventSource.title s) (EventSource.sourceType s) (EventSource.publishedAt s)
                  (EventSource.scrapedAt s) (EventSource.language s) (EventSource.snippet s)
                  (EventSource.credibilityScore s) (EventSource.eventId s) status now)
             (eventSources d))
          (sourceExtractions d) (eventMerges d) (nextEventId d)),
     Return tt).

Definition callCapability (request : Request) : Job Extraction.t :=
  fun w =>
    (mkWorld (db w) (sent w) (calls w ++ [request]),
     callOpenAIForExtraction (length (calls w)) request).

Definition runGeoValidation (extraction : Extraction.t) : Job GeoValidation.GeoValidationResult :=
  fun w => (w, GeoValidation.validateGeolocation extraction).

(** The two assignments made to the payload when validation found issues. *)
Definition downgrade (extraction : Extraction.t) (g : GeoValidation.GeoValidationResult)
  : Extraction.t :=
  if negb (GeoValidation.valid g)
  then
    let loc := Extraction.location extraction in
    Extraction.mk (Extraction.title extraction) (Extraction.event_type_primary extraction)
      (Extraction.event_type_secondary extraction) (Extraction.severity_level extraction)
      (Extraction.confidence_extraction extraction) (GeoValidation.adjustedConfidence g)
      (if GeoValidation.shouldNullifyCoords g
       then Extraction.mkLocation None (Extraction.admin loc) (Extraction.description loc)
       else loc)
      (Extraction.summary_short extraction) (Extraction.summary_detailed extraction)
      (Extraction.is_classroom_safe extraction) (Extraction.start_date extraction)
      (Extraction.end_date extraction) (Extraction.is_ongoing extraction)
      (Extraction.source_ref_publisher extraction)
  else extraction.

Definition coordinateOf (extraction : Extraction.t) (pick : Q * Q -> Q) : option Q :=
  match Extraction.geometry (Extraction.location extraction) with
  | Some g =>
      match Extraction.coordinates g with
      | Some c => Some (pick c)
      | None => None
      end
  | None => None
  end.

(** The row made by [tx.event.create]; [status] and [mergedIntoId] take the
    defaults of the table. *)
Definition newEventRow (now key : Z) (extraction : Extraction.t) (qualityScore : Q)
  : Event.t :=
  let a := Extraction.admin (Extraction.location extraction) in
  Event.mk key (Extraction.title extraction) (Extraction.event_type_primary extraction)
    (Extraction.event_type_secondary extraction) (Extraction.severity_level extraction)
    (Some (Extraction.confidence_extraction extraction))
    (Extraction.country a) (Extraction.admin1 a) (Extraction.admin2 a) (Extraction.locality a)
    (coordinateOf extraction snd) (coordinateOf extraction fst)
    (Extraction.summary_short extraction) (Extraction.summary_detailed extraction)
    match Extraction.is_classroom_safe extraction with Some v => v | None => false end
    (Extraction.start_date extraction) (Extraction.end_date extraction)
    match Extraction.is_ongoing extraction with Some v => v | None => true end
    1
    (if Js.truthyStr (Extraction.source_ref_publisher extraction)
     then categorizePublisher
            match Extraction.source_ref_publisher extraction with Some p => p | None => "" end
     else "news")
    (shouldMarkEpisodeEligible extraction qualityScore)
    "active" None now now.

(** [saveExtractionResult]: one transaction; a failed statement (no source row
    to link, or a second row for a source in [source_extractions], whose
    [source_id] is declared [UNIQUE]) rolls it back. *)
Definition saveExtractionResult (now : Z) (sourceId : Z) (extraction : Extraction.t)
    (model : string) (qualityScore : Q) (g : GeoValidation.GeoValidationResult) : Job Z :=
  fun w =>
    let d := db w in
    let key := nextEventId d in
    match findSource sourceId (eventSources d) with
    | None => (w, Throw (error "Record to update not found"))
    | Some _ =>
        if existsb (fun x => SourceExtraction.source_id x =? sourceId)%Z (sourceExtractions d)
        then (w, Throw (error "duplicate key value violates unique constraint"))
        else
          (withDb w
             (mkDb (events d ++ [newEventRow now key extraction qualityScore])
                (updateWhere (fun s => EventSource.id s =? sourceId)%Z
                   (fun s =>
                      EventSource.mk (EventSource.id s) (EventSource.url s)
                        (EventSource.publisher s) (EventSource.title s)
                        (EventSource.sourceType s) (EventSource.publishedAt s)
                        (EventSource.scrapedAt s) (EventSource.language s)
                        (EventSource.snippet s) (EventSource.credibilityScore s)
                        (Some key) (EventSource.extraction_status s)
                        (EventSource.updated_at s))
                   (eventSources d))
                (sourceExtractions d ++
                   [SourceExtraction.mk sourceId key "event_extraction_v1" model
                      extraction qualityScore g now])
                (eventMerges d) (key + 1)%Z),
           Return key)
    end.

Definition enqueue (queue : string) (msg : JobMessage) : Job unit :=
  fun w =>
    let (cmds, r) := enqueueJob queue msg (sent w) in
    (mkWorld (db w) cmds (calls w), r).

(** Step 5 of [runExtractJob]: the first call of the capability and, when its
    reply fails the schema, the second call with the strict prompt. *)
Definition requestExtraction (source : SourceRow) (rawText : string) : Job Extraction.t :=
  first <- callCapability (mkRequest source rawText false) ;;
  if validateEventSchema first then ret first
  else callCapability (mkRequest source rawText true).

(** Steps 6 to 8 of [runExtractJob], and the failure after two invalid
    replies. *)
Definition validateAndSave (now : Z) (newJobId nowIso : string) (msg : ExtractJobMessage)
    (qualityScore : Q) (extraction : Extraction.t) : Job (option ExtractionResult) :=
  let sourceId := source_id (payload msg) in
  if negb (validateEventSchema extraction)
  then
    markSourceStatus now sourceId "extraction_failed" ;;;
    throw (error ("Invalid event_extraction_v1 JSON for source_id=" ++ Js.showZ sourceId))
  else
    geo <- runGeoValidation extraction ;;
    let extraction := downgrade extraction geo in
    key <- saveExtractionResult now sourceId extraction
             (if Js.strictEqStr (model_hint (payload msg)) (Some "anthropic")
              then "claude" else OPENAI_MODEL)
             qualityScore geo ;;
    enqueue "CLUSTER"
      (createJobMessage CLUSTER (JObject [("event_id", JNumber (inject_Z key))])
         (Some (correlation_id msg)) newJobId "" nowIso) ;;;
    ret (Some (mkExtractionResult key (Extraction.confidence_extraction extraction) geo)).

(** Steps 4 to 8 of [runExtractJob], once the source text is accepted. *)
Definition extractAndSave (now : Z) (newJobId nowIso : string) (msg : ExtractJobMessage)
    (source : SourceRow) (rawText : string) : Job (option ExtractionResult) :=
  let qualityScore :=
    calculateSourceQualityScore (sourceType source) (publisher source)
      (credibilityScore source) in
  extraction <- requestExtraction source rawText ;;
  validateAndSave now newJobId nowIso msg qualityScore extraction.

(** Steps 3 to 8 of [runExtractJob], for the source row that was loaded. *)
Definition processSource (now : Z) (newJobId nowIso : string) (msg : ExtractJobMessage)
    (source : SourceRow) : Job (option ExtractionResult) :=
  let rawText :=
    truncateText match snippet source with Some s => s | None => "" end
      MAX_SOURCE_CHARS in
  if String.eqb rawText "" ||
     (String.length (Js.trim rawText) <? MIN_SOURCE_CHARS)%nat
  then markSourceStatus now (source_id (payload msg)) "too_short" ;;; ret None
  else extractAndSave now newJobId nowIso msg source rawText.

(** [runExtractJob]; [now] and [nowIso] are the clock reading, [newJobId] the
    identifier generated for the follow-up envelope. *)
Definition runExtractJob (now : Z) (newJobId nowIso : string) (msg : ExtractJobMessage)
  : Job (option ExtractionResult) :=
  let sourceId := source_id (payload msg) in
  loaded <- loadSource sourceId ;;
  match loaded with
  | None => throw (error ("Source not found: " ++ Js.showZ sourceId))
  | Some source =>
      existing <-
        (if negb match force_reextract (payload msg) with Some f => f | None => false end
         then hasExistingExtraction sourceId
         else ret false) ;;
      if existing then ret None
      else processSource now newJobId nowIso msg source
  end.

End WithCapability.
End ExtractJob.

(** ** The place brief ([placeBriefService.ts], the second part of
    [extract.job.ts]) *)
Module PlaceBrief.

(** The fields of an [EventBrief] that [buildSummary] reads; severity levels
    are whole numbers. *)
Record EventBrief : Type := mkEventBrief {
  event_id : Z;
  event_type_primary : string;
  severity_level : Z
}.

Record ProtectedAreaBrief : Type := mkProtectedAreaBrief {
  protected_area_id : Z;
  name : string
}.

Record ProtectedAreasResult : Type := mkProtectedAreasResult {
  contains_point : list ProtectedAreaBrief;
  nearby : list ProtectedAreaBrief
}.

Record PlaceSummary : Type := mkPlaceSummary {
  (** [{ event_type, count }] *)
  top_threat_types : list (string * Z);
  (** [{ severity, count }] *)
  severity_breakdown : list (Z * Z);
  protected_areas_nearby_count : Z;
  trend : string
}.

(** [m.set(k, (m.get(k) || 0) + 1)] on a [Map], whose entries keep the order
    in which their keys were first set. *)
Fixpoint bump {K : Type} (eqb : K -> K -> bool) (k : K) (m : list (K * Z))
  : list (K * Z) :=
  match m with
  | [] => [(k, 1%Z)]
  | (k', n) :: r =>
      if eqb k' k then (k', (n + 1)%Z) :: r else (k', n) :: bump eqb k r
  end.

Definition buildSummary (events : list EventBrief) (protectedAreas : ProtectedAreasResult)
  : PlaceSummary :=
  let typeCounts :=
    fold_left (fun m event => bump String.eqb (event_type_primary event) m) events [] in
  let severityCounts :=
    fold_left (fun m event => bump Z.eqb (severity_level event) m) events [] in
  {| top_threat_types := firstn 5 (sortDesc snd Z.gtb typeCounts);
     severity_breakdown := sortDesc fst Z.gtb severityCounts;
     protected_areas_nearby_count :=
       (Z.of_nat (length (contains_point protectedAreas)) +
        Z.of_nat (length (nearby protectedAreas)))%Z;
     trend := "unknown" |}.

(** [calculateCoverageScore]; the two counts are whole numbers. *)
Definition calculateCoverageScore (sourceCount eventCount : Z) : Q :=
  let sourceScore := Qmin (inject_Z sourceCount / 50) 1 in
  let eventScore := Qmin (inject_Z eventCount / 20) 1 in
  Js.round ((sourceScore * (6 # 10) + eventScore * (4 # 10)) * 100) / 100.

End PlaceBrief.

(** * Vocabulary of the properties, and example data

    The predicates and measures the properties below are stated with, the
    score as the specification words it, a rational stand-in for [Math], and
    the stores and payloads of the examples. *)

(** ** For the geolocation validator *)
Section GeoVocabulary.
Import Extraction GeoValidation.

(** A coordinate pair outside the valid ranges. *)
Definition outOfRange (lng lat : Q) : Prop :=
  lat < -90 \/ 90 < lat \/ lng < -180 \/ 180 < lng.

Definition outOfRangeb (lng lat : Q) : bool :=
  Js.Qltb lat (-90) || Js.Qltb 90 lat || Js.Qltb lng (-180) || Js.Qltb 180 lng.

(** The payload of the example: a point at latitude 95, longitude 40. *)
Definition pointExtraction (lng lat : Q) (country : string) : Extraction.t :=
  Extraction.mk "Wildfire near the park" "wildfire" None 3 (8 # 10) (9 # 10)
    (mkLocation (Some (mkGeometry "Point" (Some (lng, lat)) None))
       (mkAdmin country None None None) None)
    "A wildfire burns near the park" None None None None None None.

Definition lat95lng40 : Extraction.t := pointExtraction 40 95 "Kenya".

(** The point has coordinates outside the valid ranges. *)
Definition rejected (e : Extraction.t) : Prop :=
  exists g lng lat,
    geometry (location e) = Some g /\ coordinates g = Some (lng, lat) /\
    outOfRange lng lat.

(** Neither the suggested fix nor the issues mention a swap. *)
Definition noSwap (a : Acc) : Prop :=
  acc_fix a <> Some swap /\ forall x y, ~ In (MaybeSwapped x y) (acc_issues a).

End GeoVocabulary.

(** ** For the consumer loop *)
Section ConsumerVocabulary.
Import QueueMessages SqsService Consumer.


End ConsumerVocabulary.

(** A stand-in for [JSON.parse] that reads three bodies, used to run
    examples; the third body stands for the text of a well-formed [EXTRACT]
    envelope. *)
Definition extractEnvelope : QueueMessages.Json :=
  QueueMessages.JObject
    [ ("version", QueueMessages.JString "job_v1");
      ("job_type", QueueMessages.JString "EXTRACT");
      ("job_id", QueueMessages.JString "job_1");
      ("correlation_id", QueueMessages.JString "corr_1");
      ("enqueued_at", QueueMessages.JString "2023-11-14T22:13:20.000Z");
      ("payload", QueueMessages.JObject [("source_id", QueueMessages.JNumber 7)]) ].

Definition sampleParse (body : string) : option QueueMessages.Json :=
  if String.eqb body "{}" then Some (QueueMessages.JObject [])
  else if String.eqb body "null" then Some QueueMessages.JNull
  else if String.eqb body "<extract envelope>" then Some extractEnvelope
  else None.

(** ** A rational stand-in for [Math], used to run examples

    Short Taylor polynomials for [sin] and [cos], an integer square root on
    twelve decimals, and a rational approximation of the arc tangent on the
    first octant.  Good to a few parts in a thousand on the inputs of the
    examples; it stands for the built-in functions only there. *)
Definition sinApprox (x : Q) : Q := x - x * x * x / 6 + x * x * x * x * x / 120.

Definition cosApprox (x : Q) : Q := 1 - x * x / 2 + x * x * x * x / 24.

Definition sqrtApprox (x : Q) : Q :=
  inject_Z (Z.sqrt (Qfloor (x * inject_Z (10 ^ 12)))) / inject_Z (10 ^ 6).

Definition atan2Approx (y x : Q) : Q :=
  if Qle_bool 0 y then
    if Js.Qltb 0 x && Qle_bool y x
    then (y / x) / (1 + (28 # 100) * (y / x) * (y / x))
    else 157 # 100
  else - (157 # 100).

Definition approxMath : MathLib :=
  mkMath sinApprox cosApprox sqrtApprox atan2Approx (355 # 113).

(** ** For the similarity score *)
Section SimilarityVocabulary.
Import EventCluster.

Variable M : MathLib.

(** The components of the score, each already multiplied by its weight; a
    component whose inputs are missing is worth 0. *)
Definition typeComponent (e1 e2 : EventForClustering) : Q :=
  if String.eqb (eventTypePrimary e1) (eventTypePrimary e2) then 2 # 10 else 0.

Definition hasCoordinates (e : EventForClustering) : bool :=
  Js.truthyNum (latitude e) && Js.truthyNum (longitude e).

Definition sharedAdmin1 (e1 e2 : EventForClustering) : bool :=
  Js.truthyStr (admin1 e1) && Js.truthyStr (admin1 e2) &&
  Js.strictEqStr (admin1 e1) (admin1 e2).

Definition distanceBetween (e1 e2 : EventForClustering) : Q :=
  calculateDistanceKm M (Js.toNumber (latitude e1)) (Js.toNumber (longitude e1))
                        (Js.toNumber (latitude e2)) (Js.toNumber (longitude e2)).

Definition closeness (e1 e2 : EventForClustering) : Q :=
  Qmax 0 (1 - distanceBetween e1 e2 / MAX_DISTANCE_KM).

Definition geoComponent (e1 e2 : EventForClustering) : Q :=
  if hasCoordinates e1 && hasCoordinates e2 then closeness e1 e2 * (3 # 10)
  else if sharedAdmin1 e1 e2 then 2 # 10
  else 0.

Definition titleComponent (e1 e2 : EventForClustering) : Q :=
  calculateTextSimilarity (title e1) (title e2) * (25 # 100).

Definition summaryComponent (e1 e2 : EventForClustering) : Q :=
  calculateTextSimilarity (summaryShort e1) (summaryShort e2) * (15 # 100).

Definition proximity (t1 t2 : Z) : Q :=
  Qmax 0 (1 - Qabs (inject_Z (t1 - t2) / inject_Z (1000 * 60 * 60 * 24)) / 7).

Definition temporalComponent (e1 e2 : EventForClustering) : Q :=
  match startDate e1, startDate e2 with
  | Some t1, Some t2 => proximity t1 t2 * (1 # 10)
  | _, _ => 0
  end.

(** The score as the specification words it: the sum of the available
    components over the sum of their weights.  The geographic component is
    missing when there are no coordinates and no shared subdivision, the
    temporal one when a start date is missing. *)
Definition availableAverage (e1 e2 : EventForClustering) : Q :=
  let geoWeight :=
    if hasCoordinates e1 && hasCoordinates e2 then 3 # 10
    else if sharedAdmin1 e1 e2 then 2 # 10
    else 0 in
  let temporalWeight :=
    match startDate e1, startDate e2 with
    | Some _, Some _ => 1 # 10
    | _, _ => 0
    end in
  (typeComponent e1 e2 + geoComponent e1 e2 + titleComponent e1 e2 +
   summaryComponent e1 e2 + temporalComponent e1 e2) /
  ((2 # 10) + geoWeight + (25 # 100) + (15 # 100) + temporalWeight).

(** Two reports of one wildfire, without coordinates or subdivision, with the
    same start date. *)
Definition reportA : EventForClustering :=
  mkEvent 1 "Wildfire spreads near Yosemite" "wildfire" 3 (5 # 10) "United States"
    None None None (Some 1700000000000%Z) "Crews battle a wildfire near Yosemite"
    1 1700000300000.

Definition reportB : EventForClustering :=
  mkEvent 2 "Wildfire spreads near Yosemite" "wildfire" 3 (5 # 10) "United States"
    None None None (Some 1700000000000%Z) "Crews battle a wildfire near Yosemite"
    1 1700000600000.

End SimilarityVocabulary.

(** ** For the merge and the clustering decision *)
Section ClusterVocabulary.
Import Store EventCluster.

(** The rewrite of the rows with key [i]. *)
Definition at_ (i : Z) (f : Event.t -> Event.t) (e : Event.t) : Event.t :=
  if (Event.id e =? i)%Z then f e else e.

(** The confidence written by a merge. *)
Definition boosted (existing newEvent : EventForClustering) : Q :=
  Qmin (confidenceExtraction existing +
        inject_Z (sourceCount newEvent) * SOURCE_CONFIDENCE_BOOST)
       MAX_BOOSTED_CONFIDENCE.

(** A row of [events] with the columns the clustering reads. *)
Definition eventRow (key : Z) (title : string) (confidence : Q) (admin1 : option string)
    (latitude longitude : option Q) (count created : Z) : Event.t :=
  Event.mk key title "wildfire" None 3 (Some confidence) "United States" admin1 None None
    latitude longitude "Crews battle a wildfire near Yosemite" None false None None true
    count "news" false "active" None created created.

(** The surviving event holds a confidence of 0.99; a second report of the
    same incident has just been extracted. *)
Definition confidentStore : Db :=
  mkDb [ eventRow 1 "Wildfire spreads near Yosemite" (99 # 100) (Some "California")
           None None 1 1700000300000;
         eventRow 2 "Wildfire spreads near Yosemite" (8 # 10) (Some "California")
           None None 1 1700000600000 ]
       [] [] [] 3.

Definition confidentPrimary : EventForClustering :=
  mapToClusteringEvent FloatColumn (eventRow 1 "Wildfire spreads near Yosemite" (99 # 100)
                                      (Some "California") None None 1 1700000300000).

Definition secondReport : EventForClustering :=
  mapToClusteringEvent FloatColumn (eventRow 2 "Wildfire spreads near Yosemite" (8 # 10)
                                      (Some "California") None None 1 1700000600000).

(** The store in which the event [i] is already marked as merged into
    [into]. *)
Definition markAsMerged (i into : Z) (db : Db) : Db :=
  mkDb (map (at_ i (markMerged into)) (events db)) (eventSources db)
       (sourceExtractions db) (eventMerges db) (nextEventId db).

(** Two reports of one wildfire in the same subdivision; the second has just
    been extracted. *)
Definition yosemiteStore : Db :=
  mkDb [ eventRow 1 "Wildfire spreads near Yosemite" (5 # 10) (Some "California")
           None None 1 1700000300000;
         eventRow 2 "Wildfire spreads near Yosemite" (5 # 10) (Some "California")
           None None 1 1700000600000 ]
       [] [] [] 3.

(** The store after the clustering job for event 2 ran once, and twice. *)
Definition afterFirstDelivery : Db :=
  fst (clusterEvent approxMath FloatColumn 1700000900000 2 yosemiteStore).

Definition afterSecondDelivery : Db :=
  fst (clusterEvent approxMath FloatColumn 1700001200000 2 afterFirstDelivery).

Definition sourceCountOf (i : Z) (db : Db) : option Z :=
  option_map Event.sourceCount (findEvent i (events db)).

Definition statusOf (i : Z) (db : Db) : option string :=
  option_map Event.status (findEvent i (events db)).



(** A report from the equator in Laikipia, and an earlier report one
    kilometre to the north, filed under Nyeri. *)
Definition equatorReport : EventForClustering :=
  mkEvent 2 "Wildfire on the slopes of Mount Kenya" "wildfire" 3 (5 # 10) "Kenya"
    (Some "Laikipia") (Some 0) (Some (368 # 10)) None "Fire on the mountain" 1
    1700000600000.

Definition kenyaStore (latitude : Q) : Db :=
  mkDb [ Event.mk 1 "Wildfire on the slopes of Mount Kenya" "wildfire" None 3
           (Some (5 # 10)) "Kenya" (Some "Nyeri") None None (Some (1 # 100))
           (Some (368 # 10)) "Fire on the mountain" None false None None true 1 "news"
           false "active" None 1700000300000 1700000300000;
         Event.mk 2 "Wildfire on the slopes of Mount Kenya" "wildfire" None 3
           (Some (5 # 10)) "Kenya" (Some "Laikipia") None None (Some latitude)
           (Some (368 # 10)) "Fire on the mountain" None false None None true 1 "news"
           false "active" None 1700000600000 1700000600000 ]
       [] [] [] 3.

End ClusterVocabulary.

(** ** For the extraction job *)
Section ExtractJobVocabulary.
Import Store QueueMessages SqsService ExtractJob.

Section Run.
Variable callOpenAIForExtraction : nat -> Request -> Outcome Extraction.t.
Variable validateEventSchema : Extraction.t -> bool.
Variable calculateSourceQualityScore : string -> option string -> option Q -> Q.
Variable scoreColumn : NumericColumn.

(** The job with its four parameters fixed. *)
Definition run
  : Z -> string -> string -> ExtractJobMessage -> Job (option ExtractionResult) :=
  runExtractJob callOpenAIForExtraction validateEventSchema calculateSourceQualityScore
    scoreColumn.

End Run.

(** The extraction records of a source. *)
Definition extractionsOf (sourceId : Z) (w : World) : list SourceExtraction.t :=
  filter (fun x => SourceExtraction.source_id x =? sourceId)%Z (sourceExtractions (db w)).

Definition forced (msg : ExtractJobMessage) : bool :=
  match force_reextract (payload msg) with Some f => f | None => false end.

(** What one run can do to the events and the extraction records: nothing,
    or add one event and one extraction record of the source, which had none
    before and whose row is still there afterwards. *)
Definition quiet (w w' : World) : Prop :=
  events (db w') = events (db w) /\
  sourceExtractions (db w') = sourceExtractions (db w).

Definition saved (sourceId : Z) (w w' : World) : Prop :=
  exists row x,
    events (db w') = events (db w) ++ [row] /\
    sourceExtractions (db w') = sourceExtractions (db w) ++ [x] /\
    SourceExtraction.source_id x = sourceId /\
    SourceExtraction.event_id x = Event.id row /\
    extractionsOf sourceId w = [] /\
    findSource sourceId (eventSources (db w')) <> None.

(** A source with a text of 230 characters, not yet extracted; a capability
    that answers every call with the same valid payload. *)
Definition sampleSource : EventSource.t :=
  EventSource.mk 7 "https://example.org/fire" (Some "Example News") (Some "Wildfire") "news"
    None 1700000000000 (Some "en")
    (Some (String.concat "" (repeat "wildfire near the park " 10)))
    None None "pending" 1700000000000.

Definition sampleWorld : World :=
  mkWorld (mkDb [] [sampleSource] [] [] 1) [] [].

Definition sampleReply : Extraction.t :=
  Extraction.mk "Wildfire near the park" "wildfire" None 3 (8 # 10) (9 # 10)
    (Extraction.mkLocation
       (Some (Extraction.mkGeometry "Point" (Some (-(11959 # 100), 3775 # 100)) None))
       (Extraction.mkAdmin "United States" (Some "California") None None) None)
    "A wildfire burns near the park" None None None None None (Some "Example News").

Definition sampleJob
  : Z -> string -> string -> ExtractJobMessage -> Job (option ExtractionResult) :=
  run (fun _ _ => Return sampleReply) (fun _ => true) (fun _ _ _ => 7 # 10) FloatColumn.

Definition sampleMessage : ExtractJobMessage :=
  mkExtractJobMessage "job_1" "corr_1" (mkPayload 7 None None).

End ExtractJobVocabulary.

(** * Vocabulary of the further properties *)

(** ** For the queue client and the consumer loop *)
Section QueueVocabulary.
Import QueueMessages SqsService Consumer.

(** The value [JSON.parse(JSON.stringify(msg))] of an envelope: the members of
    the object in the order they are written, [attempt] only when it is set. *)
Definition envelopeJson (msg : JobMessage) : Json :=
  JObject
    ([ ("version", JString "job_v1");
       ("job_type", JString (jobTypeName (job_type msg)));
       ("job_id", JString (job_id msg));
       ("correlation_id", JString (correlation_id msg));
       ("enqueued_at", JString (enqueued_at msg)) ] ++
     match attempt msg with
     | Some a => [("attempt", JNumber (inject_Z a))]
     | None => []
     end ++
     [ ("payload", payload msg) ]).

(** The settings with another retry ceiling. *)
Definition withMaxRetries (n : Z) (cfg : Config) : Config :=
  mkConfig (MAX_MESSAGES_PER_POLL cfg) (WAIT_SECONDS cfg) (VISIBILITY_TIMEOUT_SECONDS cfg)
    n (BASE_RETRY_DELAY_SECONDS cfg) (SHUTDOWN_GRACE_MS cfg).

(** The markers of a transient failure that [isRetryableError] looks for in
    the lower-cased message, and in the code (or name) of the error. *)
Definition messageMarkers : list string :=
  [ "rate limit"; "throttl"; "timeout"; "timed out"; "econnreset"; "econnrefused";
    "temporar"; "try again"; "500"; "502"; "503"; "504"; "overloaded"; "capacity" ].

Definition codeMarkers : list string := [ "Throttl"; "ECONNRESET"; "ETIMEDOUT" ].

Definition codeOf (err : JsError) : string :=
  match code err with Some c => c | None => name err end.

Definition transient (err : JsError) : bool :=
  existsb (Js.strIncludes (Js.toLowerCase (message err))) messageMarkers ||
  existsb (Js.strIncludes (codeOf err)) codeMarkers.

Definition mentionsValidation (err : JsError) : bool :=
  Js.strIncludes (Js.toLowerCase (message err)) "validation" ||
  Js.strIncludes (Js.toLowerCase (message err)) "invalid".

(** A request about the message with receipt handle [h] on [queue]: its
    deletion, or a change of its visibility to between 0 and 900 seconds. *)
Definition settles (queue : QueueName) (h : string) (c : Command) : Prop :=
  c = DeleteMessage queue h \/
  exists t, c = ChangeMessageVisibility queue h t /\ 0 <= t <= 900.

(** A provider that answers a batch request by reporting every entry, under
    [Successful] or under [Failed], and nothing else. *)
Definition reportsEveryEntry (respond : BatchRequest -> BatchAnswer) : Prop :=
  forall request,
    (forall n, In n (Successful (respond request) ++ Failed (respond request)) <->
               In n (map Id (Entries request))).

(** The job id [j] is that of the message at position [n] of the batch. *)
Definition filedAt (messages : list JobMessage) (n : nat) (j : string) : Prop :=
  exists m, nth_error messages n = Some m /\ job_id m = j.

(** The received messages that carry an envelope. *)
Definition withEnvelope (messages : list ReceivedMessage) : list ReceivedMessage :=
  filter (fun m => match parsed m with Some _ => true | None => false end) messages.

End QueueVocabulary.

(** A provider that reports every entry of a batch as successful, and a
    batch of [n] envelopes, used to run examples. *)
Definition allSuccessful (request : SqsService.BatchRequest) : SqsService.BatchAnswer :=
  SqsService.mkAnswer (map SqsService.Id (SqsService.Entries request)) [].

(** A provider that reports the entries with an even [Id] as successful and
    those with an odd [Id] as failed. *)
Definition oddFailed (request : SqsService.BatchRequest) : SqsService.BatchAnswer :=
  SqsService.mkAnswer
    (filter Nat.even (map SqsService.Id (SqsService.Entries request)))
    (filter Nat.odd (map SqsService.Id (SqsService.Entries request))).

Definition envelopes (n : nat) : list QueueMessages.JobMessage :=
  map (fun k =>
         QueueMessages.mkJobMessage QueueMessages.EXTRACT
           (String (ascii_of_nat (65 + k)) "") "corr_1" "" None
           (QueueMessages.JObject []))
      (seq 0 n).

(** ** For the geolocation validator, further *)
Section GeoVocabularyFurther.
Import Extraction GeoValidation.

(** The payload carries point coordinates. *)
Definition hasPoint (e : Extraction.t) : bool :=
  match geometry (location e) with
  | Some g => match coordinates g with Some _ => true | None => false end
  | None => false
  end.

(** The payload with its point replaced and its country set. *)
Definition placedAt (e : Extraction.t) (country : string) (lng lat : Q) : Extraction.t :=
  Extraction.mk (title e) (event_type_primary e) (event_type_secondary e) (severity_level e)
    (confidence_extraction e) (confidence_geolocation e)
    (mkLocation (Some (mkGeometry "Point" (Some (lng, lat)) None))
       (mkAdmin country (admin1 (admin (location e))) (admin2 (admin (location e)))
          (locality (admin (location e))))
       (description (location e)))
    (summary_short e) (summary_detailed e) (is_classroom_safe e) (start_date e)
    (end_date e) (is_ongoing e) (source_ref_publisher e).

(** What stands behind an issue reported for the point [[lng, lat]] of the
    payload. *)
Definition caused (e : Extraction.t) (g : Geometry) (lng lat : Q) (i : Issue) : Prop :=
  match i with
  | InvalidLatitude x => x = lat /\ (lat < -90 \/ 90 < lat)
  | InvalidLongitude x => x = lng /\ (lng < -180 \/ 180 < lng)
  | MaybeSwapped _ _ => False
  | OutsideCountry c x y =>
      c = country (admin (location e)) /\ x = lng /\ y = lat /\
      outOfRangeb lng lat = false /\
      exists b, lookupBounds (Js.trim (Js.toLowerCase c)) = Own b
  | InOcean =>
      outOfRangeb lng lat = false /\ checkIfLikelyOcean lng lat = true /\
      isMarineEventExpected e = false
  | ExactPrecisionWithIssues => precision g = Some "exact"
  end.

End GeoVocabularyFurther.

(** ** For the clustering engine, further *)
Section ClusterVocabularyFurther.
Import Store EventCluster.

(** The store in which the event [j] has the given status and merge target. *)
Definition setStatus (status : string) (into : option Z) (e : Event.t) : Event.t :=
  Event.mk (Event.id e) (Event.title e) (Event.eventTypePrimary e)
    (Event.eventTypeSecondary e) (Event.severityLevel e) (Event.confidenceExtraction e)
    (Event.country e) (Event.admin1 e) (Event.admin2 e) (Event.locationName e)
    (Event.latitude e) (Event.longitude e) (Event.summaryShort e)
    (Event.summaryDetailed e) (Event.isClassroomSafe e) (Event.startDate e)
    (Event.endDate e) (Event.isOngoing e) (Event.sourceCount e)
    (Event.primarySourceType e) (Event.episodeEligible e) status into
    (Event.createdAt e) (Event.updatedAt e).

Definition withStatus (j : Z) (status : string) (into : option Z) (db : Db) : Db :=
  mkDb (map (at_ j (setStatus status into)) (events db)) (eventSources db)
       (sourceExtractions db) (eventMerges db) (nextEventId db).

(** The sources attached to an event. *)
Definition sourcesOf (i : Z) (db : Db) : list EventSource.t :=
  filter (fun s => match EventSource.eventId s with
                   | Some k => (k =? i)%Z
                   | None => false
                   end) (eventSources db).

Definition severityOf (i : Z) (db : Db) : option Z :=
  option_map Event.severityLevel (findEvent i (events db)).

Definition mergedIntoOf (i : Z) (db : Db) : option (option Z) :=
  option_map Event.mergedIntoId (findEvent i (events db)).

(** The geographic and the temporal component of the score are both missing
    for the pair. *)
Definition lacksPlaceAndTime (e1 e2 : EventForClustering) : Prop :=
  hasCoordinates e1 && hasCoordinates e2 = false /\
  sharedAdmin1 e1 e2 = false /\
  (startDate e1 = None \/ startDate e2 = None).

(** Two events that differ at most in their coordinates, as far as the score
    reads them. *)
Definition sameButPlace (e e' : EventForClustering) : Prop :=
  eventTypePrimary e = eventTypePrimary e' /\ title e = title e' /\
  summaryShort e = summaryShort e' /\ startDate e = startDate e'.

(** Reports of the example with coordinates near Yosemite, and without a
    start date. *)
Definition reportAt (key : Z) (lat lng : Q) : EventForClustering :=
  mkEvent key "Wildfire spreads near Yosemite" "wildfire" 3 (5 # 10) "United States"
    (Some "California") (Some lat) (Some lng) None "Crews battle a wildfire near Yosemite"
    1 1700000300000.

Definition undatedReport (key : Z) : EventForClustering :=
  mkEvent key "Wildfire spreads near Yosemite" "wildfire" 3 (5 # 10) "United States"
    None None None None "Crews battle a wildfire near Yosemite" 1 1700000300000.

(** The example store with three sources: one of each event and one that
    belongs to no event yet. *)
Definition sourceRow (key : Z) (event : option Z) : EventSource.t :=
  EventSource.mk key "https://example.org/report" None None "news" None 1700000000000
    None None None event "extracted" 1700000000000.

Definition yosemiteWithSources : Db :=
  mkDb (events yosemiteStore) [sourceRow 11 (Some 1%Z); sourceRow 12 (Some 2%Z);
                               sourceRow 13 None] [] [] 3.

End ClusterVocabularyFurther.

(** ** For the extraction job, further *)
Section ExtractVocabularyFurther.
Import Store QueueMessages SqsService ExtractJob.

Definition statusOfSource (sourceId : Z) (w : World) : option string :=
  option_map EventSource.extraction_status (findSource sourceId (eventSources (db w))).

(** The text of a source, [""] when the source or its snippet is missing. *)
Definition snippetOf (sourceId : Z) (w : World) : string :=
  match findSource sourceId (eventSources (db w)) with
  | Some s => match EventSource.snippet s with Some t => t | None => "" end
  | None => ""
  end.

(** The job has work to do: the source exists, and it has no extraction
    record or the message forces a new extraction. *)
Definition due (msg : ExtractJobMessage) (w : World) : Prop :=
  findSource (source_id (payload msg)) (eventSources (db w)) <> None /\
  (forced msg = true \/ extractionsOf (source_id (payload msg)) w = []).

(** A reply the job can save: it passes the schema and its geolocation
    validation returns. *)
Definition accepted (validateEventSchema : Extraction.t -> bool) (reply : Extraction.t)
  : Prop :=
  validateEventSchema reply = true /\
  exists geo, GeoValidation.validateGeolocation reply = Return geo.

(** The capability answers the call numbered [n] with a reply the job can
    save, or it answers that call with a reply that fails the schema and the
    next call with one the job can save. *)
Definition answered (callOpenAIForExtraction : nat -> Request -> Outcome Extraction.t)
    (validateEventSchema : Extraction.t -> bool) (n : nat) : Prop :=
  (forall request,
      exists reply,
        callOpenAIForExtraction n request = Return reply /\
        accepted validateEventSchema reply) \/
  ((forall request,
       exists reply,
         callOpenAIForExtraction n request = Return reply /\
         validateEventSchema reply = false) /\
   (forall request,
       exists reply,
         callOpenAIForExtraction (S n) request = Return reply /\
         accepted validateEventSchema reply)).

(** The source of the message can be extracted in the world [w]: its row is
    there, its text is long enough, and the capability answers the calls the
    run is about to make. *)
Definition extractable (callOpenAIForExtraction : nat -> Request -> Outcome Extraction.t)
    (validateEventSchema : Extraction.t -> bool) (msg : ExtractJobMessage) (w : World)
  : Prop :=
  findSource (source_id (payload msg)) (eventSources (db w)) <> None /\
  (MIN_SOURCE_CHARS <=
   String.length (Js.trim (truncateText (snippetOf (source_id (payload msg)) w)
                             MAX_SOURCE_CHARS)))%nat /\
  answered callOpenAIForExtraction validateEventSchema (length (calls w)).

(** The same request with the strict prompt. *)
Definition strictly (r : Request) : Request :=
  mkRequest (req_source r) (req_text r) true.

(** The row carries no coordinates, or a latitude and a longitude inside the
    valid ranges. *)
Definition inRange (row : Event.t) : Prop :=
  match Event.latitude row, Event.longitude row with
  | Some lat, Some lng => (-90 <= lat /\ lat <= 90) /\ (-180 <= lng /\ lng <= 180)
  | None, None => True
  | _, _ => False
  end.

(** The example source with a text of 23 characters. *)
Definition shortWorld : World :=
  mkWorld
    (mkDb []
       [EventSource.mk 7 "https://example.org/fire" (Some "Example News") (Some "Wildfire")
          "news" None 1700000000000 (Some "en") (Some "wildfire near the park ")
          None None "pending" 1700000000000]
       [] [] 1)
    [] [].

(** The example job with a validator that refuses every reply. *)
Definition rejectingJob
  : Z -> string -> string -> ExtractJobMessage -> Job (option ExtractionResult) :=
  run (fun _ _ => Return sampleReply) (fun _ => false) (fun _ _ _ => 7 # 10) FloatColumn.

(** The example job with a capability that places the event at latitude 95. *)
Definition farReply : Extraction.t :=
  placedAt sampleReply "United States" 40 95.

Definition farJob
  : Z -> string -> string -> ExtractJobMessage -> Job (option ExtractionResult) :=
  run (fun _ _ => Return farReply) (fun _ => true) (fun _ _ _ => 7 # 10) FloatColumn.

(** The example job with a validator that refuses the title of the first
    reply, and a capability that corrects it on the second call. *)
Definition untitledReply : Extraction.t :=
  Extraction.mk "" "wildfire" None 3 (8 # 10) (9 # 10)
    (Extraction.location sampleReply)
    "A wildfire burns near the park" None None None None None (Some "Example News").

Definition secondTryJob
  : Z -> string -> string -> ExtractJobMessage -> Job (option ExtractionResult) :=
  run (fun n _ => Return (if (n =? 0)%nat then untitledReply else sampleReply))
      (fun reply => negb (String.eqb (Extraction.title reply) ""))
      (fun _ _ _ => 7 # 10) FloatColumn.

End ExtractVocabularyFurther.

(** ** For the place brief *)
Section PlaceVocabulary.
Import PlaceBrief.

(** The weighted coverage before it is rounded to two decimals. *)
Definition weightedCoverage (sourceCount eventCount : Z) : Q :=
  Qmin (inject_Z sourceCount / 50) 1 * (6 # 10) +
  Qmin (inject_Z eventCount / 20) 1 * (4 # 10).

(** The numbers of a list never go up, or always go down. *)
Fixpoint descending (l : list Z) : Prop :=
  match l with
  | [] => True
  | x :: r => match r with [] => True | y :: _ => (y <= x)%Z end /\ descending r
  end.

Fixpoint strictlyDescending (l : list Z) : Prop :=
  match l with
  | [] => True
  | x :: r => match r with [] => True | y :: _ => (y < x)%Z end /\ strictlyDescending r
  end.

(** The number of events of a type, and of a severity level. *)
Definition ofType (t : string) (events : list EventBrief) : Z :=
  Z.of_nat (length (filter (fun e => String.eqb (event_type_primary e) t) events)).

Definition ofSeverity (s : Z) (events : list EventBrief) : Z :=
  Z.of_nat (length (filter (fun e => (severity_level e =? s)%Z) events)).

(** The count kept for a key in a [Map] of counts, 0 when the key is not set. *)
Fixpoint countOf {K : Type} (eqb : K -> K -> bool) (k : K) (m : list (K * Z)) : Z :=
  match m with
  | [] => 0%Z
  | (k', n) :: r => if eqb k' k then n else countOf eqb k r
  end.

Definition total {K : Type} (m : list (K * Z)) : Z := fold_right Z.add 0%Z (map snd m).

(** Four events of three types and two severity levels. *)
Definition sampleEvents : list EventBrief :=
  [ mkEventBrief 1 "wildfire" 3; mkEventBrief 2 "oil_spill" 4;
    mkEventBrief 3 "wildfire" 4; mkEventBrief 4 "poaching" 3 ].

End PlaceVocabulary.


(** * Properties *)

(** ** Comparisons on numbers *)

Lemma Qltb_true (a b : Q) : Js.Qltb a b = true <-> a < b.
Proof.
  unfold Js.Qltb. rewrite negb_true_iff.
  split; intro H.
  - apply Qnot_le_lt. intro L. apply Qle_bool_iff in L. congruence.
  - destruct (Qle_bool b a) eqn:E; [|reflexivity].
    apply Qle_bool_iff in E. exfalso. exact (Qlt_not_le _ _ H E).
Qed.

Lemma Qltb_false (a b : Q) : Js.Qltb a b = false <-> b <= a.
Proof.
  unfold Js.Qltb. rewrite negb_false_iff. apply Qle_bool_iff.
Qed.

(** ** The geolocation validator *)
Section GeoValidationFacts.
Import Extraction GeoValidation.

Lemma outOfRangeb_spec (lng lat : Q) : outOfRangeb lng lat = true <-> outOfRange lng lat.
Proof.
  unfold outOfRangeb, outOfRange.
  rewrite !orb_true_iff, !Qltb_true. tauto.
Qed.

Lemma checkRanges_nullify (lng lat : Q) (a : Acc) :
  acc_nullify (checkRanges lng lat a) = acc_nullify a || outOfRangeb lng lat.
Proof.
  unfold checkRanges, outOfRangeb.
  destruct (Js.Qltb lat (-90)), (Js.Qltb 90 lat), (Js.Qltb lng (-180)), (Js.Qltb 180 lng);
    simpl; rewrite ?orb_true_r, ?orb_false_r; reflexivity.
Qed.

Lemma checkRanges_fix (lng lat : Q) (a : Acc) :
  outOfRangeb lng lat = true -> acc_fix (checkRanges lng lat a) = Some nullify.
Proof.
  unfold checkRanges, outOfRangeb.
  destruct (Js.Qltb lat (-90)), (Js.Qltb 90 lat), (Js.Qltb lng (-180)), (Js.Qltb 180 lng);
    simpl; intro H; try reflexivity; discriminate.
Qed.

Lemma checkRanges_fix_in_range (lng lat : Q) (a : Acc) :
  outOfRangeb lng lat = false -> checkRanges lng lat a = a.
Proof.
  unfold checkRanges, outOfRangeb.
  destruct (Js.Qltb lat (-90)), (Js.Qltb 90 lat), (Js.Qltb lng (-180)), (Js.Qltb 180 lng);
    simpl; intro H; try reflexivity; discriminate.
Qed.

(** Once the point is rejected, checks 2 to 4 leave the accumulator alone. *)
Lemma checkSwapped_rejected (lng lat : Q) (a : Acc) :
  acc_nullify a = true -> checkSwapped lng lat a = a.
Proof. intro H. unfold checkSwapped. rewrite H. reflexivity. Qed.

Lemma checkCountry_rejected (c : string) (lng lat : Q) (a : Acc) :
  acc_nullify a = true -> checkCountry c lng lat a = Return a.
Proof. intro H. unfold checkCountry. rewrite H. reflexivity. Qed.

Lemma checkOcean_rejected (e : Extraction.t) (lng lat : Q) (a : Acc) :
  acc_nullify a = true -> checkOcean e lng lat a = a.
Proof. intro H. unfold checkOcean. rewrite H. reflexivity. Qed.

Lemma checkPrecision_keeps (p : option string) (a : Acc) :
  acc_nullify (checkPrecision p a) = acc_nullify a /\
  acc_fix (checkPrecision p a) = acc_fix a.
Proof.
  unfold checkPrecision.
  destruct (Js.strictEqStr p (Some "exact") && (0 <? length (acc_issues a))%nat);
    split; reflexivity.
Qed.

Lemma checkSwapped_nullify (lng lat : Q) (a : Acc) :
  acc_nullify (checkSwapped lng lat a) = acc_nullify a.
Proof.
  unfold checkSwapped.
  destruct (negb (acc_nullify a) && Js.Qltb 90 (Qabs lat) && Qle_bool (Qabs lng) 90);
    reflexivity.
Qed.

Lemma checkCountry_nullify (c : string) (lng lat : Q) (a a' : Acc) :
  checkCountry c lng lat a = Return a' -> acc_nullify a' = acc_nullify a.
Proof.
  unfold checkCountry.
  destruct (negb (acc_nullify a) && negb (String.eqb c "")).
  - destruct (checkCountryCoordinateMatch c lng lat) as [cc|]; [|discriminate].
    destruct (negb (matches cc)); intro H; inversion H; reflexivity.
  - intro H; inversion H; reflexivity.
Qed.

Lemma checkOcean_nullify (e : Extraction.t) (lng lat : Q) (a : Acc) :
  acc_nullify (checkOcean e lng lat a) = acc_nullify a.
Proof.
  unfold checkOcean.
  destruct (negb (acc_nullify a)); [|reflexivity].
  destruct (checkIfLikelyOcean lng lat && negb (isMarineEventExpected e)); reflexivity.
Qed.

(** The result for a rejected point. *)
Lemma rejected_result (e : Extraction.t) (g : Geometry) (lng lat : Q) :
  geometry (location e) = Some g ->
  coordinates g = Some (lng, lat) ->
  outOfRange lng lat ->
  exists r,
    validateGeolocation e = Return r /\
    adjustedConfidence r = 0 /\
    shouldNullifyCoords r = true /\
    suggestedFix r = Some nullify /\
    valid r = false.
Proof.
  intros Hg Hc Hout.
  apply outOfRangeb_spec in Hout.
  unfold validateGeolocation. rewrite Hg, Hc.
  set (a0 := mkAcc [] 1 false None).
  assert (N1 : acc_nullify (checkRanges lng lat a0) = true)
    by (rewrite checkRanges_nullify, Hout; reflexivity).
  assert (F1 : acc_fix (checkRanges lng lat a0) = Some nullify)
    by (apply checkRanges_fix; exact Hout).
  assert (I1 : acc_issues (checkRanges lng lat a0) <> []).
  { unfold checkRanges, outOfRangeb in *.
    destruct (Js.Qltb lat (-90)), (Js.Qltb 90 lat), (Js.Qltb lng (-180)), (Js.Qltb 180 lng);
      simpl in *; try discriminate. }
  rewrite (checkSwapped_rejected _ _ _ N1).
  rewrite (checkCountry_rejected _ _ _ _ N1).
  rewrite (checkOcean_rejected _ _ _ _ N1).
  destruct (checkPrecision_keeps (precision g) (checkRanges lng lat a0)) as [N2 F2].
  eexists. split; [reflexivity|]. simpl.
  unfold finalConfidence. rewrite N2, N1, F2, F1.
  repeat split.
  apply Nat.eqb_neq.
  unfold checkPrecision.
  destruct (Js.strictEqStr (precision g) (Some "exact") &&
            (0 <? length (acc_issues (checkRanges lng lat a0)))%nat); simpl.
  - rewrite length_app. simpl. lia.
  - destruct (acc_issues (checkRanges lng lat a0)); [congruence | simpl; lia].
Qed.

(** Every returned result either rejects the point or keeps the confidence at
    [0.1] or more. *)
Lemma returned_result (e : Extraction.t) (r : GeoValidationResult) :
  validateGeolocation e = Return r ->
  (shouldNullifyCoords r = true /\ adjustedConfidence r = 0) \/
  (shouldNullifyCoords r = false /\ 1 # 10 <= adjustedConfidence r).
Proof.
  unfold validateGeolocation.
  destruct (geometry (location e)) as [g|].
  2:{ intro H; inversion H; subst; simpl. right. split; [reflexivity | lra]. }
  destruct (coordinates g) as [[lng lat]|].
  2:{ intro H; inversion H; subst; simpl. right. split; [reflexivity | lra]. }
  destruct (checkCountry _ lng lat _) as [a|]; [|discriminate].
  intro H; inversion H; subst; clear H; simpl.
  unfold finalConfidence.
  destruct (acc_nullify (checkPrecision _ _)).
  - left. split; reflexivity.
  - right. split; [reflexivity | apply Q.le_max_l].
Qed.

(** The rejection flag is the range test. *)
Lemma nullify_iff_out_of_range (e : Extraction.t) (g : Geometry) (lng lat : Q)
    (r : GeoValidationResult) :
  geometry (location e) = Some g ->
  coordinates g = Some (lng, lat) ->
  validateGeolocation e = Return r ->
  shouldNullifyCoords r = outOfRangeb lng lat.
Proof.
  intros Hg Hc. unfold validateGeolocation. rewrite Hg, Hc.
  destruct (checkCountry _ lng lat _) as [a|] eqn:E; [|discriminate].
  intro H; inversion H; subst; clear H; simpl.
  destruct (checkPrecision_keeps (precision g) (checkOcean e lng lat a)) as [N _].
  rewrite N, checkOcean_nullify, (checkCountry_nullify _ _ _ _ E),
    checkSwapped_nullify, checkRanges_nullify.
  reflexivity.
Qed.

(** The validator returns unless the country, lower-cased and trimmed, names
    a member inherited by the table of bounds. *)
Lemma validateGeolocation_returns (e : Extraction.t) :
  lookupBounds (Js.trim (Js.toLowerCase (country (admin (location e))))) <> Inherited ->
  exists r, validateGeolocation e = Return r.
Proof.
  intro H. unfold validateGeolocation.
  destruct (geometry (location e)) as [g|]; [|eexists; reflexivity].
  destruct (coordinates g) as [[lng lat]|]; [|eexists; reflexivity].
  unfold checkCountry at 1.
  destruct (negb _ && negb _); [|eexists; reflexivity].
  unfold checkCountryCoordinateMatch.
  destruct (lookupBounds _) as [[[[x1 y1] x2] y2]| |]; [| congruence |].
  - destruct (_ && _ && _ && _); simpl; eexists; reflexivity.
  - simpl. eexists; reflexivity.
Qed.

End GeoValidationFacts.

(** ** Claims on the geolocation validator *)
Section GeoValidationClaims.
Import Extraction GeoValidation.

(** When no range is violated the swap test cannot fire: it asks for a
    latitude beyond 90 in absolute value. *)
Lemma checkSwapped_never_fires (lng lat : Q) (a : Acc) :
  checkSwapped lng lat (checkRanges lng lat a) = checkRanges lng lat a.
Proof.
  destruct (acc_nullify (checkRanges lng lat a)) eqn:N.
  - apply checkSwapped_rejected; exact N.
  - rewrite checkRanges_nullify in N. apply orb_false_iff in N as [_ N].
    unfold checkSwapped.
    replace (Js.Qltb 90 (Qabs lat)) with false;
      [rewrite andb_false_r; reflexivity|].
    symmetry. apply Qltb_false. apply Qabs_Qle_condition.
    unfold outOfRangeb in N.
    rewrite !orb_false_iff, !Qltb_false in N. lra.
Qed.

Lemma noSwap_snoc (a : Acc) (i : Issue) (c : Q) (n : bool) (f : option FixAction) :
  noSwap a -> (forall x y, i <> MaybeSwapped x y) -> f <> Some swap ->
  noSwap (mkAcc (acc_issues a ++ [i]) c n f).
Proof.
  intros [Hf Hi] Hne Hf'. split; simpl; [exact Hf'|].
  intros x y Hin. apply in_app_or in Hin as [Hin | [Hin | []]].
  - exact (Hi x y Hin).
  - exact (Hne x y Hin).
Qed.

Lemma checkRanges_noSwap (lng lat : Q) (a : Acc) :
  noSwap a -> noSwap (checkRanges lng lat a).
Proof.
  intro H. unfold checkRanges.
  destruct (Js.Qltb lat (-90) || Js.Qltb 90 lat), (Js.Qltb lng (-180) || Js.Qltb 180 lng);
    repeat (apply noSwap_snoc; try discriminate); exact H.
Qed.

Lemma checkCountry_noSwap (c : string) (lng lat : Q) (a a' : Acc) :
  noSwap a -> checkCountry c lng lat a = Return a' -> noSwap a'.
Proof.
  intro H. unfold checkCountry.
  destruct (negb (acc_nullify a) && negb (String.eqb c "")).
  - destruct (checkCountryCoordinateMatch c lng lat) as [cc|]; [|discriminate].
    destruct (negb (matches cc)); intro E; inversion E; subst; [|exact H].
    apply noSwap_snoc; try discriminate; [exact H|].
    destruct (severeMismatch cc); [discriminate | apply H].
  - intro E; inversion E; subst; exact H.
Qed.

Lemma checkOcean_noSwap (e : Extraction.t) (lng lat : Q) (a : Acc) :
  noSwap a -> noSwap (checkOcean e lng lat a).
Proof.
  intro H. unfold checkOcean.
  destruct (negb (acc_nullify a)); [|exact H].
  destruct (checkIfLikelyOcean lng lat && negb (isMarineEventExpected e)); [|exact H].
  apply noSwap_snoc; try discriminate; [exact H | apply H].
Qed.

Lemma checkPrecision_noSwap (p : option string) (a : Acc) :
  noSwap a -> noSwap (checkPrecision p a).
Proof.
  intro H. unfold checkPrecision.
  destruct (Js.strictEqStr p (Some "exact") && (0 <? length (acc_issues a))%nat); [|exact H].
  apply noSwap_snoc; try discriminate; [exact H | apply H].
Qed.

Lemma never_swap (e : Extraction.t) (r : GeoValidationResult) :
  validateGeolocation e = Return r ->
  suggestedFix r <> Some swap /\ forall x y, ~ In (MaybeSwapped x y) (issues r).
Proof.
  unfold validateGeolocation.
  destruct (geometry (location e)) as [g|].
  2:{ intro H; inversion H; subst; simpl. split; [discriminate | tauto]. }
  destruct (coordinates g) as [[lng lat]|].
  2:{ intro H; inversion H; subst; simpl. split; [discriminate | tauto]. }
  rewrite checkSwapped_never_fires.
  destruct (checkCountry _ lng lat _) as [a|] eqn:E; [|discriminate].
  intro H; inversion H; subst; clear H; simpl.
  apply checkPrecision_noSwap, checkOcean_noSwap.
  refine (@checkCountry_noSwap _ _ _ _ _ _ E).
  apply checkRanges_noSwap. split; simpl; [discriminate | tauto].
Qed.

(** C5 does not hold as stated: at latitude 95 and longitude 40 (so
    |latitude| > 90 and |longitude| <= 90) the validator does not flag a swap
    with a positive confidence; it rejects the point, with confidence 0 and
    the fix [nullify]. *)
Lemma C5_counterexample_lat95_lng40 :
  validateGeolocation lat95lng40 =
  Return (mkResult false [InvalidLatitude 95] 0 true (Some nullify)).
Proof. vm_compute. reflexivity. Qed.

(** C5, amended: every coordinate pair whose latitude exceeds 90 in absolute
    value, whatever the longitude, is rejected (confidence exactly 0,
    coordinates to be cleared, suggested fix [nullify]); no input at all makes
    the validator suggest a swap or record a swap issue. *)
Theorem C5_latitude_beyond_90_rejected_never_swapped (e : Extraction.t) :
  (forall g lng lat,
      geometry (location e) = Some g -> coordinates g = Some (lng, lat) ->
      90 < Qabs lat ->
      exists r, validateGeolocation e = Return r /\
                adjustedConfidence r = 0 /\ shouldNullifyCoords r = true /\
                suggestedFix r = Some nullify) /\
  (forall r, validateGeolocation e = Return r ->
             suggestedFix r <> Some swap /\
             forall x y, ~ In (MaybeSwapped x y) (issues r)).
Proof.
  split.
  - intros g lng lat Hg Hc Habs.
    assert (Hout : outOfRange lng lat).
    { unfold outOfRange.
      destruct (Qlt_le_dec 90 lat) as [L|L]; [tauto|].
      destruct (Qlt_le_dec lat (-90)) as [L'|L']; [tauto|].
      exfalso. apply (Qlt_not_le _ _ Habs). apply Qabs_Qle_condition. lra. }
    destruct (rejected_result e Hg Hc Hout) as (r & Hr & Hconf & Hn & Hf & _).
    exists r. tauto.
  - intros r Hr. exact (never_swap e Hr).
Qed.

(** The first part of C5, amended, at latitude 95 and longitude 40. *)
Lemma C5_witness_lat95_lng40 :
  exists r, validateGeolocation lat95lng40 = Return r /\
            adjustedConfidence r = 0 /\ shouldNullifyCoords r = true /\
            suggestedFix r = Some nullify.
Proof.
  apply (proj1 (C5_latitude_beyond_90_rejected_never_swapped lat95lng40)
           (mkGeometry "Point" (Some (40, 95)) None) 40 95).
  - reflexivity.
  - reflexivity.
  - vm_compute. reflexivity.
Defined.

(** C6: a coordinate pair outside the latitude range [-90, 90] or the
    longitude range [-180, 180] is rejected: the validator returns, the
    adjusted confidence is exactly 0 and the coordinates are to be cleared;
    and a returned result that does not reject the point (the pair is in
    range, or there are no coordinates) has an adjusted confidence of at least
    0.1, hence above zero, whatever issues were found. *)
Theorem C6_out_of_range_rejected_else_floored (e : Extraction.t) :
  (rejected e ->
   exists r, validateGeolocation e = Return r /\
             adjustedConfidence r = 0 /\ shouldNullifyCoords r = true) /\
  (forall r, validateGeolocation e = Return r ->
             ~ rejected e ->
             shouldNullifyCoords r = false /\
             1 # 10 <= adjustedConfidence r /\ 0 < adjustedConfidence r).
Proof.
  split.
  - intros (g & lng & lat & Hg & Hc & Hout).
    destruct (rejected_result e Hg Hc Hout) as (r & Hr & Hconf & Hn & _).
    exists r. tauto.
  - intros r Hr Hnot.
    assert (N : shouldNullifyCoords r = false).
    { destruct (geometry (location e)) as [g|] eqn:Hg.
      2:{ unfold validateGeolocation in Hr. rewrite Hg in Hr.
          inversion Hr; reflexivity. }
      destruct (coordinates g) as [[lng lat]|] eqn:Hc.
      2:{ unfold validateGeolocation in Hr. rewrite Hg, Hc in Hr.
          inversion Hr; reflexivity. }
      rewrite (nullify_iff_out_of_range e Hg Hc Hr).
      destruct (outOfRangeb lng lat) eqn:O; [|reflexivity].
      exfalso. apply Hnot. exists g, lng, lat.
      apply outOfRangeb_spec in O. tauto. }
    destruct (returned_result e Hr) as [[N' _] | [_ Hc]]; [congruence|].
    split; [exact N|]. split; [exact Hc | lra].
Qed.

(** The first part of C6 at latitude 95 and longitude 40. *)
Lemma C6_witness_lat95_lng40 :
  exists r, validateGeolocation lat95lng40 = Return r /\
            adjustedConfidence r = 0 /\ shouldNullifyCoords r = true.
Proof.
  apply (proj1 (C6_out_of_range_rejected_else_floored lat95lng40)).
  exists (mkGeometry "Point" (Some (40, 95)) None), 40, 95.
  split; [reflexivity|]. split; [reflexivity|].
  unfold outOfRange. right. left. reflexivity.
Defined.

(** The second example of the specification: latitude 40, longitude 95 in
    the United States is kept, flagged as far outside the country. *)
Example lat40_lng95_united_states :
  validateGeolocation (pointExtraction 95 40 "United States") =
  Return (mkResult false [OutsideCountry "United States" 95 40] (4 # 10) false
            (Some use_centroid)).
Proof. vm_compute. reflexivity. Qed.

End GeoValidationClaims.

(** ** Claims on the consumer loop *)
Section ConsumerClaims.
Import QueueMessages SqsService Consumer.

Lemma backoffBase_succ (cfg : Config) (n : Z) :
  (1 <= n)%Z -> backoffBase cfg (n + 1) == 2 * backoffBase cfg n.
Proof.
  intro Hn. unfold backoffBase.
  replace (Z.max 0 (n + 1 - 1)) with (Z.succ (Z.max 0 (n - 1))) by lia.
  rewrite Z.pow_succ_r by lia.
  rewrite inject_Z_mult. ring.
Qed.

Lemma backoffBase_nonneg (cfg : Config) (n : Z) :
  0 <= BASE_RETRY_DELAY_SECONDS cfg -> 0 <= backoffBase cfg n.
Proof.
  intro Hb. unfold backoffBase.
  apply Qmult_le_0_compat; [exact Hb|].
  change 0 with (inject_Z 0). rewrite <- Zle_Qle.
  apply Z.pow_nonneg. lia.
Qed.

(** C7 does not hold as stated: with the default base delay of 30 seconds and
    a jitter draw of 0, the un-jittered base of attempt 5 is 480 seconds and
    its double is 960, yet the delay computed for attempt 6 is the cap, 900. *)
Lemma C7_counterexample_attempt_5 :
  backoffBase defaults 5 == 480 /\
  computeBackoffSeconds defaults 0 (5 + 1) == 900 /\
  computeBackoffSeconds defaults 0 (5 + 1) < 2 * backoffBase defaults 5.
Proof. vm_compute. repeat split; reflexivity. Qed.

(** C7, amended: for every attempt n >= 1, every jitter draw (a number >= 0)
    and every base delay >= 0, the delay computed for attempt n+1 is at least
    the smaller of the doubled un-jittered base of attempt n and the cap of
    900 seconds (so at least the doubled base whenever that is within the
    cap); and the computed delay never exceeds 900 seconds, whatever the
    attempt. *)
Theorem C7_backoff_doubles_up_to_cap (cfg : Config) (random : Q) (n : Z) :
  0 <= BASE_RETRY_DELAY_SECONDS cfg -> 0 <= random -> (1 <= n)%Z ->
  Qmin (2 * backoffBase cfg n) 900 <= computeBackoffSeconds cfg random (n + 1) /\
  (2 * backoffBase cfg n <= 900 ->
   2 * backoffBase cfg n <= computeBackoffSeconds cfg random (n + 1)) /\
  (forall attempt r, computeBackoffSeconds cfg r attempt <= 900).
Proof.
  intros Hb Hr Hn.
  assert (Hcap : forall attempt r, computeBackoffSeconds cfg r attempt <= 900).
  { intros attempt r. unfold computeBackoffSeconds.
    change (15 * 60) with 900. apply Q.le_min_r. }
  assert (Hlow : Qmin (2 * backoffBase cfg n) 900 <=
                 computeBackoffSeconds cfg random (n + 1)).
  { unfold computeBackoffSeconds. change (15 * 60) with 900.
    pose proof (backoffBase_succ cfg Hn) as Hs.
    pose proof (backoffBase_nonneg cfg (n + 1) Hb) as Hp.
    apply Q.min_le_compat_r.
    rewrite <- Hs.
    assert (0 <= random * (2 # 10) * backoffBase cfg (n + 1)).
    { apply Qmult_le_0_compat; [|exact Hp].
      apply Qmult_le_0_compat; [exact Hr | lra]. }
    lra. }
  split; [exact Hlow|]. split; [|exact Hcap].
  intro Hsmall.
  apply Qle_trans with (2 := Hlow). apply Q.min_glb; [lra | exact Hsmall].
Qed.

(** C7, amended, at attempt 2 with the default settings and a draw of 1/2. *)
Lemma C7_witness_attempt_2 :
  Qmin (2 * backoffBase defaults 2) 900 <= computeBackoffSeconds defaults (1 # 2) (2 + 1) /\
  (2 * backoffBase defaults 2 <= 900 ->
   2 * backoffBase defaults 2 <= computeBackoffSeconds defaults (1 # 2) (2 + 1)) /\
  (forall attempt r, computeBackoffSeconds defaults r attempt <= 900).
Proof.
  apply (C7_backoff_doubles_up_to_cap defaults (random := 1 # 2) (n := 2)).
  - vm_compute. discriminate.
  - vm_compute. discriminate.
  - lia.
Defined.

End ConsumerClaims.

(** ** Poison messages *)
Section PoisonClaims.
Import QueueMessages SqsService Consumer.

Variable JSON_parse : string -> option Json.
Variable World : Type.
Variable cfg : Config.
Variable runExtractJob : JobMessage -> World -> World * Outcome unit.


(** A value that passes the guard can be read as an envelope. *)
Lemma guarded_is_envelope (x : Json) :
  isJobMessage x = true -> exists m, asJobMessage x = Some m.
Proof.
  destruct x as [| | | | |msg]; try discriminate.
  unfold isJobMessage, asJobMessage.
  destruct (get "version" msg) as [[| | |v| |]|]; try discriminate.
  destruct (get "job_type" msg) as [[| | |t| |]|];
    try (rewrite andb_false_r; discriminate).
  destruct (get "job_id" msg) as [[| | |j| |]|];
    try (simpl; rewrite ?andb_false_r; discriminate).
  destruct (get "correlation_id" msg) as [[| | |c| |]|];
    try (simpl; rewrite ?andb_false_r; discriminate).
  destruct (get "enqueued_at" msg) as [[| | |e| |]|];
    try (simpl; rewrite ?andb_false_r; discriminate).
  destruct (get "payload" msg) as [p|];
    try (simpl; rewrite ?andb_false_r; discriminate).
  intro H. repeat (apply andb_prop in H as [H ?]).
  assert (T : exists ty, jobTypeOfName t = Some ty).
  { match goal with K : Js.includes JOB_TYPES t = true |- _ =>
      unfold Js.includes, JOB_TYPES in K; cbn [existsb] in K;
      unfold jobTypeOfName; cbn [find jobTypeName];
      rewrite !(String.eqb_sym t) in K
    end.
    repeat match goal with
           | |- context [String.eqb ?a t] =>
               destruct (String.eqb a t); cbn [orb] in *
           end; try discriminate; eexists; reflexivity. }
  destruct T as [ty ->]. eexists; reflexivity.
Qed.



End PoisonClaims.


(** A batch of three: a body that parses to [null], a well-formed envelope,
    and a body that does not parse.  The handler runs once, on the envelope;
    each message is deleted and none is made visible again. *)
Example batch_with_poison_messages :
  let st :=
    Consumer.pollQueue Consumer.defaults (fun _ (w : nat) => (S w, Return tt)) sampleParse
      [0; 0; 0] "q_extract"
      [ SqsService.mkMessage (Some "rh-1") (Some "null") None (Some 1%Z);
        SqsService.mkMessage (Some "rh-2") (Some "<extract envelope>") None (Some 1%Z);
        SqsService.mkMessage (Some "rh-3") (Some "{ not json") None (Some 3%Z) ]
      (Consumer.mkState 0%nat [] [] false) in
  Consumer.world st = 1%nat /\
  map QueueMessages.job_id (Consumer.invoked st) = ["job_1"] /\
  Consumer.sent st =
    [ SqsService.DeleteMessage "q_extract" "rh-1";
      SqsService.DeleteMessage "q_extract" "rh-2";
      SqsService.DeleteMessage "q_extract" "rh-3" ].
Proof. vm_compute. repeat split; reflexivity. Qed.

(** The other paths of [handleMessage], on an [EXTRACT] envelope: a handler
    that returns has its message deleted; one that throws a timeout has the
    message made visible again after the backoff delay; one that throws a
    validation error has it deleted. *)
Example handled_paths :
  let msg := QueueMessages.mkJobMessage QueueMessages.EXTRACT "job_1" "corr_1" "" None
               (QueueMessages.JObject []) in
  let st := Consumer.mkState tt [] [] false in
  let run (o : Outcome unit) :=
    Consumer.sent
      (Consumer.handleMessage Consumer.defaults (fun _ w => (w, o)) 0
         "q_extract" "rh-1" "" (Some msg) (Some 1%Z) st) in
  run (Return tt) = [SqsService.DeleteMessage "q_extract" "rh-1"] /\
  match run (Throw (error "Connection timed out")) with
  | [SqsService.ChangeMessageVisibility "q_extract" "rh-1" delay] => delay == 30
  | _ => False
  end /\
  run (Throw (error "Validation failed")) = [SqsService.DeleteMessage "q_extract" "rh-1"].
Proof. vm_compute. repeat split; reflexivity. Qed.

(** ** The similarity score *)
Section SimilarityFacts.
Import EventCluster.

Lemma size_nonneg (s : list string) : 0 <= size s.
Proof.
  unfold size. change 0 with (inject_Z 0). rewrite <- Zle_Qle. lia.
Qed.

Lemma size_le (s t : list string) : (length s <= length t)%nat -> size s <= size t.
Proof. intro H. unfold size. rewrite <- Zle_Qle. lia. Qed.

Lemma size_pos (s : list string) : s <> [] -> 0 < size s.
Proof.
  intro H. unfold size. change 0 with (inject_Z 0). rewrite <- Zlt_Qlt.
  destruct s; [congruence | simpl; lia].
Qed.

(** The Jaccard index is a proportion. *)
Lemma calculateTextSimilarity_bounds (text1 text2 : string) :
  0 <= calculateTextSimilarity text1 text2 <= 1.
Proof.
  unfold calculateTextSimilarity.
  set (words1 := Js.mkSet (tokenize text1)).
  set (words2 := Js.mkSet (tokenize text2)).
  destruct ((length words1 =? 0)%nat && (length words2 =? 0)%nat); [lra|].
  destruct (length words1 =? 0)%nat eqn:E1; [simpl; lra|].
  destruct (length words2 =? 0)%nat eqn:E2; [simpl; lra|].
  cbn [orb].
  set (inter := Js.mkSet (filter (Js.includes words2) words1)).
  set (union := Js.mkSet (words1 ++ words2)).
  assert (Hne : union <> []).
  { intro U. destruct words1 as [|w ws] eqn:W; [discriminate|].
    assert (In w union) by (apply nodup_In, in_or_app; left; left; reflexivity).
    rewrite U in *. contradiction. }
  assert (Hle : (length inter <= length union)%nat).
  { apply NoDup_incl_length; [apply NoDup_nodup|].
    intros w Hw. apply nodup_In in Hw. apply filter_In in Hw as [Hw _].
    apply nodup_In, in_or_app. left; exact Hw. }
  pose proof (size_pos Hne) as Hpos.
  pose proof (size_le _ _ Hle) as Hsz.
  pose proof (size_nonneg inter) as Hi.
  split.
  - apply Qle_shift_div_l; [exact Hpos | lra].
  - apply Qle_shift_div_r; [exact Hpos | lra].
Qed.

Variable M : MathLib.

(** The two accumulators after the five steps: the score is the sum of the
    components, the weights always add up to 1. *)
Lemma scoreAndWeights_sum (e1 e2 : EventForClustering) :
  fst (scoreAndWeights M e1 e2) ==
    typeComponent e1 e2 + geoComponent M e1 e2 + titleComponent e1 e2 +
    summaryComponent e1 e2 + temporalComponent e1 e2 /\
  snd (scoreAndWeights M e1 e2) == 1.
Proof.
  unfold scoreAndWeights, temporalStep, summaryStep, titleStep, geoStep, typeStep.
  unfold typeComponent, geoComponent, titleComponent, summaryComponent,
    temporalComponent, hasCoordinates, sharedAdmin1, closeness, proximity,
    distanceBetween.
  destruct (String.eqb (eventTypePrimary e1) (eventTypePrimary e2)).
  all: destruct (Js.truthyNum (latitude e1)), (Js.truthyNum (longitude e1)),
         (Js.truthyNum (latitude e2)), (Js.truthyNum (longitude e2));
       cbn [andb].
  all: try destruct (Js.truthyStr (admin1 e1) && Js.truthyStr (admin1 e2) &&
                     Js.strictEqStr (admin1 e1) (admin1 e2)).
  all: destruct (startDate e1), (startDate e2); cbn [fst snd].
  all: split; ring.
Qed.

Lemma calculateSimilarity_sum (e1 e2 : EventForClustering) :
  calculateSimilarity M e1 e2 ==
    typeComponent e1 e2 + geoComponent M e1 e2 + titleComponent e1 e2 +
    summaryComponent e1 e2 + temporalComponent e1 e2.
Proof.
  destruct (scoreAndWeights_sum e1 e2) as [Hs Hw].
  unfold calculateSimilarity.
  destruct (scoreAndWeights M e1 e2) as [score weights]. cbn [fst snd] in *.
  assert (T : Js.Qltb 0 weights = true) by (apply Qltb_true; lra).
  rewrite T, Hw, Hs. field.
Qed.

Hypothesis sqrt_nonneg : forall x, 0 <= sqrt M x.
Hypothesis atan2_nonneg : forall y x, 0 <= y -> 0 <= atan2 M y x.

Lemma calculateDistanceKm_nonneg (lat1 lon1 lat2 lon2 : Q) :
  0 <= calculateDistanceKm M lat1 lon1 lat2 lon2.
Proof.
  unfold calculateDistanceKm.
  apply Qmult_le_0_compat; [lra|].
  apply Qmult_le_0_compat; [lra|].
  apply atan2_nonneg, sqrt_nonneg.
Qed.

Lemma closeness_bounds (e1 e2 : EventForClustering) : 0 <= closeness M e1 e2 <= 1.
Proof.
  unfold closeness. split; [apply Q.le_max_l|].
  apply Q.max_lub; [lra|].
  assert (0 <= distanceBetween M e1 e2 / MAX_DISTANCE_KM).
  { apply Qle_shift_div_l; [reflexivity|].
    pose proof (calculateDistanceKm_nonneg
                  (Js.toNumber (latitude e1)) (Js.toNumber (longitude e1))
                  (Js.toNumber (latitude e2)) (Js.toNumber (longitude e2))).
    unfold distanceBetween. lra. }
  lra.
Qed.

Lemma proximity_bounds (t1 t2 : Z) : 0 <= proximity t1 t2 <= 1.
Proof.
  unfold proximity. split; [apply Q.le_max_l|].
  apply Q.max_lub; [lra|].
  pose proof (Qabs_nonneg (inject_Z (t1 - t2) / inject_Z (1000 * 60 * 60 * 24))).
  assert (0 <= Qabs (inject_Z (t1 - t2) / inject_Z (1000 * 60 * 60 * 24)) / 7)
    by (apply Qle_shift_div_l; [reflexivity | lra]).
  lra.
Qed.

Lemma calculateSimilarity_bounds (e1 e2 : EventForClustering) :
  0 <= calculateSimilarity M e1 e2 <= 1.
Proof.
  rewrite calculateSimilarity_sum.
  pose proof (calculateTextSimilarity_bounds (title e1) (title e2)) as Ht.
  pose proof (calculateTextSimilarity_bounds (summaryShort e1) (summaryShort e2)) as Hs.
  pose proof (closeness_bounds e1 e2) as Hc.
  assert (Hty : 0 <= typeComponent e1 e2 <= 2 # 10)
    by (unfold typeComponent; destruct (String.eqb _ _); lra).
  assert (Hg : 0 <= geoComponent M e1 e2 <= 3 # 10).
  { unfold geoComponent.
    destruct (hasCoordinates e1 && hasCoordinates e2); [lra|].
    destruct (sharedAdmin1 e1 e2); lra. }
  assert (Htm : 0 <= temporalComponent e1 e2 <= 1 # 10).
  { unfold temporalComponent.
    destruct (startDate e1) as [t1|]; [|lra].
    destruct (startDate e2) as [t2|]; [|lra].
    pose proof (proximity_bounds t1 t2). lra. }
  unfold titleComponent, summaryComponent. lra.
Qed.

End SimilarityFacts.

Lemma approxMath_sqrt_nonneg (x : Q) : 0 <= sqrt approxMath x.
Proof.
  cbn [sqrt approxMath]. unfold sqrtApprox.
  apply Qle_shift_div_l; [reflexivity|].
  rewrite Qmult_0_l. change 0 with (inject_Z 0). rewrite <- Zle_Qle.
  apply Z.sqrt_nonneg.
Qed.

Lemma approxMath_atan2_nonneg (y x : Q) : 0 <= y -> 0 <= atan2 approxMath y x.
Proof.
  intro Hy. cbn [atan2 approxMath]. unfold atan2Approx.
  apply Qle_bool_iff in Hy. rewrite Hy. apply Qle_bool_iff in Hy.
  destruct (Js.Qltb 0 x) eqn:Hx; cbn [andb]; [|discriminate].
  destruct (Qle_bool y x); [|discriminate].
  apply Qltb_true in Hx.
  assert (Ht : 0 <= y / x) by (apply Qle_shift_div_l; [exact Hx | lra]).
  apply Qle_shift_div_l; [|lra].
  assert (0 <= (28 # 100) * (y / x) * (y / x)).
  { apply Qmult_le_0_compat; [|exact Ht].
    apply Qmult_le_0_compat; [lra | exact Ht]. }
  lra.
Qed.

(** The tokens of a title, and the Jaccard index of two titles that share
    two of five distinct tokens. *)
Example jaccard_of_two_titles :
  EventCluster.tokenize "Wildfire spreads near Yosemite: the crews' 2nd day!" =
    ["wildfire"; "spreads"; "near"; "yosemite"; "crews"; "2nd"; "day"] /\
  EventCluster.calculateTextSimilarity "Wildfire spreads near Yosemite"
    "The Yosemite wildfire grows" == 2 # 5.
Proof. vm_compute. split; reflexivity. Qed.

(** ** Claims on the similarity score *)
Section SimilarityClaims.
Import EventCluster.

(** C2 does not hold as stated: for two events without coordinates and
    without a subdivision the geographic component is missing, yet its weight
    stays in the denominator.  The code returns 0.7 (0.2 + 0.25 + 0.15 + 0.1
    over 1), while the average of the available components is 1 (the same sum
    over 0.7). *)
Lemma C2_counterexample_missing_geography :
  calculateSimilarity approxMath reportA reportB == 7 # 10 /\
  availableAverage approxMath reportA reportB == 1.
Proof. vm_compute. split; reflexivity. Qed.

(** C2, amended: a component whose inputs are missing (no coordinates and no
    shared subdivision; a missing start date) adds nothing to the numerator
    but keeps its weight in the denominator: the weights always add up to 1,
    the returned score is the sum of the weighted components with a missing
    one counted as 0, and it lies in [0, 1]. *)
Theorem C2_similarity_over_full_weight (M : MathLib) (e1 e2 : EventForClustering) :
  (forall x, 0 <= sqrt M x) ->
  (forall y x, 0 <= y -> 0 <= atan2 M y x) ->
  snd (scoreAndWeights M e1 e2) == 1 /\
  calculateSimilarity M e1 e2 ==
    typeComponent e1 e2 + geoComponent M e1 e2 + titleComponent e1 e2 +
    summaryComponent e1 e2 + temporalComponent e1 e2 /\
  0 <= calculateSimilarity M e1 e2 <= 1.
Proof.
  intros Hsqrt Hatan.
  split; [apply scoreAndWeights_sum|].
  split; [apply calculateSimilarity_sum|].
  apply calculateSimilarity_bounds; assumption.
Qed.

(** C2, amended, on the two reports, with the stand-in for [Math]. *)
Lemma C2_witness_two_reports :
  snd (scoreAndWeights approxMath reportA reportB) == 1 /\
  calculateSimilarity approxMath reportA reportB ==
    typeComponent reportA reportB + geoComponent approxMath reportA reportB +
    titleComponent reportA reportB + summaryComponent reportA reportB +
    temporalComponent reportA reportB /\
  0 <= calculateSimilarity approxMath reportA reportB <= 1.
Proof.
  apply (C2_similarity_over_full_weight approxMath reportA reportB).
  - exact approxMath_sqrt_nonneg.
  - exact approxMath_atan2_nonneg.
Defined.

End SimilarityClaims.

(** ** The store under the merge transaction *)
Section MergeFacts.
Import Store EventCluster.

Lemma at_id (i : Z) (f : Event.t -> Event.t) (e : Event.t) :
  (forall x, Event.id (f x) = Event.id x) -> Event.id (at_ i f e) = Event.id e.
Proof. intro H. unfold at_. destruct (Event.id e =? i)%Z; [apply H | reflexivity]. Qed.

Lemma findEvent_map (i : Z) (g : Event.t -> Event.t) (es : list Event.t) :
  (forall x, Event.id (g x) = Event.id x) ->
  findEvent i (map g es) = option_map g (findEvent i es).
Proof.
  intro H. unfold findEvent.
  induction es as [|e es IH]; [reflexivity|].
  simpl. rewrite H. destruct (Event.id e =? i)%Z; [reflexivity | exact IH].
Qed.

Lemma findEvent_id (i : Z) (es : list Event.t) (e : Event.t) :
  findEvent i es = Some e -> Event.id e = i /\ In e es.
Proof.
  unfold findEvent. intro H. apply find_some in H as [Hin Hid].
  split; [lia | exact Hin].
Qed.

Lemma updateEvent_some (i : Z) (f : Event.t -> Event.t) (es es' : list Event.t) :
  updateEvent i f es = Some es' ->
  es' = map (at_ i f) es /\ exists e, findEvent i es = Some e.
Proof.
  unfold updateEvent. destruct (findEvent i es) as [e|]; [|discriminate].
  intro H; inversion H. split; [reflexivity | exists e; reflexivity].
Qed.

Lemma absorb_id (ex nw : EventForClustering) (c : Q) (n now : Z) (e : Event.t) :
  Event.id (absorb ex nw c n now e) = Event.id e.
Proof. reflexivity. Qed.

Lemma markMerged_id (into : Z) (e : Event.t) :
  Event.id (markMerged into e) = Event.id e.
Proof. reflexivity. Qed.

(** What a completed merge leaves in the store and returns. *)
Lemma mergeEvents_returns (now : Z) (existing newEvent : EventForClustering)
    (db db' : Db) (r : ClusterResult.t) :
  mergeEvents now existing newEvent db = (db', Return r) ->
  events db' =
    map (at_ (id newEvent) (markMerged (id existing)))
      (map (at_ (id existing)
              (absorb existing newEvent (boosted existing newEvent)
                 (sourceCount existing + sourceCount newEvent) now))
         (events db)) /\
  eventSources db' = transferSources (id newEvent) (id existing) (eventSources db) /\
  sourceExtractions db' = sourceExtractions db /\
  eventMerges db' =
    eventMerges db ++ [EventMerge.mk (id existing) (id newEvent) 0 now] /\
  r = ClusterResult.mk merged (id existing) [id newEvent]
        (inject_Z (sourceCount newEvent) * SOURCE_CONFIDENCE_BOOST)
        (sourceCount existing + sourceCount newEvent) /\
  exists row, findEvent (id existing) (events db) = Some row.
Proof.
  unfold mergeEvents.
  destruct (updateEvent (id existing) _ (events db)) as [es1|] eqn:U1;
    [|intro H; inversion H].
  destruct (updateEvent (id newEvent) _ es1) as [es2|] eqn:U2;
    [|intro H; inversion H].
  intro H; inversion H; subst; clear H. cbn [events eventSources sourceExtractions eventMerges].
  apply updateEvent_some in U1 as [-> [row Hrow]].
  apply updateEvent_some in U2 as [-> _].
  repeat split; try reflexivity. exists row; exact Hrow.
Qed.

(** The row of the surviving event after a merge. *)
Lemma mergeEvents_primary_row (now : Z) (existing newEvent : EventForClustering)
    (db db' : Db) (r : ClusterResult.t) :
  mergeEvents now existing newEvent db = (db', Return r) ->
  exists row,
    findEvent (id existing) (events db') = Some row /\
    Event.confidenceExtraction row = Some (boosted existing newEvent) /\
    Event.sourceCount row = (sourceCount existing + sourceCount newEvent)%Z.
Proof.
  intro H. apply mergeEvents_returns in H as (He & _ & _ & _ & _ & row & Hrow).
  rewrite He.
  rewrite !findEvent_map, Hrow
    by (intro x; apply at_id; intro y; reflexivity).
  cbn [option_map].
  apply findEvent_id in Hrow as [Hid _].
  unfold at_. rewrite Hid, Z.eqb_refl, absorb_id.
  destruct (Event.id row =? id newEvent)%Z;
    eexists; (split; [reflexivity|]); split; reflexivity.
Qed.

End MergeFacts.

(** ** Claims on the merge *)
Section MergeClaims.
Import Store EventCluster.

(** C3 does not hold as stated: a previous confidence of 0.99 lies in [0, 1],
    and the merge of one further source writes min(0.99 + 0.05, 0.98) = 0.98,
    which is less than the confidence before the merge. *)
Lemma C3_counterexample_confidence_099 :
  confidenceExtraction confidentPrimary = 99 # 100 /\
  option_map Event.confidenceExtraction
    (findEvent 1 (events (fst (mergeEvents 1700000900000 confidentPrimary secondReport
                                 confidentStore)))) = Some (Some (98 # 100)) /\
  98 # 100 < 99 # 100.
Proof. vm_compute. repeat split; reflexivity. Qed.

(** C3, amended: after a merge the surviving event's extraction confidence
    is min(previous confidence + absorbed source count x 0.05, 0.98); this is
    not less than the previous confidence whenever that was at most 0.98 and
    the absorbed source count is not negative.  (A previous confidence above
    0.98 is lowered to 0.98.) *)
Theorem C3_merge_confidence_boost_capped (now : Z) (existing newEvent : EventForClustering)
    (db db' : Db) (r : ClusterResult.t) :
  mergeEvents now existing newEvent db = (db', Return r) ->
  (exists row,
      findEvent (id existing) (events db') = Some row /\
      Event.confidenceExtraction row =
        Some (Qmin (confidenceExtraction existing +
                    inject_Z (sourceCount newEvent) * (5 # 100)) (98 # 100))) /\
  ((0 <= sourceCount newEvent)%Z -> confidenceExtraction existing <= 98 # 100 ->
   confidenceExtraction existing <=
     Qmin (confidenceExtraction existing +
           inject_Z (sourceCount newEvent) * (5 # 100)) (98 # 100)) /\
  (98 # 100 < confidenceExtraction existing -> (0 <= sourceCount newEvent)%Z ->
   Qmin (confidenceExtraction existing +
         inject_Z (sourceCount newEvent) * (5 # 100)) (98 # 100) == 98 # 100).
Proof.
  intro H.
  assert (Hc : (0 <= sourceCount newEvent)%Z ->
               0 <= inject_Z (sourceCount newEvent) * (5 # 100)).
  { intro Hn. apply Qmult_le_0_compat; [|lra].
    change 0 with (inject_Z 0). rewrite <- Zle_Qle. exact Hn. }
  split; [|split].
  - destruct (mergeEvents_primary_row _ _ _ _ H) as (row & Hf & Hconf & _).
    exists row. split; [exact Hf | exact Hconf].
  - intros Hn Hle. apply Q.min_glb; [|exact Hle].
    specialize (Hc Hn). lra.
  - intros Hgt Hn. apply Q.min_r. specialize (Hc Hn). lra.
Qed.

(** C3, amended, on the merge of the second report into the confident one. *)
Lemma C3_witness_two_reports :
  (exists row,
      findEvent 1 (events (fst (mergeEvents 1700000900000 confidentPrimary secondReport
                                  confidentStore))) = Some row /\
      Event.confidenceExtraction row =
        Some (Qmin (confidenceExtraction confidentPrimary +
                    inject_Z (sourceCount secondReport) * (5 # 100)) (98 # 100))) /\
  ((0 <= sourceCount secondReport)%Z -> confidenceExtraction confidentPrimary <= 98 # 100 ->
   confidenceExtraction confidentPrimary <=
     Qmin (confidenceExtraction confidentPrimary +
           inject_Z (sourceCount secondReport) * (5 # 100)) (98 # 100)) /\
  (98 # 100 < confidenceExtraction confidentPrimary -> (0 <= sourceCount secondReport)%Z ->
   Qmin (confidenceExtraction confidentPrimary +
         inject_Z (sourceCount secondReport) * (5 # 100)) (98 # 100) == 98 # 100).
Proof.
  apply (@C3_merge_confidence_boost_capped 1700000900000 confidentPrimary secondReport
           confidentStore _
           (ClusterResult.mk merged 1 [2%Z] (inject_Z 1 * SOURCE_CONFIDENCE_BOOST) 2)).
  vm_compute. reflexivity.
Defined.

End MergeClaims.

(** ** The clustering decision *)
Section ClusterFacts.
Import Store EventCluster.

Variable M : MathLib.
Variable coordColumn : NumericColumn.

Lemma In_insertDesc {A K : Type} (key : A -> K) (gtb : K -> K -> bool)
    (x y : A) (l : list A) :
  In y (insertDesc key gtb x l) -> y = x \/ In y l.
Proof.
  induction l as [|z l IH]; simpl.
  - intros [H | []]; left; congruence.
  - destruct (gtb (key z) (key x)); simpl.
    + intros [H | H]; [right; left; exact H|].
      destruct (IH H) as [E | I]; [left; exact E | right; right; exact I].
    + intros [H | H]; [left; congruence | right; exact H].
Qed.

Lemma In_sortDesc {A K : Type} (key : A -> K) (gtb : K -> K -> bool)
    (y : A) (l : list A) :
  In y (sortDesc key gtb l) -> In y l.
Proof.
  unfold sortDesc. induction l as [|x l IH]; simpl; [tauto|].
  intro H. apply In_insertDesc in H as [E | I]; [left; congruence | right; exact (IH I)].
Qed.

Lemma In_firstn {A : Type} (n : nat) (y : A) (l : list A) :
  In y (firstn n l) -> In y l.
Proof.
  revert l. induction n as [|n IH]; intros [|x l]; simpl; try tauto.
  intros [H | H]; [left; exact H | right; exact (IH _ H)].
Qed.

Lemma hd_error_In {A : Type} (y : A) (l : list A) : hd_error l = Some y -> In y l.
Proof. destruct l; simpl; [discriminate | intro H; inversion H; left; reflexivity]. Qed.

(** A candidate is the view of a stored row other than the new event. *)
Lemma candidate_is_row (event c : EventForClustering) (db : Db) :
  In c (findCandidateMatches M coordColumn event db) ->
  exists row, In row (events db) /\ c = mapToClusteringEvent coordColumn row /\
              Event.id row <> id event.
Proof.
  unfold findCandidateMatches.
  assert (Q : forall p, In c (map (mapToClusteringEvent coordColumn)
                                (filter p (queryCandidates event db))) ->
              exists row, In row (events db) /\
                          c = mapToClusteringEvent coordColumn row /\
                          Event.id row <> id event).
  { intros p H. apply in_map_iff in H as (row & Hc & Hin).
    apply filter_In in Hin as [Hin _].
    unfold queryCandidates in Hin.
    apply In_firstn, In_sortDesc, filter_In in Hin as [Hin Hp].
    exists row. split; [exact Hin|]. split; [symmetry; exact Hc|].
    repeat (apply andb_prop in Hp as [Hp _]).
    apply negb_true_iff, Z.eqb_neq in Hp. exact Hp. }
  destruct (Js.truthyNum (latitude event) && Js.truthyNum (longitude event)); apply Q.
Qed.

(** The best match is a candidate that scored at least the threshold. *)
Lemma bestMatch_some (newEvent : EventForClustering) (cs : list EventForClustering)
    (best : Scored) :
  bestMatch M newEvent cs = Some best ->
  In (candidate best) cs /\
  similarity best = calculateSimilarity M newEvent (candidate best) /\
  MIN_SIMILARITY_SCORE <= similarity best.
Proof.
  unfold bestMatch. intro H.
  apply hd_error_In, In_sortDesc, filter_In in H as [Hin Hp].
  apply in_map_iff in Hin as (c & Hc & Hin). subst best. cbn [candidate similarity] in *.
  split; [exact Hin|]. split; [reflexivity|].
  apply Qle_bool_iff. exact Hp.
Qed.

(** The two ways [clusterEvent] returns. *)
Lemma clusterEvent_returns (now eventId : Z) (db db' : Db) (r : ClusterResult.t) :
  clusterEvent M coordColumn now eventId db = (db', Return r) ->
  exists newEvent,
    loadEventForClustering coordColumn eventId db = Some newEvent /\
    ((db' = db /\ r = unique eventId newEvent) \/
     exists best,
       bestMatch M newEvent (findCandidateMatches M coordColumn newEvent db) = Some best /\
       mergeEvents now (candidate best) newEvent db = (db', Return r)).
Proof.
  unfold clusterEvent.
  destruct (loadEventForClustering coordColumn eventId db) as [newEvent|];
    [|intro H; inversion H].
  intro H. exists newEvent. split; [reflexivity|].
  destruct (length (findCandidateMatches M coordColumn newEvent db) =? 0)%nat.
  - inversion H; subst. left; split; reflexivity.
  - destruct (bestMatch M newEvent _) as [best|] eqn:B.
    + right. exists best. split; [reflexivity | exact H].
    + inversion H; subst. left; split; reflexivity.
Qed.

Lemma loadEventForClustering_some (eventId : Z) (db : Db) (e : EventForClustering) :
  loadEventForClustering coordColumn eventId db = Some e ->
  exists row, findEvent eventId (events db) = Some row /\
              e = mapToClusteringEvent coordColumn row /\ id e = eventId.
Proof.
  unfold loadEventForClustering.
  destruct (findEvent eventId (events db)) as [row|] eqn:F; [|discriminate].
  intro H; inversion H; subst. exists row. split; [reflexivity|]. split; [reflexivity|].
  apply findEvent_id in F as [Hid _]. exact Hid.
Qed.

(** The audit row of a merge decided by [clusterEvent]: the score that met
    the threshold is at least 0.7, the score written is 0. *)
Lemma clusterEvent_audit_row (now eventId : Z) (db db' : Db) (r : ClusterResult.t) :
  clusterEvent M coordColumn now eventId db = (db', Return r) ->
  ClusterResult.action r = merged ->
  exists newEvent best,
    loadEventForClustering coordColumn eventId db = Some newEvent /\
    bestMatch M newEvent (findCandidateMatches M coordColumn newEvent db) = Some best /\
    7 # 10 <= calculateSimilarity M newEvent (candidate best) /\
    eventMerges db' =
      eventMerges db ++ [EventMerge.mk (id (candidate best)) eventId 0 now].
Proof.
  intros H Hm.
  apply clusterEvent_returns in H as (newEvent & Hload & [[_ ->] | (best & Hb & Hmerge)]);
    [discriminate|].
  exists newEvent, best. split; [exact Hload|]. split; [exact Hb|].
  apply bestMatch_some in Hb as (_ & Hs & Hle). rewrite Hs in Hle.
  split; [exact Hle|].
  apply loadEventForClustering_some in Hload as (_ & _ & _ & Hid).
  apply mergeEvents_returns in Hmerge as (_ & _ & _ & Ha & _).
  rewrite Ha, Hid. reflexivity.
Qed.

End ClusterFacts.

(** ** Claims on the clustering engine *)
Section ClusterClaims.
Import Store EventCluster.

Lemma filter_map_fixed {A : Type} (p : A -> bool) (g : A -> A) (l : list A) :
  (forall x, p (g x) = p x) -> (forall x, p x = true -> g x = x) ->
  filter p (map g l) = filter p l.
Proof.
  intros Hp Hg. induction l as [|x l IH]; [reflexivity|].
  simpl. rewrite Hp. destruct (p x) eqn:E; [|exact IH].
  rewrite (Hg x E), IH. reflexivity.
Qed.

Section StatusBlind.
Variable M : MathLib.
Variable coordColumn : NumericColumn.

Lemma load_markAsMerged (i into : Z) (db : Db) :
  loadEventForClustering coordColumn i (markAsMerged i into db) =
  loadEventForClustering coordColumn i db.
Proof.
  unfold loadEventForClustering, markAsMerged. cbn [events].
  rewrite findEvent_map by (intro x; apply at_id; intro y; reflexivity).
  destruct (findEvent i (events db)) as [row|]; [|reflexivity].
  cbn [option_map]. unfold at_.
  destruct (Event.id row =? i)%Z; reflexivity.
Qed.

Lemma query_markAsMerged (event : EventForClustering) (into : Z) (db : Db) :
  queryCandidates event (markAsMerged (id event) into db) = queryCandidates event db.
Proof.
  unfold queryCandidates, markAsMerged. cbn [events].
  rewrite filter_map_fixed; [reflexivity| |].
  - intro x. unfold at_.
    destruct (Event.id x =? id event)%Z eqn:E; rewrite ?markMerged_id, ?E; reflexivity.
  - intros x Hx. repeat (apply andb_prop in Hx as [Hx _]).
    apply negb_true_iff in Hx. unfold at_. rewrite Hx. reflexivity.
Qed.

(** Whether a merge completes depends on the presence of the two rows only. *)
Lemma mergeEvents_outcome (now : Z) (existing newEvent : EventForClustering) (db : Db) :
  snd (mergeEvents now existing newEvent db) =
  match findEvent (id existing) (events db), findEvent (id newEvent) (events db) with
  | Some _, Some _ =>
      Return (ClusterResult.mk merged (id existing) [id newEvent]
                (inject_Z (sourceCount newEvent) * SOURCE_CONFIDENCE_BOOST)
                (sourceCount existing + sourceCount newEvent))
  | _, _ => Throw (error "Record to update not found")
  end.
Proof.
  unfold mergeEvents, updateEvent.
  destruct (findEvent (id existing) (events db)) as [row|]; [|reflexivity].
  change (map (fun e => if (Event.id e =? id existing)%Z then ?f e else e) (events db))
    with (map (at_ (id existing) f) (events db)).
  rewrite findEvent_map by (intro x; apply at_id; intro y; reflexivity).
  destruct (findEvent (id newEvent) (events db)) as [row'|]; reflexivity.
Qed.

Lemma mergeEvents_markAsMerged (now i into : Z) (existing newEvent : EventForClustering)
    (db : Db) :
  snd (mergeEvents now existing newEvent (markAsMerged i into db)) =
  snd (mergeEvents now existing newEvent db).
Proof.
  rewrite !mergeEvents_outcome.
  unfold markAsMerged. cbn [events].
  rewrite !findEvent_map by (intro x; apply at_id; intro y; reflexivity).
  destruct (findEvent (id existing) (events db)), (findEvent (id newEvent) (events db));
    reflexivity.
Qed.

(** The decision and the returned result do not depend on the status of the
    event: the code never reads it. *)
Lemma clusterEvent_ignores_status (now eventId into : Z) (db : Db) :
  snd (clusterEvent M coordColumn now eventId (markAsMerged eventId into db)) =
  snd (clusterEvent M coordColumn now eventId db).
Proof.
  unfold clusterEvent. rewrite load_markAsMerged.
  destruct (loadEventForClustering coordColumn eventId db) as [newEvent|] eqn:L;
    [|reflexivity].
  apply loadEventForClustering_some in L as (_ & _ & _ & Hid).
  assert (C : findCandidateMatches M coordColumn newEvent (markAsMerged eventId into db) =
              findCandidateMatches M coordColumn newEvent db).
  { unfold findCandidateMatches. rewrite <- Hid, query_markAsMerged. reflexivity. }
  rewrite C.
  destruct (length (findCandidateMatches M coordColumn newEvent db) =? 0)%nat;
    [reflexivity|].
  destruct (bestMatch M newEvent _) as [best|]; [|reflexivity].
  apply mergeEvents_markAsMerged.
Qed.

End StatusBlind.

(** C1 does not hold as stated: after the first delivery event 2 has status
    'merged' and event 1 counts 2 sources with one audit row; the second
    delivery of the same job merges again: event 1 then counts 3 sources and
    there are two audit rows. *)
Lemma C1_counterexample_second_delivery :
  statusOf 2 afterFirstDelivery = Some "merged" /\
  sourceCountOf 1 afterFirstDelivery = Some 2%Z /\
  length (eventMerges afterFirstDelivery) = 1%nat /\
  sourceCountOf 1 afterSecondDelivery = Some 3%Z /\
  length (eventMerges afterSecondDelivery) = 2%nat.
Proof. vm_compute. repeat split; reflexivity. Qed.

(** C1, amended: [clusterEvent] does not consult the status of the event:
    marking the event as merged beforehand changes neither the decision nor
    the returned result.  A delivery leaves the store as it is when it returns
    'new' (no candidate at or above the threshold); whenever it returns
    'merged', also on a repeated delivery for an event that is merged already,
    it appends one audit row and sets the source count of the absorbing event
    to its previous value plus the source count of the absorbed event. *)
Theorem C1_redelivery_repeats_the_merge (M : MathLib) (coordColumn : NumericColumn)
    (now eventId : Z) (db : Db) :
  (forall into,
      snd (clusterEvent M coordColumn now eventId (markAsMerged eventId into db)) =
      snd (clusterEvent M coordColumn now eventId db)) /\
  (forall db' r,
      clusterEvent M coordColumn now eventId db = (db', Return r) ->
      (ClusterResult.action r = new -> db' = db) /\
      (ClusterResult.action r = merged ->
       eventMerges db' =
         eventMerges db ++
         [EventMerge.mk (ClusterResult.primaryEventId r) eventId 0 now] /\
       exists primaryRow absorbedRow,
         In primaryRow (events db) /\
         Event.id primaryRow = ClusterResult.primaryEventId r /\
         findEvent eventId (events db) = Some absorbedRow /\
         ClusterResult.sourceCount r =
           (Event.sourceCount primaryRow + Event.sourceCount absorbedRow)%Z /\
         sourceCountOf (ClusterResult.primaryEventId r) db' =
           Some (ClusterResult.sourceCount r))).
Proof.
  split; [intro into; apply clusterEvent_ignores_status|].
  intros db' r H.
  apply clusterEvent_returns in H as (newEvent & Hload & [[-> ->] | (best & Hb & Hmerge)]).
  - split; [reflexivity | discriminate].
  - apply loadEventForClustering_some in Hload as (absorbedRow & Hfind & Hnew & Hid).
    apply bestMatch_some in Hb as (Hin & _ & _).
    apply candidate_is_row in Hin as (primaryRow & Hrow & Hcand & _).
    destruct (mergeEvents_primary_row _ _ _ _ Hmerge) as (row & Hf & _ & Hcount).
    apply mergeEvents_returns in Hmerge as (_ & _ & _ & Ha & -> & _).
    cbn [ClusterResult.action ClusterResult.primaryEventId ClusterResult.sourceCount].
    split; [discriminate|]. intros _.
    split; [rewrite Ha, Hid; reflexivity|].
    exists primaryRow, absorbedRow.
    split; [exact Hrow|].
    split; [rewrite Hcand; reflexivity|].
    split; [exact Hfind|].
    split; [rewrite Hcand, Hnew; reflexivity|].
    unfold sourceCountOf. rewrite Hf. cbn [option_map]. rewrite Hcount. reflexivity.
Qed.

(** C1, amended, at the second delivery of the example. *)
Lemma C1_witness_second_delivery :
  eventMerges afterSecondDelivery =
    eventMerges afterFirstDelivery ++ [EventMerge.mk 1 2 0 1700001200000] /\
  exists primaryRow absorbedRow,
    In primaryRow (events afterFirstDelivery) /\
    Event.id primaryRow = 1%Z /\
    findEvent 2 (events afterFirstDelivery) = Some absorbedRow /\
    (2 + 1 = Event.sourceCount primaryRow + Event.sourceCount absorbedRow)%Z /\
    sourceCountOf 1 afterSecondDelivery = Some (2 + 1)%Z.
Proof.
  apply (proj2 (C1_redelivery_repeats_the_merge approxMath FloatColumn 1700001200000 2
                  afterFirstDelivery)
           afterSecondDelivery
           (ClusterResult.mk merged 1 [2%Z] (inject_Z 1 * SOURCE_CONFIDENCE_BOOST) (2 + 1)%Z)).
  - vm_compute. reflexivity.
  - reflexivity.
Defined.

(** C4 fails on the code: in the example the best match for event 2 is
    event 1 with a score of 0.8, which meets the threshold of 0.7 and decides
    the merge; the audit row written for that merge holds the two identifiers
    and the time, and a similarity score of 0. *)
Theorem C4_audit_row_records_zero :
  exists newEvent best,
    loadEventForClustering FloatColumn 2 yosemiteStore = Some newEvent /\
    bestMatch approxMath newEvent
      (findCandidateMatches approxMath FloatColumn newEvent yosemiteStore) = Some best /\
    id (candidate best) = 1%Z /\
    similarity best == 8 # 10 /\
    snd (clusterEvent approxMath FloatColumn 1700000900000 2 yosemiteStore) =
      Return (ClusterResult.mk merged 1 [2%Z] (inject_Z 1 * SOURCE_CONFIDENCE_BOOST) 2) /\
    eventMerges afterFirstDelivery = [EventMerge.mk 1 2 0 1700000900000].
Proof.
  eexists. eexists.
  split; [vm_compute; reflexivity|].
  split; [vm_compute; reflexivity|].
  repeat split; vm_compute; reflexivity.
Qed.

End ClusterClaims.

(** ** Coordinates on the equator or the prime meridian *)
Section ZeroCoordinateClaims.
Import Store EventCluster.






(** The effect on the example: the neighbour one kilometre away is kept for
    a report just off the equator and dropped for the report on it. *)
Example equator_report_loses_its_neighbour :
  map id (findCandidateMatches approxMath DecimalColumn
            (mapToClusteringEvent DecimalColumn
               (Event.mk 2 "Wildfire on the slopes of Mount Kenya" "wildfire" None 3
                  (Some (5 # 10)) "Kenya" (Some "Laikipia") None None (Some (1 # 1000))
                  (Some (368 # 10)) "Fire on the mountain" None false None None true 1
                  "news" false "active" None 1700000600000 1700000600000))
            (kenyaStore (1 # 1000))) = [1%Z] /\
  map id (findCandidateMatches approxMath DecimalColumn equatorReport (kenyaStore 0)) = [].
Proof. vm_compute. split; reflexivity. Qed.

End ZeroCoordinateClaims.

(** ** The extraction job *)
Section ExtractJobFacts.
Import Store QueueMessages SqsService ExtractJob.

Variable callOpenAIForExtraction : nat -> Request -> Outcome Extraction.t.
Variable validateEventSchema : Extraction.t -> bool.
Variable calculateSourceQualityScore : string -> option string -> option Q -> Q.
Variable scoreColumn : NumericColumn.

Lemma existsb_filter {A : Type} (p : A -> bool) (l : list A) :
  existsb p l = (0 <? length (filter p l))%nat.
Proof.
  induction l as [|x l IH]; [reflexivity|].
  simpl. destruct (p x); [reflexivity | exact IH].
Qed.

Lemma findSource_updateWhere (i : Z) (p : EventSource.t -> bool)
    (f : EventSource.t -> EventSource.t) (ss : list EventSource.t) :
  (forall s, EventSource.id (f s) = EventSource.id s) ->
  findSource i (updateWhere p f ss) =
  option_map (fun s => if p s then f s else s) (findSource i ss).
Proof.
  intro H. unfold findSource, updateWhere.
  induction ss as [|s ss IH]; [reflexivity|].
  simpl. replace (EventSource.id (if p s then f s else s)) with (EventSource.id s)
    by (destruct (p s); [rewrite H|]; reflexivity).
  destruct (EventSource.id s =? i)%Z; [reflexivity | exact IH].
Qed.

(** Without the force flag, a source that has an extraction record is left
    alone: the world is returned as it was, and the job returns [null] when
    the source row exists (it throws 'not found' otherwise). *)
Lemma run_on_extracted_source (now : Z) (newJobId nowIso : string)
    (msg : ExtractJobMessage) (w : World) :
  forced msg = false ->
  extractionsOf (source_id (payload msg)) w <> [] ->
  let job := run callOpenAIForExtraction validateEventSchema calculateSourceQualityScore
               scoreColumn in
  fst (job now newJobId nowIso msg w) = w /\
  (findSource (source_id (payload msg)) (eventSources (db w)) <> None ->
   snd (job now newJobId nowIso msg w) = Return None).
Proof.
  unfold forced, extractionsOf. intros Hf Hex. cbv zeta.
  unfold run, runExtractJob, bind, loadSource.
  destruct (findSource (source_id (payload msg)) (eventSources (db w))) as [source|].
  - rewrite Hf. cbn [negb]. unfold hasExistingExtraction.
    destruct (filter _ (sourceExtractions (db w))) as [|x xs]; [congruence|].
    cbn. split; [reflexivity | intros _; reflexivity].
  - cbn. split; [reflexivity | congruence].
Qed.

Lemma quiet_refl (w : World) : quiet w w.
Proof. split; reflexivity. Qed.

Lemma quiet_trans (w1 w2 w3 : World) : quiet w1 w2 -> quiet w2 w3 -> quiet w1 w3.
Proof. intros [A B] [C D]. split; congruence. Qed.

Lemma markSourceStatus_quiet (now sourceId : Z) (status : string) (w : World) :
  quiet w (fst (markSourceStatus now sourceId status w)).
Proof. split; reflexivity. Qed.

Lemma callCapability_quiet (request : Request) (w : World) :
  quiet w (fst (callCapability callOpenAIForExtraction request w)) /\
  calls (fst (callCapability callOpenAIForExtraction request w)) = calls w ++ [request].
Proof. split; [split|]; reflexivity. Qed.

Lemma enqueue_cluster_throws (msg : JobMessage) (w : World) :
  exists e, enqueue "CLUSTER" msg w = (w, Throw e).
Proof.
  unfold enqueue, enqueueJob.
  replace (hasEntry "CLUSTER") with false by (vm_compute; reflexivity).
  destruct w; eexists; reflexivity.
Qed.

Lemma saveExtractionResult_effect (now sourceId : Z) (extraction : Extraction.t)
    (model : string) (qualityScore : Q) (g : GeoValidation.GeoValidationResult)
    (w w' : World) (o : Outcome Z) :
  saveExtractionResult now sourceId extraction model qualityScore g w = (w', o) ->
  (w' = w /\ exists e, o = Throw e) \/
  (calls w' = calls w /\ sent w' = sent w /\
   exists row x,
     o = Return (Event.id row) /\
     events (db w') = events (db w) ++ [row] /\
     sourceExtractions (db w') = sourceExtractions (db w) ++ [x] /\
     SourceExtraction.source_id x = sourceId /\
     SourceExtraction.event_id x = Event.id row /\
     extractionsOf sourceId w = [] /\
     findSource sourceId (eventSources (db w')) <> None).
Proof.
  unfold saveExtractionResult.
  destruct (findSource sourceId (eventSources (db w))) as [s|] eqn:F.
  2:{ intro H; inversion H. left. split; [reflexivity | eexists; reflexivity]. }
  destruct (existsb _ (sourceExtractions (db w))) eqn:E.
  { intro H; inversion H. left. split; [reflexivity | eexists; reflexivity]. }
  intro H; inversion H; subst; clear H. right.
  cbn [withDb db calls sent events sourceExtractions eventSources].
  split; [reflexivity|]. split; [reflexivity|].
  exists (newEventRow now (nextEventId (db w)) extraction qualityScore). eexists.
  split; [reflexivity|]. split; [reflexivity|]. split; [reflexivity|].
  split; [reflexivity|]. split; [reflexivity|].
  split.
  - rewrite existsb_filter in E. unfold extractionsOf.
    destruct (filter _ (sourceExtractions (db w))); [reflexivity | discriminate].
  - rewrite findSource_updateWhere by reflexivity. rewrite F. discriminate.
Qed.

Lemma requestExtraction_quiet (source : SourceRow) (rawText : string) (w : World) :
  quiet w (fst (requestExtraction callOpenAIForExtraction validateEventSchema
                  source rawText w)).
Proof.
  unfold requestExtraction, bind.
  destruct (callCapability callOpenAIForExtraction (mkRequest source rawText false) w)
    as [w1 o1] eqn:C1.
  pose proof (proj1 (callCapability_quiet (mkRequest source rawText false) w)) as Q1.
  rewrite C1 in Q1. cbn [fst] in Q1.
  destruct o1 as [first|e]; [|exact Q1].
  destruct (validateEventSchema first); [exact Q1|].
  exact (quiet_trans Q1 (proj1 (callCapability_quiet (mkRequest source rawText true) w1))).
Qed.

Lemma validateAndSave_effect (now : Z) (newJobId nowIso : string) (msg : ExtractJobMessage)
    (qualityScore : Q) (extraction : Extraction.t) (w : World) :
  let w' := fst (validateAndSave validateEventSchema now newJobId nowIso msg qualityScore
                   extraction w) in
  quiet w w' \/ saved (source_id (payload msg)) w w'.
Proof.
  unfold validateAndSave, bind.
  destruct (negb (validateEventSchema extraction)).
  { left. split; reflexivity. }
  unfold runGeoValidation.
  destruct (GeoValidation.validateGeolocation extraction) as [geo|e];
    [|left; apply quiet_refl].
  destruct (saveExtractionResult _ _ _ _ _ _ w) as [w1 o] eqn:S.
  apply saveExtractionResult_effect in S
    as [[-> [e ->]] | (_ & _ & row & x & -> & He & Hx & Hs & Hev & Hn & Hf)].
  - left. apply quiet_refl.
  - destruct (enqueue_cluster_throws
                (createJobMessage CLUSTER
                   (JObject [("event_id", JNumber (inject_Z (Event.id row)))])
                   (Some (correlation_id msg)) newJobId "" nowIso) w1) as [e ->].
    right. cbn [fst]. exists row, x. tauto.
Qed.

Lemma extractAndSave_effect (now : Z) (newJobId nowIso : string) (msg : ExtractJobMessage)
    (source : SourceRow) (rawText : string) (w : World) :
  let w' := fst (extractAndSave callOpenAIForExtraction validateEventSchema
                   calculateSourceQualityScore now newJobId nowIso msg source rawText w) in
  quiet w w' \/ saved (source_id (payload msg)) w w'.
Proof.
  unfold extractAndSave, bind.
  pose proof (requestExtraction_quiet source rawText w) as Q1.
  destruct (requestExtraction _ _ source rawText w) as [w1 [extraction|e]];
    cbn [fst] in Q1; [|left; exact Q1].
  destruct (validateAndSave_effect now newJobId nowIso msg
              (calculateSourceQualityScore (sourceType source) (publisher source)
                 (credibilityScore source)) extraction w1) as [Q2 | S2].
  - left. exact (quiet_trans Q1 Q2).
  - right. destruct Q1 as [Qe Qx].
    destruct S2 as (row & x & He & Hx & Hs & Hev & Hn & Hf).
    exists row, x. unfold extractionsOf in *.
    rewrite He, Hx, Qe, Qx. rewrite Qx in Hn. tauto.
Qed.

Lemma processSource_effect (now : Z) (newJobId nowIso : string) (msg : ExtractJobMessage)
    (source : SourceRow) (w : World) :
  let w' := fst (processSource callOpenAIForExtraction validateEventSchema
                   calculateSourceQualityScore now newJobId nowIso msg source w) in
  quiet w w' \/ saved (source_id (payload msg)) w w'.
Proof.
  unfold processSource.
  destruct (_ || _).
  - left. split; reflexivity.
  - apply extractAndSave_effect.
Qed.

Lemma runExtractJob_effect (now : Z) (newJobId nowIso : string)
    (msg : ExtractJobMessage) (w : World) :
  let w' := fst (run callOpenAIForExtraction validateEventSchema
                   calculateSourceQualityScore scoreColumn now newJobId nowIso msg w) in
  quiet w w' \/ saved (source_id (payload msg)) w w'.
Proof.
  unfold run, runExtractJob, bind, loadSource.
  destruct (findSource (source_id (payload msg)) (eventSources (db w))) as [s|];
    [|left; apply quiet_refl].
  destruct (negb _).
  - unfold hasExistingExtraction.
    destruct (0 <? _)%nat; [left; apply quiet_refl | apply processSource_effect].
  - unfold ret at 1. apply processSource_effect.
Qed.

End ExtractJobFacts.

(** * Further properties *)

(** ** Envelopes and routing *)
Section EnvelopeProperties.
Import QueueMessages SqsService Consumer.

Lemma jobTypeOfName_name (t : JobType) : jobTypeOfName (jobTypeName t) = Some t.
Proof. destruct t; reflexivity. Qed.

Lemma jobTypeName_known (t : JobType) : Js.includes JOB_TYPES (jobTypeName t) = true.
Proof. destruct t; reflexivity. Qed.

(** X1: what a producer serialises is what the consumer accepts.  The parsed
    text of any envelope whose payload is not [null] passes the guard
    [isJobMessage], and reading it back gives the envelope itself; so a body
    that parses to it reaches the handlers with every field intact. *)
Theorem envelope_round_trip (JSON_parse : string -> option Json) (msg : JobMessage)
    (body : string) :
  payload msg <> JNull ->
  JSON_parse body = Some (envelopeJson msg) ->
  isJobMessage (envelopeJson msg) = true /\
  asJobMessage (envelopeJson msg) = Some msg /\
  parseBody JSON_parse body = Some msg.
Proof.
  intros Hp Hparse.
  assert (G : isJobMessage (envelopeJson msg) = true).
  { destruct msg as [t j c e [a|] p]; cbn [payload] in Hp;
      destruct t, p; try reflexivity; congruence. }
  assert (A : asJobMessage (envelopeJson msg) = Some msg).
  { destruct msg as [t j c e [a|] p]; destruct t; try reflexivity.
    all: cbv -[Qeq_bool Qfloor inject_Z].
    all: rewrite Qfloor_Z.
    all: replace (Qeq_bool (inject_Z a) (inject_Z a)) with true; [reflexivity|].
    all: symmetry; apply Qeq_bool_iff; reflexivity. }
  split; [exact G|]. split; [exact A|].
  unfold parseBody. rewrite Hparse, G. exact A.
Qed.

(** The round trip on an envelope made by [createJobMessage]. *)
Lemma envelope_round_trip_witness :
  isJobMessage (envelopeJson
                  (createJobMessage CLUSTER (JObject [("event_id", JNumber 12)])
                     (Some "corr_1") "job_9" "corr_9" "2023-11-14T22:13:20.000Z")) = true /\
  asJobMessage (envelopeJson
                  (createJobMessage CLUSTER (JObject [("event_id", JNumber 12)])
                     (Some "corr_1") "job_9" "corr_9" "2023-11-14T22:13:20.000Z")) =
    Some (createJobMessage CLUSTER (JObject [("event_id", JNumber 12)])
            (Some "corr_1") "job_9" "corr_9" "2023-11-14T22:13:20.000Z") /\
  parseBody (fun _ => Some (envelopeJson
                              (createJobMessage CLUSTER (JObject [("event_id", JNumber 12)])
                                 (Some "corr_1") "job_9" "corr_9"
                                 "2023-11-14T22:13:20.000Z")))
    "<cluster envelope>" =
    Some (createJobMessage CLUSTER (JObject [("event_id", JNumber 12)])
            (Some "corr_1") "job_9" "corr_9" "2023-11-14T22:13:20.000Z").
Proof.
  apply (@envelope_round_trip
           (fun _ => Some (envelopeJson
                             (createJobMessage CLUSTER (JObject [("event_id", JNumber 12)])
                                (Some "corr_1") "job_9" "corr_9"
                                "2023-11-14T22:13:20.000Z")))
           (createJobMessage CLUSTER (JObject [("event_id", JNumber 12)])
              (Some "corr_1") "job_9" "corr_9" "2023-11-14T22:13:20.000Z")
           "<cluster envelope>").
  - discriminate.
  - reflexivity.
Defined.

(** X2: routing by job type always lands on a configured queue, each job type
    on a queue of its own: [enqueueRouted] never throws and sends exactly the
    one message.  No job type name is a queue name: [enqueueJob] called with
    the name of a job type in place of a queue throws and sends nothing. *)
Theorem routing_is_total_and_job_types_are_no_queues :
  (forall msg sent,
      enqueueRouted msg sent =
        (sent ++ [SendMessage (ROUTE_BY_JOBTYPE (job_type msg)) msg], Return tt)) /\
  (forall t1 t2, ROUTE_BY_JOBTYPE t1 = ROUTE_BY_JOBTYPE t2 -> t1 = t2) /\
  (forall t msg sent,
      enqueueJob (jobTypeName t) msg sent =
        (sent, Throw (typeError "Cannot read properties of undefined (reading 'url')"))).
Proof.
  split; [|split].
  - intros msg sent. unfold enqueueRouted, enqueueJob.
    destruct (job_type msg); reflexivity.
  - intros t1 t2. destruct t1, t2; cbn; intro H; try reflexivity; discriminate.
  - intros t msg sent. unfold enqueueJob. destruct t; reflexivity.
Qed.

End EnvelopeProperties.

(** ** The consumer loop *)
Section LoopProperties.
Import QueueMessages SqsService Consumer.

Variable World : Type.
Variable runExtractJob : JobMessage -> World -> World * Outcome unit.

Lemma computeBackoffSeconds_cap (cfg : Config) (random : Q) (attempt : Z) :
  computeBackoffSeconds cfg random attempt <= 900.
Proof. unfold computeBackoffSeconds. change (15 * 60) with 900. apply Q.le_min_r. Qed.

Lemma requeueSoon_settles (cfg : Config) (random : Q) (attempt : Z) (queue : QueueName)
    (h : string) (sent : list Command) :
  exists c,
    requeueSoon queue h (computeBackoffSeconds cfg random attempt) sent = sent ++ [c] /\
    settles queue h c.
Proof.
  eexists. split; [reflexivity|]. right. eexists. split; [reflexivity|].
  pose proof (computeBackoffSeconds_cap cfg random attempt) as Hcap.
  split; [apply Q.le_max_l|].
  apply Q.max_lub; [discriminate|].
  apply Qle_trans with (2 := Hcap). apply Q.le_min_l.
Qed.

(** X3: every message handed to [handleMessage] is settled by exactly one
    request to the provider, about that very message: it is deleted, or its
    visibility is changed to a delay between 0 and 900 seconds.  The handler
    runs at most once (once when there is an envelope, never otherwise), and
    the shutdown flag is left as it was. *)
Theorem handleMessage_settles_each_message_once (cfg : Config) (random : Q)
    (queue : QueueName) (h body : string) (parsed : option JobMessage)
    (receiveCount : option Z) (st : State World) :
  let st' := handleMessage cfg runExtractJob random queue h body parsed receiveCount st in
  (exists c, sent st' = sent st ++ [c] /\ settles queue h c) /\
  invoked st' = invoked st ++ match parsed with Some m => [m] | None => [] end /\
  shuttingDown st' = shuttingDown st.
Proof.
  unfold handleMessage.
  destruct parsed as [m|].
  2:{ cbn. split; [|split; [rewrite app_nil_r|]; reflexivity].
      eexists. split; [reflexivity | left; reflexivity]. }
  assert (H : exists handler, handlers runExtractJob (job_type m) = Some handler)
    by (destruct (job_type m); eexists; reflexivity).
  destruct H as [handler ->].
  destruct (handler m (world st)) as [w [u|err]]; cbn zeta.
  - cbn. split; [|split; reflexivity].
    eexists. split; [reflexivity | left; reflexivity].
  - destruct (negb (isRetryableError err)).
    + cbn. split; [|split; reflexivity].
      eexists. split; [reflexivity | left; reflexivity].
    + destruct (MAX_APP_RETRIES cfg <=? _)%Z; cbn [withSent sent invoked shuttingDown];
        (split; [apply requeueSoon_settles | split; reflexivity]).
Qed.

(** X4: the retry ceiling [MAX_APP_RETRIES] does not change what the consumer
    does with a message: at or above the ceiling a retryable failure still
    only changes the visibility of the message, with the same delay, and the
    message is never deleted on that account. *)
Theorem retry_ceiling_changes_nothing (cfg : Config) (ceiling : Z) (random : Q)
    (queue : QueueName) (h body : string) (parsed : option JobMessage)
    (receiveCount : option Z) (st : State World) :
  handleMessage (withMaxRetries ceiling cfg) runExtractJob random queue h body parsed
    receiveCount st =
  handleMessage cfg runExtractJob random queue h body parsed receiveCount st.
Proof.
  unfold handleMessage.
  destruct parsed as [m|]; [|reflexivity].
  destruct (handlers runExtractJob (job_type m)) as [handler|]; [|reflexivity].
  destruct (handler m (world st)) as [w [u|err]]; [reflexivity|].
  destruct (negb (isRetryableError err)); [reflexivity|].
  destruct (MAX_APP_RETRIES (withMaxRetries ceiling cfg) <=? _)%Z,
    (MAX_APP_RETRIES cfg <=? _)%Z; reflexivity.
Qed.

Lemma handleMessage_counts (cfg : Config) (random : Q) (queue : QueueName)
    (h body : string) (parsed : option JobMessage) (receiveCount : option Z)
    (st : State World) :
  let st' := handleMessage cfg runExtractJob random queue h body parsed receiveCount st in
  length (sent st') = S (length (sent st)) /\
  length (invoked st') =
    (length (invoked st) + match parsed with Some _ => 1 | None => 0 end)%nat /\
  shuttingDown st' = shuttingDown st.
Proof.
  unfold handleMessage.
  destruct parsed as [m|].
  2:{ unfold handlePoisonMessage, deleteMessage, withSent.
      cbn [sent invoked shuttingDown]. rewrite length_app. cbn [length].
      repeat split; lia. }
  assert (H : exists handler, handlers runExtractJob (job_type m) = Some handler)
    by (destruct (job_type m); eexists; reflexivity).
  destruct H as [handler ->].
  destruct (handler m (world st)) as [w [u|err]]; cbn zeta.
  - unfold deleteMessage, withSent. cbn [sent invoked shuttingDown].
    rewrite !length_app. cbn [length]. repeat split; lia.
  - destruct (negb (isRetryableError err)); [|destruct (MAX_APP_RETRIES cfg <=? _)%Z];
      unfold deleteMessage, requeueSoon, withSent; cbn [sent invoked shuttingDown];
      rewrite !length_app; cbn [length]; repeat split; lia.
Qed.

Lemma processBatch_counts (cfg : Config) (randoms : list Q) (queue : QueueName)
    (messages : list ReceivedMessage) (st : State World) :
  shuttingDown st = false ->
  let st' := processBatch cfg runExtractJob randoms queue messages st in
  length (sent st') = (length (sent st) + length messages)%nat /\
  length (invoked st') = (length (invoked st) + length (withEnvelope messages))%nat /\
  shuttingDown st' = false.
Proof.
  revert randoms st. induction messages as [|m rest IH]; intros randoms st Hs.
  - cbn. repeat split; try lia. exact Hs.
  - cbn [processBatch]. rewrite Hs.
    destruct (handleMessage_counts cfg (hd 0 randoms) queue (receiptHandle m) (rawBody m)
                (parsed m) (approximateReceiveCount m) st) as (H1 & H2 & H3).
    cbn zeta in H1, H2, H3. rewrite Hs in H3.
    destruct (IH (tl randoms) _ H3) as (I1 & I2 & I3). cbn zeta in I1, I2, I3.
    cbn zeta. rewrite I1, I2, H1, H2. split; [simpl; lia|]. split; [|exact I3].
    unfold withEnvelope. cbn [filter]. destruct (parsed m); simpl; lia.
Qed.

Lemma receiveMessages_length (JSON_parse : string -> option Json) (response : list Message) :
  (length (receiveMessages JSON_parse response) <= length response)%nat.
Proof.
  unfold receiveMessages. induction response as [|m rest IH]; [simpl; lia|].
  cbn [flat_map]. rewrite length_app. unfold receiveOne at 1.
  destruct (ReceiptHandle m), (Body m); simpl; try lia.
  destruct (_ || _); simpl; lia.
Qed.

(** X5: one poll settles every received message once and never more than
    the provider returned.  While the worker is not shutting down, a poll
    sends exactly one request per received message and runs a handler exactly
    once per message that carries an envelope; once the shutdown flag is set,
    a poll processes nothing at all. *)
Theorem pollQueue_one_request_per_message (cfg : Config)
    (JSON_parse : string -> option Json) (randoms : list Q) (queue : QueueName)
    (response : list Message) (st : State World) :
  let received := receiveMessages JSON_parse response in
  let st' := pollQueue cfg runExtractJob JSON_parse randoms queue response st in
  (shuttingDown st = false ->
   length (sent st') = (length (sent st) + length received)%nat /\
   length (invoked st') = (length (invoked st) + length (withEnvelope received))%nat /\
   (length received <= length response)%nat) /\
  (shuttingDown st = true -> st' = st).
Proof.
  cbn zeta. split.
  - intro Hs. unfold pollQueue.
    destruct (processBatch_counts cfg randoms queue
                (receiveMessages JSON_parse response) st Hs) as (H1 & H2 & _).
    split; [exact H1|]. split; [exact H2 | apply receiveMessages_length].
  - intro Hs. unfold pollQueue.
    destruct (receiveMessages JSON_parse response); cbn; [reflexivity|].
    rewrite Hs. reflexivity.
Qed.

End LoopProperties.

(** The poll of the three-message batch. *)
Lemma pollQueue_one_request_per_message_witness :
  let response :=
    [ SqsService.mkMessage (Some "rh-1") (Some "null") None (Some 1%Z);
      SqsService.mkMessage (Some "rh-2") (Some "<extract envelope>") None (Some 1%Z);
      SqsService.mkMessage None (Some "{}") None None ] in
  let st := Consumer.mkState 0%nat [] [] false in
  let received := SqsService.receiveMessages sampleParse response in
  let st' := Consumer.pollQueue Consumer.defaults (fun _ (w : nat) => (S w, Return tt))
               sampleParse [0; 0; 0] "q_extract" response st in
  length (Consumer.sent st') = (length (Consumer.sent st) + length received)%nat /\
  length (Consumer.invoked st') =
    (length (Consumer.invoked st) + length (withEnvelope received))%nat /\
  (length received <= length response)%nat.
Proof.
  apply (proj1 (@pollQueue_one_request_per_message nat (fun _ w => (S w, Return tt))
                  Consumer.defaults sampleParse [0; 0; 0] "q_extract"
                  [ SqsService.mkMessage (Some "rh-1") (Some "null") None (Some 1%Z);
                    SqsService.mkMessage (Some "rh-2") (Some "<extract envelope>") None
                      (Some 1%Z);
                    SqsService.mkMessage None (Some "{}") None None ]
                  (Consumer.mkState 0%nat [] [] false))).
  reflexivity.
Defined.

(** ** Retries *)
Section RetryProperties.
Import QueueMessages SqsService Consumer.

Ltac leftmost c :=
  lazymatch c with
  | (?a || _)%bool => leftmost a
  | _ => c
  end.

Lemma toLowerCase_idempotent (s : string) :
  Js.toLowerCase (Js.toLowerCase s) = Js.toLowerCase s.
Proof.
  induction s as [|c s IH]; [reflexivity|].
  cbn [Js.toLowerCase]. rewrite IH. f_equal.
  unfold Js.lowerChar at 1.
  destruct (Js.isUpper (Js.lowerChar c)) eqn:U; [|reflexivity].
  exfalso. revert U. unfold Js.lowerChar.
  destruct (Js.isUpper c) eqn:V.
  - unfold Js.isUpper in *.
    apply andb_prop in V as [V1 V2].
    apply Nat.leb_le in V1, V2.
    rewrite nat_ascii_embedding by lia.
    intro U. apply andb_prop in U as [_ U]. apply Nat.leb_le in U. lia.
  - congruence.
Qed.

(** X6: which failures are retried.  An error is dropped without a retry
    exactly when its message mentions "validation" or "invalid" and carries
    none of the markers of a transient failure, neither in the message nor in
    the code: a marker of a transient failure wins over a mention of
    validation, and an error with neither is retried.  The message is read
    without regard to letter case. *)
Theorem retryable_unless_only_validation (err : JsError) :
  isRetryableError err = transient err || negb (mentionsValidation err) /\
  isRetryableError (mkError (name err) (Js.toLowerCase (message err)) (code err)) =
    isRetryableError err.
Proof.
  split.
  - unfold isRetryableError, transient, mentionsValidation, messageMarkers, codeMarkers,
      codeOf.
    cbn [existsb].
    set (msg := Js.toLowerCase (message err)).
    set (c := match code err with Some c => c | None => name err end).
    repeat match goal with
           | |- context [Js.strIncludes ?a ?b] =>
               let x := fresh "x" in
               set (x := Js.strIncludes a b); clearbody x
           end.
    repeat match goal with
           | |- (if ?c then _ else _) = _ =>
               let v := leftmost c in
               destruct v; cbn [orb negb];
               [rewrite ?orb_true_r; cbn [orb]; reflexivity|]
           end.
    reflexivity.
  - unfold isRetryableError. cbn [message code name].
    rewrite toLowerCase_idempotent. reflexivity.
Qed.

Lemma backoffBase_monotone (cfg : Config) (a b : Z) :
  0 <= BASE_RETRY_DELAY_SECONDS cfg -> (a <= b)%Z ->
  backoffBase cfg a <= backoffBase cfg b.
Proof.
  intros Hb Hab. unfold backoffBase.
  rewrite !(Qmult_comm (BASE_RETRY_DELAY_SECONDS cfg)).
  apply Qmult_le_compat_r; [|exact Hb].
  rewrite <- Zle_Qle. apply Z.pow_le_mono_r; lia.
Qed.

(** X7: the delay never shrinks from one attempt to the next.  For a base
    delay and a jitter draw that are not negative, the computed delay is
    monotone in the attempt number; and every attempt up to the first
    (attempt 1, 0 or a negative number) gets the delay of the first. *)
Theorem backoff_is_monotone (cfg : Config) (random : Q) (a b : Z) :
  0 <= BASE_RETRY_DELAY_SECONDS cfg -> 0 <= random -> (a <= b)%Z ->
  computeBackoffSeconds cfg random a <= computeBackoffSeconds cfg random b /\
  ((b <= 1)%Z -> computeBackoffSeconds cfg random a = computeBackoffSeconds cfg random 1).
Proof.
  intros Hb Hr Hab. split.
  - unfold computeBackoffSeconds.
    pose proof (@backoffBase_monotone cfg a b Hb Hab) as Hm.
    apply Q.min_le_compat_r.
    assert (random * (2 # 10) * backoffBase cfg a <= random * (2 # 10) * backoffBase cfg b).
    { rewrite !(Qmult_comm (random * (2 # 10))).
      apply Qmult_le_compat_r; [exact Hm|].
      apply Qmult_le_0_compat; [exact Hr | discriminate]. }
    lra.
  - intro Hb1. unfold computeBackoffSeconds, backoffBase.
    replace (Z.max 0 (a - 1)) with 0%Z by lia. reflexivity.
Qed.

Lemma backoff_is_monotone_witness :
  computeBackoffSeconds defaults (1 # 2) 0 <= computeBackoffSeconds defaults (1 # 2) 1 /\
  ((1 <= 1)%Z ->
   computeBackoffSeconds defaults (1 # 2) 0 = computeBackoffSeconds defaults (1 # 2) 1).
Proof.
  apply (@backoff_is_monotone defaults (1 # 2) 0 1).
  - vm_compute. discriminate.
  - vm_compute. discriminate.
  - lia.
Defined.

End RetryProperties.

(** ** Batch sends *)
Section BatchProperties.
Import QueueMessages SqsService.

Lemma entriesFrom_ids (i : nat) (batch : list JobMessage) :
  map Id (entriesFrom i batch) = seq i (length batch).
Proof.
  revert i. induction batch as [|m rest IH]; intro i; [reflexivity|].
  cbn. rewrite IH. reflexivity.
Qed.

Lemma jobIdsAt_inside (batch : list JobMessage) (ids : list nat) :
  (forall n, In n ids -> n < length batch)%nat ->
  exists js, jobIdsAt batch ids = Some js /\
             forall n, In n ids -> exists m, nth_error batch n = Some m /\ In (job_id m) js.
Proof.
  induction ids as [|n rest IH]; intro H.
  - exists []. split; [reflexivity | intros n []].
  - destruct IH as (js & Hjs & Hin); [intros k Hk; apply H; right; exact Hk|].
    assert (Hn : (n < length batch)%nat) by (apply H; left; reflexivity).
    apply nth_error_Some in Hn.
    destruct (nth_error batch n) as [m|] eqn:E; [|congruence].
    exists (job_id m :: js). cbn [jobIdsAt]. rewrite E, Hjs.
    split; [reflexivity|].
    intros k [<- | Hk].
    + exists m. split; [exact E | left; reflexivity].
    + destruct (Hin k Hk) as (m' & Hm' & Hj). exists m'. split; [exact Hm' | right; exact Hj].
Qed.

Lemma jobIdsAt_outside (batch : list JobMessage) (ids : list nat) (n : nat) :
  In n ids -> (length batch <= n)%nat -> jobIdsAt batch ids = None.
Proof.
  intros Hin Hn. induction ids as [|k rest IH]; [contradiction|].
  cbn [jobIdsAt]. destruct Hin as [-> | Hin].
  - apply nth_error_None in Hn. rewrite Hn. reflexivity.
  - rewrite (IH Hin). destruct (nth_error batch k); reflexivity.
Qed.

Lemma jobIdsAt_files (batch : list JobMessage) (ids : list nat) (js : list string) :
  jobIdsAt batch ids = Some js -> Forall2 (filedAt batch) ids js.
Proof.
  revert js. induction ids as [|n rest IH]; intros js; cbn [jobIdsAt].
  - intro H; inversion H. constructor.
  - destruct (nth_error batch n) as [m|] eqn:E; [|discriminate].
    destruct (jobIdsAt batch rest) as [js'|]; [|discriminate].
    intro H; inversion H; subst. constructor; [|apply IH; reflexivity].
    exists m. split; [exact E | reflexivity].
Qed.

Variable respond : BatchRequest -> BatchAnswer.
Hypothesis echo : reportsEveryEntry respond.

(** X8: a batch of at most ten messages is sent in one request, and the two
    lists returned hold the job ids the provider reported as successful and
    as failed: entry by entry and in the order of the answer, the first list
    holds the job id of the message at each position reported under
    [Successful], the second that of the message at each position reported
    under [Failed].  With a provider that reports every entry, every message
    of the batch is accounted for in one of the lists. *)
Theorem enqueueBatch_up_to_ten (queue : string) (messages : list JobMessage) :
  Js.includes QUEUES queue = true ->
  messages <> [] -> (length messages <= 10)%nat ->
  let request := mkBatchRequest queue (entriesFrom 0 messages) in
  exists s f,
    enqueueBatch respond queue messages = ([request], Return (mkBatchOutput s f)) /\
    Forall2 (filedAt messages) (Successful (respond request)) s /\
    Forall2 (filedAt messages) (Failed (respond request)) f /\
    forall m, In m messages -> In (job_id m) (s ++ f).
Proof.
  intros Hq Hne Hlen request.
  unfold enqueueBatch.
  replace ((length messages + 9) / 10)%nat with 1%nat.
  2:{ apply Nat.div_unique with (r := (length messages - 1)%nat);
        destruct messages; try congruence; cbn [length] in *; lia. }
  cbn [enqueueBatchFrom]. unfold hasEntry. rewrite Hq. cbn [orb negb skipn].
  rewrite firstn_all2 by exact Hlen.
  fold request.
  pose proof (echo request) as He. cbn [Entries request] in He.
  rewrite entriesFrom_ids in He.
  destruct (jobIdsAt_inside messages (Successful (respond request))) as (s & Hs & HsIn).
  { intros n Hn. assert (In n (seq 0 (length messages)))
      by (apply He, in_or_app; left; exact Hn).
    apply in_seq in H. lia. }
  destruct (jobIdsAt_inside messages (Failed (respond request))) as (f & Hf & HfIn).
  { intros n Hn. assert (In n (seq 0 (length messages)))
      by (apply He, in_or_app; right; exact Hn).
    apply in_seq in H. lia. }
  rewrite Hs, Hf. exists s, f. split; [reflexivity|].
  split; [apply jobIdsAt_files; exact Hs|].
  split; [apply jobIdsAt_files; exact Hf|].
  intros m Hm. apply In_nth_error in Hm as [n Hn].
  assert (Hlt : (n < length messages)%nat) by (apply nth_error_Some; congruence).
  assert (Hrep : In n (Successful (respond request) ++ Failed (respond request)))
    by (apply He, in_seq; lia).
  apply in_or_app. apply in_app_or in Hrep as [Hr | Hr].
  - left. destruct (HsIn n Hr) as (m' & Hm' & Hj). congruence.
  - right. destruct (HfIn n Hr) as (m' & Hm' & Hj). congruence.
Qed.

(** X9: a batch of more than ten messages never completes.  The entries of
    the second request are numbered from 10 on, and the answer is read back
    with these numbers as positions inside the request of at most ten
    entries: with a provider that reports every entry, [enqueueBatch] throws
    after it has sent the first two requests, and returns no lists. *)
Theorem enqueueBatch_over_ten_throws (queue : string) (messages : list JobMessage) :
  Js.includes QUEUES queue = true ->
  (10 < length messages)%nat ->
  enqueueBatch respond queue messages =
    ([ mkBatchRequest queue (entriesFrom 0 (firstn 10 messages));
       mkBatchRequest queue (entriesFrom 10 (firstn 10 (skipn 10 messages))) ],
     Throw (typeError "Cannot read properties of undefined (reading 'job_id')")).
Proof.
  intros Hq Hlen.
  unfold enqueueBatch.
  assert (R : exists r, ((length messages + 9) / 10 = S (S r))%nat).
  { assert (2 <= (length messages + 9) / 10)%nat
      by (apply Nat.div_le_lower_bound; lia).
    destruct ((length messages + 9) / 10)%nat as [|[|r]]; try lia. exists r; reflexivity. }
  destruct R as [r ->].
  cbn [enqueueBatchFrom]. unfold hasEntry. rewrite Hq. cbn [orb negb skipn].
  (* the first request *)
  set (batch1 := firstn 10 messages).
  assert (L1 : length batch1 = 10%nat) by (unfold batch1; rewrite length_firstn; lia).
  set (request1 := mkBatchRequest queue (entriesFrom 0 batch1)).
  pose proof (echo request1) as He1. cbn [Entries request1] in He1.
  rewrite entriesFrom_ids, L1 in He1.
  destruct (jobIdsAt_inside batch1 (Successful (respond request1))) as (s & Hs & _).
  { intros n Hn. assert (In n (seq 0 10)) by (apply He1, in_or_app; left; exact Hn).
    apply in_seq in H. lia. }
  destruct (jobIdsAt_inside batch1 (Failed (respond request1))) as (f & Hf & _).
  { intros n Hn. assert (In n (seq 0 10)) by (apply He1, in_or_app; right; exact Hn).
    apply in_seq in H. lia. }
  rewrite Hs, Hf. cbn [app Nat.add].
  (* the second request *)
  set (batch2 := firstn 10 (skipn 10 messages)).
  assert (L2 : (0 < length batch2 <= 10)%nat).
  { unfold batch2. rewrite length_firstn, length_skipn. lia. }
  set (request2 := mkBatchRequest queue (entriesFrom 10 batch2)).
  pose proof (echo request2) as He2. cbn [Entries request2] in He2.
  rewrite entriesFrom_ids in He2.
  assert (Hrep : In 10%nat (Successful (respond request2) ++ Failed (respond request2)))
    by (apply He2, in_seq; lia).
  destruct (jobIdsAt batch2 (Successful (respond request2))) as [s2|] eqn:S2;
    [|reflexivity].
  apply in_app_or in Hrep as [Hr | Hr].
  - rewrite (jobIdsAt_outside batch2 _ Hr) in S2 by lia. discriminate.
  - rewrite (jobIdsAt_outside batch2 _ Hr) by lia. reflexivity.
Qed.

End BatchProperties.

(** A provider that reports every entry as successful, and batches of three
    and of twelve envelopes. *)
Lemma allSuccessful_reports : reportsEveryEntry allSuccessful.
Proof.
  intros request n. unfold allSuccessful. cbn [SqsService.Successful SqsService.Failed].
  rewrite app_nil_r. tauto.
Qed.

Lemma oddFailed_reports : reportsEveryEntry oddFailed.
Proof.
  intros request n. unfold oddFailed. cbn [SqsService.Successful SqsService.Failed].
  rewrite in_app_iff, !filter_In. unfold Nat.odd.
  destruct (Nat.even n); cbn [negb]; intuition discriminate.
Qed.

Lemma enqueueBatch_up_to_ten_witness :
  let request :=
    SqsService.mkBatchRequest "q_extract" (SqsService.entriesFrom 0 (envelopes 3)) in
  exists s f,
    SqsService.enqueueBatch oddFailed "q_extract" (envelopes 3) =
      ([request], Return (SqsService.mkBatchOutput s f)) /\
    Forall2 (filedAt (envelopes 3)) (SqsService.Successful (oddFailed request)) s /\
    Forall2 (filedAt (envelopes 3)) (SqsService.Failed (oddFailed request)) f /\
    forall m, In m (envelopes 3) -> In (QueueMessages.job_id m) (s ++ f).
Proof.
  apply (@enqueueBatch_up_to_ten oddFailed oddFailed_reports "q_extract" (envelopes 3)).
  - reflexivity.
  - discriminate.
  - vm_compute. lia.
Defined.

(** The batch of three with the second entry reported as failed. *)
Example batch_of_three_with_a_failure :
  SqsService.enqueueBatch oddFailed "q_extract" (envelopes 3) =
  ([SqsService.mkBatchRequest "q_extract" (SqsService.entriesFrom 0 (envelopes 3))],
   Return (SqsService.mkBatchOutput ["A"; "C"] ["B"])).
Proof. vm_compute. reflexivity. Qed.

Lemma enqueueBatch_over_ten_throws_witness :
  SqsService.enqueueBatch allSuccessful "q_extract" (envelopes 12) =
    ([ SqsService.mkBatchRequest "q_extract"
         (SqsService.entriesFrom 0 (firstn 10 (envelopes 12)));
       SqsService.mkBatchRequest "q_extract"
         (SqsService.entriesFrom 10 (firstn 10 (skipn 10 (envelopes 12)))) ],
     Throw (typeError "Cannot read properties of undefined (reading 'job_id')")).
Proof.
  apply (@enqueueBatch_over_ten_throws allSuccessful allSuccessful_reports "q_extract"
           (envelopes 12)).
  - reflexivity.
  - vm_compute. lia.
Defined.

(** ** The geolocation validator, further *)
Section GeoProperties.
Import Extraction GeoValidation.

Ltac levels :=
  cbn [valid issues adjustedConfidence shouldNullifyCoords suggestedFix
       acc_issues acc_confidence acc_nullify acc_fix finalConfidence length app
       Nat.eqb Nat.ltb Nat.leb andb negb];
  repeat split; intros; try discriminate; try reflexivity;
  try (vm_compute; discriminate); try (vm_compute; reflexivity).

(** X10: the confidence levels of the validator.  The adjusted confidence
    never exceeds 1.  A result that raises no issue keeps the point, suggests
    no fix and has a confidence of exactly 1 with coordinates and 0.5 without;
    any issue brings the confidence down to 0.5 or less; and the confidence
    of a point that is kept is always above 0.1, so the floor of 0.1 is never
    what decides the value.  (The least product of penalties is
    0.4 x 0.5 x 0.7; the bound is stated with the margin that also holds for
    the rounded product of the doubles.) *)
Theorem confidence_levels (e : Extraction.t) (r : GeoValidationResult) :
  validateGeolocation e = Return r ->
  adjustedConfidence r <= 1 /\
  (shouldNullifyCoords r = false -> 1 # 10 < adjustedConfidence r) /\
  (valid r = true ->
   issues r = [] /\ shouldNullifyCoords r = false /\ suggestedFix r = None /\
   adjustedConfidence r == (if hasPoint e then 1 else 1 # 2)) /\
  (valid r = false -> adjustedConfidence r <= 1 # 2).
Proof.
  unfold validateGeolocation, hasPoint.
  destruct (geometry (location e)) as [g|].
  2:{ intro H; inversion H; subst. levels. }
  destruct (coordinates g) as [[lng lat]|].
  2:{ intro H; inversion H; subst. levels. }
  rewrite checkSwapped_never_fires.
  destruct (outOfRangeb lng lat) eqn:O.
  - (* rejected *)
    set (a0 := mkAcc [] 1 false None).
    assert (N1 : acc_nullify (checkRanges lng lat a0) = true)
      by (rewrite checkRanges_nullify, O; reflexivity).
    assert (I1 : acc_issues (checkRanges lng lat a0) <> []).
    { unfold checkRanges, outOfRangeb in *.
      destruct (Js.Qltb lat (-90)), (Js.Qltb 90 lat), (Js.Qltb lng (-180)),
        (Js.Qltb 180 lng); simpl in *; try discriminate. }
    rewrite (checkCountry_rejected _ _ _ _ N1), (checkOcean_rejected _ _ _ _ N1).
    intro H; inversion H; subst; clear H.
    destruct (checkPrecision_keeps (precision g) (checkRanges lng lat a0)) as [N2 _].
    cbn [valid issues adjustedConfidence shouldNullifyCoords suggestedFix].
    unfold finalConfidence. rewrite N2, N1.
    assert (V : (length (acc_issues (checkPrecision (precision g)
                                       (checkRanges lng lat a0))) =? 0)%nat = false).
    { apply Nat.eqb_neq. unfold checkPrecision.
      destruct (_ && _); cbn [acc_issues]; [rewrite length_app; simpl; lia|].
      destruct (acc_issues (checkRanges lng lat a0)); [congruence | simpl; lia]. }
    rewrite V. repeat split; intros; try discriminate.
  - (* kept *)
    rewrite (checkRanges_fix_in_range _ _ _ O).
    unfold checkCountry. cbn [acc_nullify negb andb].
    destruct (negb (String.eqb (country (admin (location e))) "")).
    + destruct (checkCountryCoordinateMatch _ lng lat) as [[m sv]|]; [|discriminate].
      cbn [matches severeMismatch].
      destruct m; cbn [negb]; unfold checkOcean; cbn [acc_nullify negb];
        destruct (checkIfLikelyOcean lng lat && negb (isMarineEventExpected e));
        unfold checkPrecision; cbn [acc_issues app length Nat.ltb Nat.leb];
        destruct (Js.strictEqStr (precision g) (Some "exact")); cbn [andb];
        intro H; inversion H; subst; clear H; destruct sv; levels.
    + unfold checkOcean; cbn [acc_nullify negb];
        destruct (checkIfLikelyOcean lng lat && negb (isMarineEventExpected e));
        unfold checkPrecision; cbn [acc_issues app length Nat.ltb Nat.leb];
        destruct (Js.strictEqStr (precision g) (Some "exact")); cbn [andb];
        intro H; inversion H; subst; clear H; levels.
Qed.

(** The levels on the example of a point far outside its country. *)
Lemma confidence_levels_witness :
  (4 # 10) <= 1 /\
  (false = false -> 1 # 10 < 4 # 10) /\
  (false = true ->
   [OutsideCountry "United States" 95 40] = [] /\ false = false /\
   Some use_centroid = None /\
   (4 # 10) == (if hasPoint (pointExtraction 95 40 "United States") then 1 else 1 # 2)) /\
  (false = false -> (4 # 10) <= 1 # 2).
Proof.
  exact (@confidence_levels (pointExtraction 95 40 "United States")
           (mkResult false [OutsideCountry "United States" 95 40] (4 # 10) false
              (Some use_centroid))
           lat40_lng95_united_states).
Defined.

End GeoProperties.

(** ** Country centroids *)
Section CentroidProperties.
Import Extraction GeoValidation.

Lemma centroid_checks (key : string) (lng lat : Q) :
  assocCentroid key CENTROIDS = Some (lng, lat) ->
  (exists box, lookupBounds key = Own box /\
     let '(minLng, minLat, maxLng, maxLat) := box in
     Qle_bool (minLng - 2) lng && Qle_bool lng (maxLng + 2) &&
     Qle_bool (minLat - 2) lat && Qle_bool lat (maxLat + 2) = true) /\
  checkIfLikelyOcean lng lat = false /\
  outOfRangeb lng lat = false /\
  key <> "".
Proof.
  unfold CENTROIDS. cbn [assocCentroid].
  repeat match goal with
         | |- context [String.eqb ?k key] =>
             destruct (String.eqb k key) eqn:E;
             [apply String.eqb_eq in E; subst key; intro H; inversion H; subst;
              (split; [eexists; split; [reflexivity | vm_compute; reflexivity]|]);
              (split; [vm_compute; reflexivity|]);
              (split; [vm_compute; reflexivity | discriminate])
             | clear E]
         end.
  discriminate.
Qed.

(** X11: the fallback to the country centroid is safe.  Whenever
    [getCountryCentroid] returns coordinates for a country, however the name
    is capitalised or padded, a payload placed at those coordinates in that
    country passes the validator without any issue, with confidence 1: the
    centroid lies inside the bounding box the validator uses for the country
    and outside its ocean areas. *)
Theorem centroid_fallback_is_valid (e : Extraction.t) (country : string) (lng lat : Q) :
  getCountryCentroid country = Coordinates lng lat ->
  checkCountryCoordinateMatch country lng lat = Return (mkCountryCheck true false) /\
  validateGeolocation (placedAt e country lng lat) = Return (mkResult true [] 1 false None).
Proof.
  unfold getCountryCentroid.
  remember (Js.trim (Js.toLowerCase country)) as key eqn:Hk.
  destruct (assocCentroid key CENTROIDS) as [[x y]|] eqn:A.
  2:{ destruct (_ || _); discriminate. }
  intro H; inversion H; subst x y; clear H.
  destruct (centroid_checks key A) as ((box & Hbox & Hin) & Hocean & Hrange & Hne).
  assert (C : checkCountryCoordinateMatch country lng lat = Return (mkCountryCheck true false)).
  { unfold checkCountryCoordinateMatch. rewrite <- Hk, Hbox.
    destruct box as [[[minLng minLat] maxLng] maxLat]. cbv zeta. rewrite Hin. reflexivity. }
  split; [exact C|].
  assert (Hc : String.eqb country "" = false).
  { destruct country; [|reflexivity]. exfalso. apply Hne. rewrite Hk. reflexivity. }
  unfold validateGeolocation, placedAt.
  cbn [location geometry coordinates admin Extraction.country precision].
  rewrite checkSwapped_never_fires, (checkRanges_fix_in_range _ _ _ Hrange).
  unfold checkCountry. cbn [acc_nullify negb andb]. rewrite Hc. cbn [negb].
  rewrite C. cbn [matches negb].
  unfold checkOcean. cbn [acc_nullify negb]. rewrite Hocean. cbn [andb].
  reflexivity.
Qed.

Lemma centroid_fallback_is_valid_witness :
  checkCountryCoordinateMatch " Canada " (-1063468 # 10000) (561304 # 10000) =
    Return (mkCountryCheck true false) /\
  validateGeolocation (placedAt lat95lng40 " Canada " (-1063468 # 10000) (561304 # 10000)) =
    Return (mkResult true [] 1 false None).
Proof.
  apply (@centroid_fallback_is_valid lat95lng40 " Canada ").
  vm_compute. reflexivity.
Defined.

End CentroidProperties.

(** ** Text similarity *)
Section TextProperties.
Import Store EventCluster.

Lemma includes_In (l : list string) (x : string) : Js.includes l x = true <-> In x l.
Proof.
  unfold Js.includes. rewrite existsb_exists. split.
  - intros (y & Hy & E). apply String.eqb_eq in E. subst. exact Hy.
  - intro H. exists x. split; [exact H | apply String.eqb_refl].
Qed.

Lemma same_elements_same_length (l l' : list string) :
  NoDup l -> NoDup l' -> (forall x, In x l <-> In x l') -> length l = length l'.
Proof.
  intros N N' H. apply Nat.le_antisymm; apply NoDup_incl_length; try assumption;
    intros x Hx; apply H; exact Hx.
Qed.

Lemma mkSet_length (l l' : list string) :
  (forall x, In x l <-> In x l') -> length (Js.mkSet l) = length (Js.mkSet l').
Proof.
  intro H. unfold Js.mkSet.
  apply same_elements_same_length; try apply NoDup_nodup.
  intro x. rewrite !nodup_In. apply H.
Qed.

Lemma calculateTextSimilarity_symmetric (text1 text2 : string) :
  calculateTextSimilarity text1 text2 = calculateTextSimilarity text2 text1.
Proof.
  unfold calculateTextSimilarity.
  set (words1 := Js.mkSet (tokenize text1)).
  set (words2 := Js.mkSet (tokenize text2)).
  rewrite (andb_comm (length words1 =? 0)%nat), (orb_comm (length words1 =? 0)%nat).
  destruct ((length words2 =? 0)%nat && (length words1 =? 0)%nat); [reflexivity|].
  destruct ((length words2 =? 0)%nat || (length words1 =? 0)%nat); [reflexivity|].
  unfold size.
  rewrite (mkSet_length (filter (Js.includes words2) words1)
             (filter (Js.includes words1) words2)).
  - rewrite (mkSet_length (words1 ++ words2) (words2 ++ words1)); [reflexivity|].
    intro x. rewrite !in_app_iff. tauto.
  - intro x. rewrite !filter_In, !includes_In. tauto.
Qed.

Lemma calculateTextSimilarity_identical (text : string) :
  calculateTextSimilarity text text == 1.
Proof.
  unfold calculateTextSimilarity.
  set (words := Js.mkSet (tokenize text)).
  destruct (length words =? 0)%nat eqn:E; [reflexivity|]. cbn [andb orb].
  assert (Hne : words <> []).
  { intro H. rewrite H in E. discriminate. }
  assert (N : NoDup words) by apply NoDup_nodup.
  assert (L1 : length (Js.mkSet (filter (Js.includes words) words)) = length words).
  { unfold Js.mkSet at 1. apply same_elements_same_length; [apply NoDup_nodup | exact N|].
    intro x. rewrite nodup_In, filter_In, includes_In. tauto. }
  assert (L2 : length (Js.mkSet (words ++ words)) = length words).
  { unfold Js.mkSet at 1. apply same_elements_same_length; [apply NoDup_nodup | exact N|].
    intro x. rewrite nodup_In, in_app_iff. tauto. }
  unfold size. rewrite L1, L2.
  pose proof (size_pos Hne) as Hp. unfold size in Hp.
  field. intro H. rewrite H in Hp. exact (Qlt_irrefl 0 Hp).
Qed.

(** X12: the text similarity is a symmetric measure between 0 and 1 that
    does not look at letter case: swapping the two texts gives the same
    value, a text compared with itself scores 1 (also when it has no
    significant word at all), and lower-casing a text does not change the
    value. *)
Theorem text_similarity_measure (text1 text2 : string) :
  0 <= calculateTextSimilarity text1 text2 <= 1 /\
  calculateTextSimilarity text1 text2 = calculateTextSimilarity text2 text1 /\
  calculateTextSimilarity text1 text1 == 1 /\
  calculateTextSimilarity (Js.toLowerCase text1) text2 =
    calculateTextSimilarity text1 text2.
Proof.
  split; [apply calculateTextSimilarity_bounds|].
  split; [apply calculateTextSimilarity_symmetric|].
  split; [apply calculateTextSimilarity_identical|].
  unfold calculateTextSimilarity, tokenize.
  rewrite toLowerCase_idempotent. reflexivity.
Qed.

End TextProperties.

(** ** The candidate search *)
Section CandidateProperties.
Import Store EventCluster.

Variable M : MathLib.
Variable coordColumn : NumericColumn.

Lemma mapped_hasCoordinates (row : Event.t) :
  hasCoordinates (mapToClusteringEvent coordColumn row) = true ->
  truthy coordColumn (Event.latitude row) = true /\
  truthy coordColumn (Event.longitude row) = true /\
  latitude (mapToClusteringEvent coordColumn row) = Event.latitude row /\
  longitude (mapToClusteringEvent coordColumn row) = Event.longitude row.
Proof.
  unfold hasCoordinates. cbn [mapToClusteringEvent latitude longitude].
  destruct (truthy coordColumn (Event.latitude row)),
           (truthy coordColumn (Event.longitude row));
    cbn [Js.truthyNum andb]; rewrite ?andb_false_r; intro H; try discriminate;
    repeat split; reflexivity.
Qed.

(** What the query and the two filters let through. *)
Lemma candidate_passed (event c : EventForClustering) (db : Db) :
  In c (findCandidateMatches M coordColumn event db) ->
  exists row,
    In row (events db) /\ c = mapToClusteringEvent coordColumn row /\
    (negb (Event.id row =? id event)%Z &&
     String.eqb (Event.eventTypePrimary row) (eventTypePrimary event) &&
     String.eqb (Event.country row) (country event) &&
     (createdAt event - TIME_WINDOW_HOURS * 3600000 <=? Event.createdAt row)%Z) = true /\
    (if hasCoordinates event then withinDistance M coordColumn event row
     else sameAdmin1 event row) = true.
Proof.
  unfold findCandidateMatches, hasCoordinates.
  destruct (Js.truthyNum (latitude event) && Js.truthyNum (longitude event));
    intro H; apply in_map_iff in H as (row & Hc & Hin);
    apply filter_In in Hin as [Hin Hp];
    unfold queryCandidates in Hin;
    apply In_firstn, In_sortDesc, filter_In in Hin as [Hin Hq];
    exists row; (split; [exact Hin|]); (split; [symmetry; exact Hc|]);
    (split; [exact Hq | exact Hp]).
Qed.

(** X13: the candidates of an event are at most 50 stored events other than
    the event itself, of the same primary type and country, created no
    earlier than 72 hours before it.  When the event has coordinates, a
    candidate with coordinates lies within 50 km of it; when it has none, a
    candidate that names a subdivision names the same one as the event, if
    the event names one. *)
Theorem candidates_are_recent_neighbours (event : EventForClustering) (db : Db) :
  (length (findCandidateMatches M coordColumn event db) <= 50)%nat /\
  Forall (fun c =>
            id c <> id event /\
            eventTypePrimary c = eventTypePrimary event /\
            country c = country event /\
            (createdAt event - 72 * 3600000 <= createdAt c)%Z /\
            (hasCoordinates event = true -> hasCoordinates c = true ->
             distanceBetween M event c <= 50) /\
            (hasCoordinates event = false ->
             Js.truthyStr (admin1 event) = true -> Js.truthyStr (admin1 c) = true ->
             admin1 c = admin1 event))
         (findCandidateMatches M coordColumn event db).
Proof.
  split.
  - unfold findCandidateMatches.
    assert (L : forall p,
               (length (map (mapToClusteringEvent coordColumn)
                          (filter p (queryCandidates event db))) <= 50)%nat).
    { intro p. rewrite length_map.
      apply Nat.le_trans with (length (queryCandidates event db));
        [apply filter_length_le|].
      unfold queryCandidates. apply firstn_le_length. }
    destruct (Js.truthyNum (latitude event) && Js.truthyNum (longitude event)); apply L.
  - apply Forall_forall. intros c Hin.
    apply candidate_passed in Hin as (row & _ & -> & Hq & Hp).
    apply andb_prop in Hq as [Hq Htime].
    apply andb_prop in Hq as [Hq Hcountry].
    apply andb_prop in Hq as [Hid Htype].
    apply negb_true_iff, Z.eqb_neq in Hid.
    apply String.eqb_eq in Htype, Hcountry.
    apply Z.leb_le in Htime.
    split; [exact Hid|]. split; [exact Htype|]. split; [exact Hcountry|].
    split; [exact Htime|]. split.
    + intros He Hc. rewrite He in Hp.
      apply mapped_hasCoordinates in Hc as (Hlat & Hlng & Elat & Elng).
      unfold withinDistance in Hp. rewrite Hlat, Hlng in Hp. cbn [negb orb] in Hp.
      apply Qle_bool_iff in Hp.
      unfold distanceBetween. rewrite Elat, Elng. exact Hp.
    + intros He Ha Hc. rewrite He in Hp.
      cbn [mapToClusteringEvent admin1] in *.
      unfold sameAdmin1 in Hp. rewrite Ha, Hc in Hp. cbn [negb] in Hp.
      rewrite !orb_false_r in Hp.
      destruct (Event.admin1 row) as [x|]; [|discriminate Hc].
      destruct (admin1 event) as [y|]; [|discriminate Ha].
      cbn [Js.strictEqStr] in Hp. apply String.eqb_eq in Hp. congruence.
Qed.

End CandidateProperties.

(** ** The store after a merge decided by [clusterEvent] *)
Section MergeProperties.
Import Store EventCluster.

Variable M : MathLib.
Variable coordColumn : NumericColumn.

(** The rows behind a merge: the absorbed event is the one loaded, the
    surviving one is another stored row. *)
Lemma merged_rows (now eventId : Z) (db db' : Db) (r : ClusterResult.t) :
  clusterEvent M coordColumn now eventId db = (db', Return r) ->
  ClusterResult.action r = merged ->
  exists primaryRow absorbedRow,
    In primaryRow (events db) /\ Event.id primaryRow <> eventId /\
    findEvent eventId (events db) = Some absorbedRow /\
    mergeEvents now (mapToClusteringEvent coordColumn primaryRow)
      (mapToClusteringEvent coordColumn absorbedRow) db = (db', Return r).
Proof.
  intros H Hm.
  apply clusterEvent_returns in H as (newEvent & Hload & [[_ ->] | (best & Hb & Hmerge)]);
    [discriminate|].
  apply loadEventForClustering_some in Hload as (absorbedRow & Hfind & -> & Hid).
  apply bestMatch_some in Hb as (Hin & _ & _).
  apply candidate_is_row in Hin as (primaryRow & Hrow & Hcand & Hne).
  exists primaryRow, absorbedRow.
  split; [exact Hrow|]. split; [rewrite <- Hid; exact Hne|].
  split; [exact Hfind|]. rewrite <- Hcand. exact Hmerge.
Qed.

Lemma map_id_at (i : Z) (f : Event.t -> Event.t) (es : list Event.t) :
  (forall x, Event.id (f x) = Event.id x) ->
  map Event.id (map (at_ i f) es) = map Event.id es.
Proof.
  intro H. rewrite map_map. apply map_ext. intro e. apply at_id. exact H.
Qed.

Lemma transferSources_moves (from to : Z) (db db' : Db) :
  from <> to ->
  eventSources db' = transferSources from to (eventSources db) ->
  sourcesOf from db' = [] /\
  length (sourcesOf to db') = (length (sourcesOf to db) + length (sourcesOf from db))%nat /\
  (forall k, k <> from -> k <> to -> sourcesOf k db' = sourcesOf k db) /\
  map EventSource.id (eventSources db') = map EventSource.id (eventSources db).
Proof.
  intros Hne Hs. unfold sourcesOf. rewrite Hs. clear Hs.
  unfold transferSources, updateWhere.
  induction (eventSources db) as [|s ss (IH1 & IH2 & IH3 & IH4)].
  - repeat split; reflexivity.
  - cbn [map filter].
    destruct (EventSource.eventId s) as [i|] eqn:E.
    + destruct (i =? from)%Z eqn:F.
      * apply Z.eqb_eq in F. subst i. cbn [EventSource.eventId EventSource.id].
        assert (T : (to =? from)%Z = false) by (apply Z.eqb_neq; congruence).
        assert (T' : (from =? to)%Z = false) by (apply Z.eqb_neq; congruence).
        rewrite T, T', Z.eqb_refl. cbn [length].
        split; [exact IH1|]. split; [rewrite IH2; lia|].
        split; [|rewrite IH4; reflexivity].
        intros k Hk1 Hk2.
        assert (K1 : (to =? k)%Z = false) by (apply Z.eqb_neq; congruence).
        assert (K2 : (from =? k)%Z = false) by (apply Z.eqb_neq; congruence).
        rewrite K1, K2. apply IH3; assumption.
      * rewrite E, F.
        split; [exact IH1|].
        split; [destruct (i =? to)%Z; cbn [length]; rewrite IH2; lia|].
        split; [|rewrite IH4; reflexivity].
        intros k Hk1 Hk2. rewrite (IH3 k Hk1 Hk2). reflexivity.
    + rewrite E.
      split; [exact IH1|]. split; [exact IH2|].
      split; [exact IH3 | rewrite IH4; reflexivity].
Qed.

(** X14: what a merge decided by [clusterEvent] does to the store.  The
    surviving event is another event than the one clustered, and the result
    names the clustered event as the only one merged.  No event row is added
    or removed; the clustered event gets the status 'merged' and points at
    the surviving event.  Its sources all move to the surviving event (none
    is left behind, none is lost, the sources of other events stay where they
    are), and the extraction records are not touched. *)
Theorem merge_bookkeeping (now eventId : Z) (db db' : Db) (r : ClusterResult.t) :
  clusterEvent M coordColumn now eventId db = (db', Return r) ->
  ClusterResult.action r = merged ->
  ClusterResult.primaryEventId r <> eventId /\
  ClusterResult.mergedEventIds r = [eventId] /\
  map Event.id (events db') = map Event.id (events db) /\
  statusOf eventId db' = Some "merged" /\
  mergedIntoOf eventId db' = Some (Some (ClusterResult.primaryEventId r)) /\
  sourcesOf eventId db' = [] /\
  length (sourcesOf (ClusterResult.primaryEventId r) db') =
    (length (sourcesOf (ClusterResult.primaryEventId r) db) +
     length (sourcesOf eventId db))%nat /\
  (forall k, k <> eventId -> k <> ClusterResult.primaryEventId r ->
             sourcesOf k db' = sourcesOf k db) /\
  map EventSource.id (eventSources db') = map EventSource.id (eventSources db) /\
  sourceExtractions db' = sourceExtractions db.
Proof.
  intros H Hm.
  destruct (merged_rows _ _ _ H Hm) as (primaryRow & absorbedRow & _ & Hne & Hfind & Hmerge).
  apply mergeEvents_returns in Hmerge as (He & Hs & Hx & _ & -> & _).
  pose proof (findEvent_id _ _ Hfind) as [Hid _].
  cbn [mapToClusteringEvent id] in He, Hs.
  cbn [ClusterResult.primaryEventId ClusterResult.mergedEventIds mapToClusteringEvent id].
  rewrite Hid in *.
  assert (Hne' : eventId <> Event.id primaryRow) by congruence.
  destruct (@transferSources_moves eventId (Event.id primaryRow) db db' Hne' Hs)
    as (S1 & S2 & S3 & S4).
  split; [exact Hne|]. split; [reflexivity|].
  split; [rewrite He, !map_id_at by reflexivity; reflexivity|].
  assert (R : findEvent eventId (events db') =
              Some (markMerged (Event.id primaryRow) absorbedRow)).
  { rewrite He, !findEvent_map, Hfind
      by (intro x; apply at_id; intro y; reflexivity).
    cbn [option_map]. unfold at_ at 2.
    rewrite Hid. apply Z.eqb_neq in Hne'. rewrite Hne'.
    unfold at_. rewrite Hid, Z.eqb_refl. reflexivity. }
  split; [unfold statusOf; rewrite R; reflexivity|].
  split; [unfold mergedIntoOf; rewrite R; reflexivity|].
  split; [exact S1|]. split; [exact S2|]. split; [exact S3|].
  split; [exact S4 | exact Hx].
Qed.

Lemma findEvent_unique (es : list Event.t) (row : Event.t) :
  NoDup (map Event.id es) -> In row es -> findEvent (Event.id row) es = Some row.
Proof.
  unfold findEvent. induction es as [|e es IH]; [intros _ []|].
  cbn [map find]. intros N Hin. inversion N as [|x l Hx N']; subst.
  destruct (Event.id e =? Event.id row)%Z eqn:E.
  - destruct Hin as [-> | Hin]; [reflexivity|].
    exfalso. apply Hx. apply Z.eqb_eq in E. rewrite E. apply in_map. exact Hin.
  - destruct Hin as [-> | Hin]; [rewrite Z.eqb_refl in E; discriminate|].
    apply IH; assumption.
Qed.

(** X15: when the keys of the events are distinct, the surviving event of a
    merge ends with the higher of the two severity levels: a merge never
    lowers the severity of the surviving event and never loses a higher
    severity of the absorbed one. *)
Theorem merge_keeps_the_higher_severity (now eventId : Z) (db db' : Db)
    (r : ClusterResult.t) :
  NoDup (map Event.id (events db)) ->
  clusterEvent M coordColumn now eventId db = (db', Return r) ->
  ClusterResult.action r = merged ->
  exists surviving absorbed,
    severityOf (ClusterResult.primaryEventId r) db = Some surviving /\
    severityOf eventId db = Some absorbed /\
    severityOf (ClusterResult.primaryEventId r) db' = Some (Z.max surviving absorbed).
Proof.
  intros N H Hm.
  destruct (merged_rows _ _ _ H Hm) as (primaryRow & absorbedRow & Hin & Hne & Hfind & Hmerge).
  apply mergeEvents_returns in Hmerge as (He & _ & _ & _ & -> & _).
  pose proof (findEvent_id _ _ Hfind) as [Hid _].
  pose proof (findEvent_unique _ _ N Hin) as Hp.
  cbn [mapToClusteringEvent id] in He.
  cbn [ClusterResult.primaryEventId mapToClusteringEvent id].
  exists (Event.severityLevel primaryRow), (Event.severityLevel absorbedRow).
  unfold severityOf. rewrite Hp, Hfind.
  split; [reflexivity|]. split; [reflexivity|].
  rewrite He, !findEvent_map, Hp by (intro x; apply at_id; intro y; reflexivity).
  cbn [option_map]. unfold at_ at 2. rewrite Z.eqb_refl.
  unfold at_. rewrite absorb_id, Hid.
  apply Z.eqb_neq in Hne. rewrite Hne.
  cbn [absorb Event.severityLevel mapToClusteringEvent severityLevel].
  f_equal.
  destruct (Event.severityLevel primaryRow <? Event.severityLevel absorbedRow)%Z eqn:L;
    [apply Z.ltb_lt in L | apply Z.ltb_ge in L]; lia.
Qed.

(** X16: after a merge the cluster asked for the absorbed event lists both
    the absorbed and the surviving event. *)
Theorem cluster_lists_both_events_after_a_merge (now eventId : Z) (db db' : Db)
    (r : ClusterResult.t) :
  clusterEvent M coordColumn now eventId db = (db', Return r) ->
  ClusterResult.action r = merged ->
  In eventId (map id (getEventCluster coordColumn eventId db')) /\
  In (ClusterResult.primaryEventId r) (map id (getEventCluster coordColumn eventId db')).
Proof.
  intros H Hm.
  destruct (merged_rows _ _ _ H Hm) as (primaryRow & absorbedRow & Hin & Hne & Hfind & Hmerge).
  pose proof (mergeEvents_primary_row _ _ _ _ Hmerge) as (prow' & Hp' & _).
  apply mergeEvents_returns in Hmerge as (He & _ & _ & _ & -> & _).
  pose proof (findEvent_id _ _ Hfind) as [Hid _].
  cbn [mapToClusteringEvent id] in He, Hp'.
  cbn [ClusterResult.primaryEventId mapToClusteringEvent id].
  assert (Hne' : eventId <> Event.id primaryRow) by congruence.
  assert (R : findEvent eventId (events db') =
              Some (markMerged (Event.id primaryRow) absorbedRow)).
  { rewrite He, !findEvent_map, Hfind
      by (intro x; apply at_id; intro y; reflexivity).
    cbn [option_map]. unfold at_ at 2.
    rewrite Hid. apply Z.eqb_neq in Hne'. rewrite Hne'.
    unfold at_. rewrite Hid, Z.eqb_refl. reflexivity. }
  unfold getEventCluster. rewrite R. cbn [markMerged Event.mergedIntoId].
  rewrite map_map. cbn [mapToClusteringEvent id].
  split.
  - apply in_map_iff. exists (markMerged (Event.id primaryRow) absorbedRow).
    split; [exact Hid|].
    apply filter_In. split; [exact (proj2 (findEvent_id _ _ R))|].
    cbn [markMerged Event.mergedIntoId]. rewrite Z.eqb_refl. apply orb_true_r.
  - apply in_map_iff. exists prow'.
    destruct (findEvent_id _ _ Hp') as [Hpid Hpin].
    split; [exact Hpid|].
    apply filter_In. split; [exact Hpin|].
    rewrite Hpid, Z.eqb_refl. reflexivity.
Qed.

End MergeProperties.

Section MergeExamples.
Import Store EventCluster.

Lemma merge_bookkeeping_witness :
  statusOf 2 (fst (clusterEvent approxMath FloatColumn 1700000900000 2
                     yosemiteWithSources)) = Some "merged" /\
  sourcesOf 2 (fst (clusterEvent approxMath FloatColumn 1700000900000 2
                      yosemiteWithSources)) = [] /\
  length (sourcesOf 1 (fst (clusterEvent approxMath FloatColumn 1700000900000 2
                              yosemiteWithSources))) =
    (length (sourcesOf 1 yosemiteWithSources) +
     length (sourcesOf 2 yosemiteWithSources))%nat.
Proof.
  pose proof (@merge_bookkeeping approxMath FloatColumn 1700000900000 2
                yosemiteWithSources
                (fst (clusterEvent approxMath FloatColumn 1700000900000 2
                        yosemiteWithSources))
                (ClusterResult.mk merged 1 [2%Z] (inject_Z 1 * SOURCE_CONFIDENCE_BOOST) 2)
                eq_refl eq_refl)
    as (_ & _ & _ & H4 & _ & H6 & H7 & _).
  split; [exact H4|]. split; [exact H6 | exact H7].
Defined.

Lemma merge_keeps_the_higher_severity_witness :
  exists surviving absorbed,
    severityOf 1 yosemiteWithSources = Some surviving /\
    severityOf 2 yosemiteWithSources = Some absorbed /\
    severityOf 1 (fst (clusterEvent approxMath FloatColumn 1700000900000 2
                         yosemiteWithSources)) = Some (Z.max surviving absorbed).
Proof.
  apply (@merge_keeps_the_higher_severity approxMath FloatColumn 1700000900000 2
           yosemiteWithSources
           (fst (clusterEvent approxMath FloatColumn 1700000900000 2 yosemiteWithSources))
           (ClusterResult.mk merged 1 [2%Z] (inject_Z 1 * SOURCE_CONFIDENCE_BOOST) 2)).
  - repeat constructor; cbn; intuition lia.
  - vm_compute. reflexivity.
  - reflexivity.
Defined.

Lemma cluster_lists_both_events_after_a_merge_witness :
  In 2%Z (map id
            (getEventCluster FloatColumn 2
               (fst (clusterEvent approxMath FloatColumn 1700000900000 2
                       yosemiteWithSources)))) /\
  In 1%Z (map id
            (getEventCluster FloatColumn 2
               (fst (clusterEvent approxMath FloatColumn 1700000900000 2
                       yosemiteWithSources)))).
Proof.
  apply (@cluster_lists_both_events_after_a_merge approxMath FloatColumn 1700000900000 2
           yosemiteWithSources
           (fst (clusterEvent approxMath FloatColumn 1700000900000 2 yosemiteWithSources))
           (ClusterResult.mk merged 1 [2%Z] (inject_Z 1 * SOURCE_CONFIDENCE_BOOST) 2)).
  - vm_compute. reflexivity.
  - reflexivity.
Defined.

End MergeExamples.

(** ** What the decision depends on *)
Section DecisionProperties.
Import Store EventCluster.

Variable M : MathLib.
Variable coordColumn : NumericColumn.

Lemma filter_map_comm {A : Type} (p : A -> bool) (g : A -> A) (l : list A) :
  (forall x, p (g x) = p x) -> filter p (map g l) = map g (filter p l).
Proof.
  intro H. induction l as [|x l IH]; [reflexivity|].
  cbn [map filter]. rewrite H, IH. destruct (p x); reflexivity.
Qed.

Lemma insertDesc_map {A K : Type} (key : A -> K) (gtb : K -> K -> bool) (g : A -> A)
    (x : A) (l : list A) :
  (forall y, key (g y) = key y) ->
  insertDesc key gtb (g x) (map g l) = map g (insertDesc key gtb x l).
Proof.
  intro H. induction l as [|y l IH]; [reflexivity|].
  cbn [map insertDesc]. rewrite !H.
  destruct (gtb (key y) (key x)); cbn [map]; [rewrite IH|]; reflexivity.
Qed.

Lemma sortDesc_map {A K : Type} (key : A -> K) (gtb : K -> K -> bool) (g : A -> A)
    (l : list A) :
  (forall y, key (g y) = key y) ->
  sortDesc key gtb (map g l) = map g (sortDesc key gtb l).
Proof.
  intro H. unfold sortDesc. induction l as [|x l IH]; [reflexivity|].
  cbn [map fold_right]. rewrite IH. apply insertDesc_map. exact H.
Qed.

Lemma mapped_setStatus (j : Z) (status : string) (into : option Z) (row : Event.t) :
  mapToClusteringEvent coordColumn (at_ j (setStatus status into) row) =
  mapToClusteringEvent coordColumn row.
Proof. unfold at_. destruct (Event.id row =? j)%Z; reflexivity. Qed.

Lemma candidates_withStatus (event : EventForClustering) (j : Z) (status : string)
    (into : option Z) (db : Db) :
  findCandidateMatches M coordColumn event (withStatus j status into db) =
  findCandidateMatches M coordColumn event db.
Proof.
  set (g := at_ j (setStatus status into)).
  assert (G : forall f : Event.t -> bool,
             (forall x, f (g x) = f x) -> forall l, filter f (map g l) = map g (filter f l))
    by (intros f Hf l; apply filter_map_comm; exact Hf).
  assert (Q : queryCandidates event (withStatus j status into db) =
              map g (queryCandidates event db)).
  { unfold queryCandidates, withStatus. cbn [events]. fold g.
    rewrite G, sortDesc_map, firstn_map; [reflexivity| |];
      intro x; unfold g, at_; destruct (Event.id x =? j)%Z; reflexivity. }
  unfold findCandidateMatches. rewrite Q.
  destruct (Js.truthyNum (latitude event) && Js.truthyNum (longitude event));
    (rewrite G, map_map;
     [apply map_ext; intro x; apply mapped_setStatus
     | intro x; unfold g, at_; destruct (Event.id x =? j)%Z; reflexivity]).
Qed.

(** X17: the status of the stored events plays no part in the decision:
    whatever status and merge target any one event carries ('active',
    'merged', 'archived', ...), [clusterEvent] returns the same result; so
    an event that was itself merged or archived is still found as a candidate
    and still absorbs the event. *)
Theorem clusterEvent_never_reads_a_status (now eventId j : Z) (status : string)
    (into : option Z) (db : Db) :
  snd (clusterEvent M coordColumn now eventId (withStatus j status into db)) =
  snd (clusterEvent M coordColumn now eventId db).
Proof.
  assert (F : forall i,
             findEvent i (events (withStatus j status into db)) =
             option_map (at_ j (setStatus status into)) (findEvent i (events db))).
  { intro i. unfold withStatus. cbn [events].
    apply findEvent_map. intro x. apply at_id. intro y. reflexivity. }
  unfold clusterEvent, loadEventForClustering. rewrite F.
  destruct (findEvent eventId (events db)) as [row|]; [|reflexivity].
  cbn [option_map]. rewrite mapped_setStatus, candidates_withStatus.
  set (newEvent := mapToClusteringEvent coordColumn row).
  destruct (length (findCandidateMatches M coordColumn newEvent db) =? 0)%nat;
    [reflexivity|].
  destruct (bestMatch M newEvent _) as [best|]; [|reflexivity].
  rewrite !mergeEvents_outcome, !F.
  destruct (findEvent (id (candidate best)) (events db)), (findEvent (id newEvent) (events db));
    reflexivity.
Qed.

Lemma lacking_scores_low (e1 e2 : EventForClustering) :
  lacksPlaceAndTime e1 e2 -> calculateSimilarity M e1 e2 <= 6 # 10.
Proof.
  intros (Hc & Ha & Hd).
  rewrite calculateSimilarity_sum.
  pose proof (calculateTextSimilarity_bounds (title e1) (title e2)) as Ht.
  pose proof (calculateTextSimilarity_bounds (summaryShort e1) (summaryShort e2)) as Hs.
  assert (Hty : typeComponent e1 e2 <= 2 # 10)
    by (unfold typeComponent; destruct (String.eqb _ _); lra).
  assert (Hg : geoComponent M e1 e2 == 0)
    by (unfold geoComponent; rewrite Hc, Ha; reflexivity).
  assert (Htm : temporalComponent e1 e2 == 0).
  { unfold temporalComponent. destruct Hd as [-> | ->]; [reflexivity|].
    destruct (startDate e1); reflexivity. }
  unfold titleComponent, summaryComponent. lra.
Qed.

(** X18: an event is never merged into a candidate with which it shares
    neither a place (coordinates on both sides, or the same named
    subdivision) nor a start date: type, title and summary together weigh
    0.6, which is below the threshold of 0.7, however alike the texts are. *)
Theorem no_merge_without_place_or_time (newEvent : EventForClustering)
    (candidates : list EventForClustering) :
  Forall (lacksPlaceAndTime newEvent) candidates ->
  Forall (fun c => calculateSimilarity M newEvent c <= 6 # 10) candidates /\
  bestMatch M newEvent candidates = None.
Proof.
  intro H. split.
  - apply Forall_forall. intros c Hc. apply lacking_scores_low.
    exact (proj1 (Forall_forall _ _) H c Hc).
  - destruct (bestMatch M newEvent candidates) as [best|] eqn:B; [|reflexivity].
    apply bestMatch_some in B as (Hin & Hs & Hle).
    pose proof (lacking_scores_low (proj1 (Forall_forall _ _) H _ Hin)) as Hlow.
    rewrite Hs in Hle. unfold MIN_SIMILARITY_SCORE in Hle. lra.
Qed.

(** X19: between two candidates that differ only in their coordinates, the
    one closer to the event never scores lower; beyond 50 km the distance
    makes no difference any more. *)
Theorem closer_candidate_scores_no_lower (e c c' : EventForClustering) :
  hasCoordinates e = true -> hasCoordinates c = true -> hasCoordinates c' = true ->
  sameButPlace c c' ->
  (distanceBetween M e c <= distanceBetween M e c' ->
   calculateSimilarity M e c' <= calculateSimilarity M e c) /\
  (50 <= distanceBetween M e c -> 50 <= distanceBetween M e c' ->
   calculateSimilarity M e c' == calculateSimilarity M e c).
Proof.
  intros He Hc Hc' (Hty & Hti & Hsu & Hst).
  rewrite !calculateSimilarity_sum.
  unfold typeComponent, titleComponent, summaryComponent, temporalComponent, geoComponent.
  rewrite He, Hc, Hc', Hty, Hti, Hsu, Hst. cbn [andb].
  set (rest := (if String.eqb (eventTypePrimary e) (eventTypePrimary c') then 2 # 10 else 0)).
  unfold closeness, MAX_DISTANCE_KM.
  set (d := distanceBetween M e c). set (d' := distanceBetween M e c').
  split.
  - intro Hd.
    assert (Qmax 0 (1 - d' / 50) <= Qmax 0 (1 - d / 50)).
    { apply Q.max_le_compat; [lra|].
      assert (d / 50 <= d' / 50) by (apply Qmult_le_compat_r; [exact Hd | discriminate]).
      lra. }
    lra.
  - intros Hd Hd'.
    assert (Z1 : Qmax 0 (1 - d / 50) == 0).
    { apply Q.max_l.
      assert (50 / 50 <= d / 50) by (apply Qmult_le_compat_r; [exact Hd | discriminate]).
      assert (50 / 50 == 1) by reflexivity. lra. }
    assert (Z2 : Qmax 0 (1 - d' / 50) == 0).
    { apply Q.max_l.
      assert (50 / 50 <= d' / 50) by (apply Qmult_le_compat_r; [exact Hd' | discriminate]).
      assert (50 / 50 == 1) by reflexivity. lra. }
    rewrite Z1, Z2. reflexivity.
Qed.

End DecisionProperties.

Section DecisionExamples.
Import Store EventCluster.

Lemma no_merge_without_place_or_time_witness :
  Forall (fun c => calculateSimilarity approxMath (undatedReport 2) c <= 6 # 10)
         [undatedReport 1] /\
  bestMatch approxMath (undatedReport 2) [undatedReport 1] = None.
Proof.
  apply (@no_merge_without_place_or_time approxMath (undatedReport 2) [undatedReport 1]).
  repeat constructor.
Defined.

Lemma closer_candidate_scores_no_lower_witness :
  calculateSimilarity approxMath (reportAt 2 (377 # 10) (-1195 # 10))
    (reportAt 3 (379 # 10) (-1195 # 10)) <=
  calculateSimilarity approxMath (reportAt 2 (377 # 10) (-1195 # 10))
    (reportAt 1 (378 # 10) (-1195 # 10)).
Proof.
  apply (proj1 (@closer_candidate_scores_no_lower approxMath
                  (reportAt 2 (377 # 10) (-1195 # 10))
                  (reportAt 1 (378 # 10) (-1195 # 10))
                  (reportAt 3 (379 # 10) (-1195 # 10))
                  eq_refl eq_refl eq_refl
                  (conj eq_refl (conj eq_refl (conj eq_refl eq_refl))))).
  vm_compute. discriminate.
Defined.

End DecisionExamples.

(** ** The extraction job, path by path *)
Section ExtractProperties.
Import Store QueueMessages SqsService ExtractJob.

Variable callOpenAIForExtraction : nat -> Request -> Outcome Extraction.t.
Variable validateEventSchema : Extraction.t -> bool.
Variable calculateSourceQualityScore : string -> option string -> option Q -> Q.
Variable scoreColumn : NumericColumn.

Lemma substring_length (n : nat) (s : string) :
  String.length (String.substring 0 n s) = Nat.min n (String.length s).
Proof.
  revert s. induction n as [|n IH]; intros [|c s]; cbn; try reflexivity.
  rewrite IH. reflexivity.
Qed.

Lemma append_length (s t : string) :
  String.length (s ++ t) = (String.length s + String.length t)%nat.
Proof. induction s as [|c s IH]; cbn; [reflexivity | rewrite IH; reflexivity]. Qed.

Lemma trimStart_length (s : string) : (String.length (Js.trimStart s) <= String.length s)%nat.
Proof.
  induction s as [|c s IH]; cbn; [lia|].
  destruct (Js.isSpace c); cbn; lia.
Qed.

Lemma string_of_list_length (l : list ascii) :
  String.length (string_of_list_ascii l) = length l.
Proof. induction l as [|c l IH]; cbn; [reflexivity | rewrite IH; reflexivity]. Qed.

Lemma list_of_string_length (s : string) :
  length (list_ascii_of_string s) = String.length s.
Proof. induction s as [|c s IH]; cbn; [reflexivity | rewrite IH; reflexivity]. Qed.

Lemma strRev_length (s : string) : String.length (Js.strRev s) = String.length s.
Proof.
  unfold Js.strRev. rewrite string_of_list_length, length_rev. apply list_of_string_length.
Qed.

Lemma trim_length (s : string) : (String.length (Js.trim s) <= String.length s)%nat.
Proof.
  unfold Js.trim. rewrite strRev_length.
  pose proof (trimStart_length (Js.strRev (Js.trimStart s))) as H.
  rewrite strRev_length in H.
  pose proof (trimStart_length s). lia.
Qed.

Lemma truncateText_length (text : string) (maxChars : nat) :
  (String.length (truncateText text maxChars) <= maxChars + 13)%nat.
Proof.
  unfold truncateText.
  destruct (String.length text <=? maxChars)%nat eqn:E;
    [apply Nat.leb_le in E; lia | apply Nat.leb_gt in E].
  rewrite append_length, substring_length. cbn. lia.
Qed.

Lemma truncateText_within (text : string) (maxChars : nat) :
  (String.length text <= maxChars)%nat -> truncateText text maxChars = text.
Proof.
  intro H. unfold truncateText. apply Nat.leb_le in H. rewrite H. reflexivity.
Qed.

(** X20: [truncateText] returns a text within the limit unchanged; a longer
    text is cut to its first [maxChars] characters followed by a marker of 13
    characters, so the result is never longer than [maxChars + 13], and a
    text that exceeds the limit by fewer than 13 characters comes out longer
    than it went in. *)
Theorem truncateText_bounds (text : string) (maxChars : nat) :
  (String.length (truncateText text maxChars) <= maxChars + 13)%nat /\
  ((String.length text <= maxChars)%nat -> truncateText text maxChars = text) /\
  ((maxChars < String.length text)%nat ->
   String.length (truncateText text maxChars) = (maxChars + 13)%nat /\
   String.substring 0 maxChars (truncateText text maxChars) =
     String.substring 0 maxChars text) /\
  ((maxChars < String.length text < maxChars + 13)%nat ->
   (String.length text < String.length (truncateText text maxChars))%nat).
Proof.
  unfold truncateText.
  assert (L : (maxChars < String.length text)%nat ->
              String.length (String.substring 0 maxChars text ++ newline ++ newline ++
                               "[TRUNCATED]") = (maxChars + 13)%nat).
  { intro H. rewrite append_length, substring_length. cbn. lia. }
  destruct (String.length text <=? maxChars)%nat eqn:E;
    [apply Nat.leb_le in E | apply Nat.leb_gt in E].
  - split; [lia|]. split; [reflexivity|]. split; intro; lia.
  - split; [rewrite L by exact E; lia|]. split; [intro; lia|].
    split; [|intro; rewrite L by exact E; lia].
    intros _. split; [exact (L E)|].
    clear L. revert text E. induction maxChars as [|n IH]; intros [|c s] E; cbn in *;
      try reflexivity; try lia.
    rewrite IH by lia. reflexivity.
Qed.

End ExtractProperties.

(** ** The extraction job, run by run *)
Section ExtractRunProperties.
Import Store QueueMessages SqsService ExtractJob.

Variable callOpenAIForExtraction : nat -> Request -> Outcome Extraction.t.
Variable validateEventSchema : Extraction.t -> bool.
Variable calculateSourceQualityScore : string -> option string -> option Q -> Q.
Variable scoreColumn : NumericColumn.

Let job := run callOpenAIForExtraction validateEventSchema calculateSourceQualityScore
             scoreColumn.

Lemma enqueue_cluster_typeError (msg : JobMessage) (w : World) :
  enqueue "CLUSTER" msg w =
  (w, Throw (typeError "Cannot read properties of undefined (reading 'url')")).
Proof.
  unfold enqueue, enqueueJob.
  replace (hasEntry "CLUSTER") with false by (vm_compute; reflexivity).
  destruct w; reflexivity.
Qed.

(** The two calls of the capability. *)
Lemma requestExtraction_cases (source : SourceRow) (text : string) (w : World) :
  let r := mkRequest source text false in
  requestExtraction callOpenAIForExtraction validateEventSchema source text w =
  match callOpenAIForExtraction (length (calls w)) r with
  | Throw err => (mkWorld (db w) (sent w) (calls w ++ [r]), Throw err)
  | Return first =>
      if validateEventSchema first
      then (mkWorld (db w) (sent w) (calls w ++ [r]), Return first)
      else (mkWorld (db w) (sent w) ((calls w ++ [r]) ++ [strictly r]),
            callOpenAIForExtraction (length (calls w ++ [r])) (strictly r))
  end.
Proof.
  cbn zeta. unfold requestExtraction, bind, callCapability, ret.
  destruct (callOpenAIForExtraction (length (calls w)) _) as [first|err]; [|reflexivity].
  destruct (validateEventSchema first); reflexivity.
Qed.

(** A save either changes nothing and throws, or adds the event row made
    from the payload under the next key. *)
Lemma saveExtractionResult_row (now sourceId : Z) (extraction : Extraction.t)
    (model : string) (qualityScore : Q) (g : GeoValidation.GeoValidationResult)
    (w : World) :
  let res := saveExtractionResult now sourceId extraction model qualityScore g w in
  (fst res = w /\ exists err, snd res = Throw err) \/
  (snd res = Return (nextEventId (db w)) /\
   calls (fst res) = calls w /\ sent (fst res) = sent w /\
   events (db (fst res)) =
     events (db w) ++ [newEventRow now (nextEventId (db w)) extraction qualityScore]).
Proof.
  cbn zeta. unfold saveExtractionResult.
  destruct (findSource sourceId (eventSources (db w)));
    [|left; split; [reflexivity | eexists; reflexivity]].
  destruct (existsb _ (sourceExtractions (db w)));
    [left; split; [reflexivity | eexists; reflexivity]|].
  right. repeat split; reflexivity.
Qed.

(** Steps 6 to 8 never end well: the payload is refused, the validation
    throws, the save fails, or the save succeeds and the follow-up envelope
    cannot be sent. *)
Lemma validateAndSave_cases (now : Z) (newJobId nowIso : string) (msg : ExtractJobMessage)
    (qualityScore : Q) (extraction : Extraction.t) (w : World) :
  let res := validateAndSave validateEventSchema now newJobId nowIso msg qualityScore
               extraction w in
  calls (fst res) = calls w /\ sent (fst res) = sent w /\
  ((validateEventSchema extraction = false /\
    fst res = fst (markSourceStatus now (source_id (payload msg)) "extraction_failed" w) /\
    exists err, snd res = Throw err) \/
   (validateEventSchema extraction = true /\ fst res = w /\ exists err, snd res = Throw err) \/
   (validateEventSchema extraction = true /\
    snd res = Throw (typeError "Cannot read properties of undefined (reading 'url')") /\
    exists geo,
      GeoValidation.validateGeolocation extraction = Return geo /\
      events (db (fst res)) =
        events (db w) ++
        [newEventRow now (nextEventId (db w)) (downgrade extraction geo) qualityScore])).
Proof.
  cbn zeta. unfold validateAndSave, bind.
  destruct (validateEventSchema extraction); cbn [negb].
  2:{ split; [reflexivity|]. split; [reflexivity|]. left.
      split; [reflexivity|]. split; [reflexivity | eexists; reflexivity]. }
  unfold runGeoValidation.
  destruct (GeoValidation.validateGeolocation extraction) as [geo|err].
  2:{ split; [reflexivity|]. split; [reflexivity|]. right; left.
      split; [reflexivity|]. split; [reflexivity | eexists; reflexivity]. }
  match goal with
  | |- context [saveExtractionResult ?a ?b ?c ?d ?e ?f w] =>
      destruct (saveExtractionResult_row a b c d e f w)
        as [[Hw [err He]] | (Hk & Hc & Hs & Hev)];
      destruct (saveExtractionResult a b c d e f w) as [w1 o]
  end; cbn [fst snd] in *; subst.
  - split; [reflexivity|]. split; [reflexivity|]. right; left.
    split; [reflexivity|]. split; [reflexivity | eexists; reflexivity].
  - rewrite enqueue_cluster_typeError. cbn [fst snd].
    split; [exact Hc|]. split; [exact Hs|]. right; right.
    split; [reflexivity|]. split; [reflexivity|]. exists geo. split; [reflexivity | exact Hev].
Qed.

(** A run that has nothing to do returns the world as it is; otherwise it
    goes on with the source row it loaded. *)
Lemma run_cases (now : Z) (newJobId nowIso : string) (msg : ExtractJobMessage) (w : World) :
  (~ due msg w /\
   (job now newJobId nowIso msg w = (w, Return None) \/
    exists err, job now newJobId nowIso msg w = (w, Throw err))) \/
  (due msg w /\
   exists source,
     ExtractJob.id source = source_id (payload msg) /\
     match snippet source with Some t => t | None => "" end =
       snippetOf (source_id (payload msg)) w /\
     job now newJobId nowIso msg w =
       processSource callOpenAIForExtraction validateEventSchema
         calculateSourceQualityScore now newJobId nowIso msg source w).
Proof.
  unfold job, run, runExtractJob, bind, loadSource, due, snippetOf, forced.
  destruct (findSource (source_id (payload msg)) (eventSources (db w))) as [s|] eqn:F.
  2:{ left. split; [intros [H _]; congruence|]. right. eexists. reflexivity. }
  assert (Hid : EventSource.id s = source_id (payload msg)).
  { unfold findSource in F. apply find_some in F as [_ F]. lia. }
  destruct (match force_reextract (payload msg) with Some f => f | None => false end);
    cbn [negb].
  - unfold ret at 1. right. split; [split; [discriminate | left; reflexivity]|].
    refine (ex_intro _ _ (conj _ (conj _ eq_refl))); [exact Hid | reflexivity].
  - unfold hasExistingExtraction, extractionsOf.
    destruct (filter _ (sourceExtractions (db w))) as [|x xs] eqn:E.
    + right. split; [split; [discriminate | right; reflexivity]|].
      refine (ex_intro _ _ (conj _ (conj _ eq_refl))); [exact Hid | reflexivity].
    + left. split; [intros [_ [H | H]]; discriminate|]. left. reflexivity.
Qed.

(** X21: a run calls the extraction capability at most twice.  The first
    call is made with the plain prompt, for the source of the message, on its
    text cut by [truncateText], which then has at least 200 characters after
    trimming ([MIN_SOURCE_CHARS]) and at most 20013 in all
    ([MAX_SOURCE_CHARS] and the marker).  The second call repeats the first
    with the strict prompt, and is made only when the first reply came back
    and failed the schema. *)
Theorem capability_is_called_at_most_twice (now : Z) (newJobId nowIso : string)
    (msg : ExtractJobMessage) (w : World) :
  let w' := fst (job now newJobId nowIso msg w) in
  calls w' = calls w \/
  exists request,
    req_strict request = false /\
    ExtractJob.id (req_source request) = source_id (payload msg) /\
    req_text request =
      truncateText (snippetOf (source_id (payload msg)) w) MAX_SOURCE_CHARS /\
    (MIN_SOURCE_CHARS <= String.length (Js.trim (req_text request)))%nat /\
    (String.length (req_text request) <= MAX_SOURCE_CHARS + 13)%nat /\
    (calls w' = calls w ++ [request] \/
     calls w' = calls w ++ [request; strictly request] /\
     exists first,
       callOpenAIForExtraction (length (calls w)) request = Return first /\
       validateEventSchema first = false).
Proof.
  cbn zeta.
  destruct (run_cases now newJobId nowIso msg w)
    as [[_ [-> | [err ->]]] | (_ & source & Hid & Hsn & ->)]; try (left; reflexivity).
  unfold processSource. rewrite Hsn.
  set (text := truncateText (snippetOf (source_id (payload msg)) w) MAX_SOURCE_CHARS).
  destruct (String.eqb text "" || (String.length (Js.trim text) <? MIN_SOURCE_CHARS)%nat)
    eqn:Short; [left; reflexivity|].
  apply orb_false_iff in Short as [_ Short]. apply Nat.ltb_ge in Short.
  right. exists (mkRequest source text false).
  split; [reflexivity|]. split; [exact Hid|]. split; [reflexivity|].
  split; [exact Short|].
  split; [apply truncateText_length|].
  unfold extractAndSave, bind. rewrite requestExtraction_cases. cbn zeta.
  destruct (callOpenAIForExtraction (length (calls w)) (mkRequest source text false))
    as [first|err]; [|left; reflexivity].
  destruct (validateEventSchema first) eqn:V.
  - left.
    match goal with
    | |- context [validateAndSave ?v ?a ?b ?c ?d ?e ?f ?g] =>
        destruct (validateAndSave_cases a b c d e f g) as (Hc & _)
    end.
    cbn zeta in Hc. rewrite Hc. reflexivity.
  - right. split; [|exists first; split; [reflexivity | exact V]].
    destruct (callOpenAIForExtraction _ (strictly _)) as [second|err].
    + match goal with
      | |- context [validateAndSave ?v ?a ?b ?c ?d ?e ?f ?g] =>
          destruct (validateAndSave_cases a b c d e f g) as (Hc & _)
      end.
      cbn zeta in Hc. rewrite Hc. cbn [calls]. rewrite <- app_assoc. reflexivity.
    + cbn [fst calls]. rewrite <- app_assoc. reflexivity.
Qed.


Lemma validateAndSave_outcomes (now : Z) (newJobId nowIso : string) (msg : ExtractJobMessage)
    (qualityScore : Q) (extraction : Extraction.t) (w v : World) :
  db v = db w -> sent v = sent w ->
  let res := validateAndSave validateEventSchema now newJobId nowIso msg qualityScore
               extraction v in
  sent (fst res) = sent w /\
  (exists err, snd res = Throw err) /\
  (events (db (fst res)) = events (db w) \/
   snd res = Throw (typeError "Cannot read properties of undefined (reading 'url')") /\
   exists e geo q,
     validateEventSchema e = true /\
     GeoValidation.validateGeolocation e = Return geo /\
     events (db (fst res)) =
       events (db w) ++ [newEventRow now (nextEventId (db w)) (downgrade e geo) q]).
Proof.
  intros Hdb Hsent. cbn zeta.
  destruct (validateAndSave_cases now newJobId nowIso msg qualityScore extraction v)
    as (_ & Hs & [(_ & Hw & Herr) | [(_ & Hw & Herr) | (Hv & Ho & geo & Hg & Hev)]]);
    cbn zeta in *.
  - split; [congruence|]. split; [exact Herr|]. left. rewrite Hw. cbn. rewrite Hdb.
    reflexivity.
  - split; [congruence|]. split; [exact Herr|]. left. rewrite Hw, Hdb. reflexivity.
  - split; [congruence|]. split; [eexists; exact Ho|]. right. split; [exact Ho|].
    exists extraction, geo, qualityScore. rewrite Hev, Hdb. repeat split; assumption.
Qed.

(** What any run leaves behind. *)
Lemma run_outcomes (now : Z) (newJobId nowIso : string) (msg : ExtractJobMessage)
    (w : World) :
  let res := job now newJobId nowIso msg w in
  sent (fst res) = sent w /\
  (snd res = Return None \/ exists err, snd res = Throw err) /\
  (events (db (fst res)) = events (db w) \/
   snd res = Throw (typeError "Cannot read properties of undefined (reading 'url')") /\
   exists e geo q,
     validateEventSchema e = true /\
     GeoValidation.validateGeolocation e = Return geo /\
     events (db (fst res)) =
       events (db w) ++ [newEventRow now (nextEventId (db w)) (downgrade e geo) q]).
Proof.
  cbn zeta.
  destruct (run_cases now newJobId nowIso msg w)
    as [[_ [-> | [err ->]]] | (_ & source & _ & _ & ->)].
  - split; [reflexivity|]. split; [left; reflexivity | left; reflexivity].
  - split; [reflexivity|]. split; [right; eexists; reflexivity | left; reflexivity].
  - unfold processSource.
    destruct (_ || _).
    { split; [reflexivity|]. split; [left; reflexivity | left; reflexivity]. }
    unfold extractAndSave, bind. rewrite requestExtraction_cases. cbn zeta.
    destruct (callOpenAIForExtraction (length (calls w)) _) as [first|err].
    2:{ split; [reflexivity|]. split; [right; eexists; reflexivity | left; reflexivity]. }
    destruct (validateEventSchema first).
    + match goal with
      | |- context [validateAndSave ?v ?a ?b ?c ?d ?e ?f ?g] =>
          destruct (@validateAndSave_outcomes a b c d e f w g eq_refl eq_refl)
            as (H1 & H2 & H3)
      end.
      cbn zeta in *. split; [exact H1|]. split; [right; exact H2 | exact H3].
    + destruct (callOpenAIForExtraction _ (strictly _)) as [second|err].
      2:{ split; [reflexivity|]. split; [right; eexists; reflexivity | left; reflexivity]. }
      match goal with
      | |- context [validateAndSave ?v ?a ?b ?c ?d ?e ?f ?g] =>
          destruct (@validateAndSave_outcomes a b c d e f w g eq_refl eq_refl)
            as (H1 & H2 & H3)
      end.
      cbn zeta in *. split; [exact H1|]. split; [right; exact H2 | exact H3].
Qed.

(** X22: the extraction job never hands an event over to clustering.  A run
    sends no request to the queue provider and never returns a result other
    than [null]; whenever it has saved an event, it then throws the
    [TypeError] of [enqueueJob], which is given the job type "CLUSTER" where
    a queue name belongs. *)
Theorem extraction_never_reaches_clustering (now : Z) (newJobId nowIso : string)
    (msg : ExtractJobMessage) (w : World) :
  let res := job now newJobId nowIso msg w in
  sent (fst res) = sent w /\
  (snd res = Return None \/ exists err, snd res = Throw err) /\
  (events (db (fst res)) <> events (db w) ->
   snd res = Throw (typeError "Cannot read properties of undefined (reading 'url')")).
Proof.
  destruct (run_outcomes now newJobId nowIso msg w) as (H1 & H2 & H3). cbn zeta in *.
  split; [exact H1|]. split; [exact H2|].
  intro Hne. destruct H3 as [H3 | [H3 _]]; [contradiction | exact H3].
Qed.

Lemma newEventRow_inRange (now key : Z) (e : Extraction.t)
    (geo : GeoValidation.GeoValidationResult) (q : Q) :
  GeoValidation.validateGeolocation e = Return geo ->
  inRange (newEventRow now key (downgrade e geo) q).
Proof.
  intro Hg. unfold inRange. cbn [newEventRow Event.latitude Event.longitude].
  unfold coordinateOf.
  destruct (Extraction.geometry (Extraction.location e)) as [g|] eqn:G.
  2:{ unfold downgrade. destruct (negb (GeoValidation.valid geo)); cbn;
        [destruct (GeoValidation.shouldNullifyCoords geo); cbn; rewrite ?G|rewrite G];
        exact I. }
  destruct (Extraction.coordinates g) as [[lng lat]|] eqn:C.
  2:{ unfold downgrade. destruct (negb (GeoValidation.valid geo)); cbn;
        [destruct (GeoValidation.shouldNullifyCoords geo); cbn; rewrite ?G, ?C|rewrite G, C];
        exact I. }
  pose proof (nullify_iff_out_of_range e G C Hg) as Hn.
  destruct (outOfRangeb lng lat) eqn:O.
  - apply outOfRangeb_spec in O.
    destruct (rejected_result e G C O) as (r & Hr & _ & _ & _ & Hv).
    assert (r = geo) by congruence. subst r.
    unfold downgrade. rewrite Hv, Hn. cbn. exact I.
  - assert (R : (-90 <= lat /\ lat <= 90) /\ (-180 <= lng /\ lng <= 180)).
    { unfold outOfRangeb in O.
      apply orb_false_iff in O as [O O4]. apply orb_false_iff in O as [O O3].
      apply orb_false_iff in O as [O1 O2].
      apply Qltb_false in O1, O2, O3, O4. repeat split; assumption. }
    unfold downgrade. destruct (negb (GeoValidation.valid geo)); cbn;
      rewrite ?Hn; cbn; rewrite G, C; exact R.
Qed.

(** X23: every event row a run adds to the store is a fresh active event
    with one source, keyed by the next key of the table, and carries either
    no coordinates or a latitude in [-90, 90] with a longitude in
    [-180, 180]: coordinates that the validation rejects as out of range are
    never stored. *)
Theorem created_event_is_in_range (now : Z) (newJobId nowIso : string)
    (msg : ExtractJobMessage) (w : World) (row : Event.t) :
  events (db (fst (job now newJobId nowIso msg w))) = events (db w) ++ [row] ->
  Event.id row = nextEventId (db w) /\
  Event.status row = "active" /\
  Event.mergedIntoId row = None /\
  Event.sourceCount row = 1%Z /\
  Event.createdAt row = now /\
  inRange row.
Proof.
  intro H.
  destruct (run_outcomes now newJobId nowIso msg w) as (_ & _ & [H3 | (_ & e & geo & q & _ & Hg & H3)]);
    cbn zeta in *; rewrite H3 in H.
  - exfalso. apply (f_equal (@length Event.t)) in H. rewrite length_app in H. cbn in H. lia.
  - apply app_inv_head in H. inversion H; subst row.
    repeat split; try reflexivity. apply newEventRow_inRange. exact Hg.
Qed.

Lemma statusOfSource_marked (now sourceId : Z) (status : string) (w v : World) :
  db v = db w ->
  findSource sourceId (eventSources (db w)) <> None ->
  statusOfSource sourceId (fst (markSourceStatus now sourceId status v)) = Some status.
Proof.
  intros Hdb Hf. unfold statusOfSource, markSourceStatus.
  cbn [fst withDb db eventSources]. rewrite Hdb.
  rewrite findSource_updateWhere by reflexivity.
  destruct (findSource sourceId (eventSources (db w))) as [s|] eqn:F; [|congruence].
  unfold findSource in F. apply find_some in F as [_ F].
  cbn [option_map]. rewrite F. reflexivity.
Qed.

(** X24: a source whose text is missing or shorter than 200 characters is
    never sent to the capability: a run that has work to do marks it
    'too_short' and returns [null], without a call, an event or a record. *)
Theorem short_text_is_marked_too_short (now : Z) (newJobId nowIso : string)
    (msg : ExtractJobMessage) (w : World) :
  due msg w ->
  (String.length (snippetOf (source_id (payload msg)) w) < MIN_SOURCE_CHARS)%nat ->
  let res := job now newJobId nowIso msg w in
  snd res = Return None /\
  statusOfSource (source_id (payload msg)) (fst res) = Some "too_short" /\
  calls (fst res) = calls w /\
  sent (fst res) = sent w /\
  quiet w (fst res).
Proof.
  intros Hdue Hshort. cbn zeta.
  destruct (run_cases now newJobId nowIso msg w)
    as [[Hn _] | (_ & source & _ & Hsn & ->)]; [contradiction|].
  unfold processSource. rewrite Hsn.
  set (text := snippetOf (source_id (payload msg)) w) in *.
  assert (T : truncateText text MAX_SOURCE_CHARS = text).
  { apply truncateText_within.
    assert (MIN_SOURCE_CHARS <= MAX_SOURCE_CHARS)%nat
      by (apply Nat.leb_le; vm_compute; reflexivity).
    lia. }
  rewrite T.
  assert (S : (String.length (Js.trim text) <? MIN_SOURCE_CHARS)%nat = true).
  { apply Nat.ltb_lt. pose proof (trim_length text). lia. }
  rewrite S, orb_true_r.
  split; [reflexivity|].
  split; [apply statusOfSource_marked with (w := w); [reflexivity | exact (proj1 Hdue)]|].
  repeat split; reflexivity.
Qed.

(** X25: when the capability answers both calls and the validator refuses
    both replies, a run on a source with enough text makes exactly the two
    calls, marks the source 'extraction_failed' and throws; it saves no event
    and no extraction record, and sends nothing. *)
Theorem refused_replies_fail_the_source (now : Z) (newJobId nowIso : string)
    (msg : ExtractJobMessage) (w : World) :
  due msg w ->
  (MIN_SOURCE_CHARS <=
   String.length (Js.trim (truncateText (snippetOf (source_id (payload msg)) w)
                             MAX_SOURCE_CHARS)))%nat ->
  (forall n request,
      exists reply,
        callOpenAIForExtraction n request = Return reply /\
        validateEventSchema reply = false) ->
  let res := job now newJobId nowIso msg w in
  (exists err, snd res = Throw err) /\
  statusOfSource (source_id (payload msg)) (fst res) = Some "extraction_failed" /\
  length (calls (fst res)) = (length (calls w) + 2)%nat /\
  sent (fst res) = sent w /\
  quiet w (fst res).
Proof.
  intros Hdue Hlong Hrefused. cbn zeta.
  destruct (run_cases now newJobId nowIso msg w)
    as [[Hn _] | (_ & source & _ & Hsn & ->)]; [contradiction|].
  unfold processSource. rewrite Hsn.
  set (text := truncateText (snippetOf (source_id (payload msg)) w) MAX_SOURCE_CHARS) in *.
  assert (E : String.eqb text "" = false).
  { destruct (String.eqb text "") eqn:E; [|reflexivity].
    apply String.eqb_eq in E. rewrite E in Hlong.
    assert (MIN_SOURCE_CHARS = 200%nat) by reflexivity.
    cbn in Hlong. lia. }
  assert (S : (String.length (Js.trim text) <? MIN_SOURCE_CHARS)%nat = false)
    by (apply Nat.ltb_ge; exact Hlong).
  rewrite E, S. cbn [orb].
  unfold extractAndSave, bind. rewrite requestExtraction_cases. cbn zeta.
  destruct (Hrefused (length (calls w)) (mkRequest source text false)) as (first & -> & ->).
  destruct (Hrefused (length (calls w ++ [mkRequest source text false]))
              (strictly (mkRequest source text false))) as (second & -> & V).
  unfold validateAndSave, bind. rewrite V. cbn [negb].
  cbn [fst snd markSourceStatus throw].
  split; [eexists; reflexivity|].
  split.
  - change (statusOfSource (source_id (payload msg))
              (fst (markSourceStatus now (source_id (payload msg)) "extraction_failed"
                      (mkWorld (db w) (sent w)
                         ((calls w ++ [mkRequest source text false]) ++
                          [strictly (mkRequest source text false)])))) =
            Some "extraction_failed").
    apply statusOfSource_marked with (w := w); [reflexivity | exact (proj1 Hdue)].
  - split; [cbn; rewrite !length_app; cbn; lia|].
    split; [reflexivity | split; reflexivity].
Qed.

End ExtractRunProperties.

Section ExtractRunExamples.
Import Store QueueMessages SqsService ExtractJob.

Lemma created_event_is_in_range_witness :
  exists row,
    events (db (fst (farJob 1700000100000 "job_2" "t1" sampleMessage sampleWorld))) =
      events (db sampleWorld) ++ [row] /\
    Event.latitude row = None /\
    inRange row.
Proof.
  eexists. split; [vm_compute; reflexivity|]. split; [reflexivity|].
  refine (proj2 (proj2 (proj2 (proj2 (proj2
            (@created_event_is_in_range (fun _ _ => Return farReply) (fun _ => true)
               (fun _ _ _ => 7 # 10) FloatColumn 1700000100000 "job_2" "t1" sampleMessage
               sampleWorld _ _)))))).
  vm_compute. reflexivity.
Defined.

Lemma short_text_is_marked_too_short_witness :
  snd (sampleJob 1700000100000 "job_2" "t1" sampleMessage shortWorld) = Return None /\
  statusOfSource 7 (fst (sampleJob 1700000100000 "job_2" "t1" sampleMessage shortWorld)) =
    Some "too_short" /\
  calls (fst (sampleJob 1700000100000 "job_2" "t1" sampleMessage shortWorld)) = [] /\
  sent (fst (sampleJob 1700000100000 "job_2" "t1" sampleMessage shortWorld)) = [] /\
  quiet shortWorld (fst (sampleJob 1700000100000 "job_2" "t1" sampleMessage shortWorld)).
Proof.
  apply (@short_text_is_marked_too_short (fun _ _ => Return sampleReply) (fun _ => true)
           (fun _ _ _ => 7 # 10) FloatColumn 1700000100000 "job_2" "t1" sampleMessage
           shortWorld).
  - split; [discriminate | right; reflexivity].
  - apply Nat.ltb_lt. vm_compute. reflexivity.
Defined.

Lemma refused_replies_fail_the_source_witness :
  (exists err,
      snd (rejectingJob 1700000100000 "job_2" "t1" sampleMessage sampleWorld) = Throw err) /\
  statusOfSource 7 (fst (rejectingJob 1700000100000 "job_2" "t1" sampleMessage sampleWorld)) =
    Some "extraction_failed" /\
  length (calls (fst (rejectingJob 1700000100000 "job_2" "t1" sampleMessage sampleWorld))) =
    (length (calls sampleWorld) + 2)%nat /\
  sent (fst (rejectingJob 1700000100000 "job_2" "t1" sampleMessage sampleWorld)) = [] /\
  quiet sampleWorld (fst (rejectingJob 1700000100000 "job_2" "t1" sampleMessage sampleWorld)).
Proof.
  apply (@refused_replies_fail_the_source (fun _ _ => Return sampleReply) (fun _ => false)
           (fun _ _ _ => 7 # 10) FloatColumn 1700000100000 "job_2" "t1" sampleMessage
           sampleWorld).
  - split; [discriminate | right; reflexivity].
  - apply Nat.leb_le. vm_compute. reflexivity.
  - intros n request. exists sampleReply. split; reflexivity.
Defined.

End ExtractRunExamples.

(** ** Claims on the extraction job *)
Section ExtractJobClaims.
Import Store QueueMessages SqsService ExtractJob.

Lemma extractionsOf_quiet (sourceId : Z) (w w' : World) :
  quiet w w' -> extractionsOf sourceId w' = extractionsOf sourceId w.
Proof. intros [_ H]. unfold extractionsOf. rewrite H. reflexivity. Qed.

Lemma saved_counts (sourceId : Z) (w w' : World) :
  saved sourceId w w' ->
  length (events (db w')) = S (length (events (db w))) /\
  length (extractionsOf sourceId w') = 1%nat /\
  findSource sourceId (eventSources (db w')) <> None.
Proof.
  intros (row & x & He & Hx & Hs & _ & Hn & Hf).
  split; [rewrite He, length_app; simpl; lia|].
  split; [|exact Hf].
  unfold extractionsOf in *. rewrite Hx, filter_app, Hn. simpl.
  rewrite Hs, Z.eqb_refl. reflexivity.
Qed.

Section Saving.
Variable callOpenAIForExtraction : nat -> Request -> Outcome Extraction.t.
Variable validateEventSchema : Extraction.t -> bool.
Variable calculateSourceQualityScore : string -> option string -> option Q -> Q.
Variable scoreColumn : NumericColumn.

(** Steps 6 to 8 on a reply the job can save, for a source that is there and
    has no extraction record: the event and the record are written. *)
Lemma validateAndSave_saves (now : Z) (newJobId nowIso : string) (msg : ExtractJobMessage)
    (qualityScore : Q) (reply : Extraction.t) (w v : World) :
  db v = db w ->
  accepted validateEventSchema reply ->
  findSource (source_id (payload msg)) (eventSources (db w)) <> None ->
  extractionsOf (source_id (payload msg)) w = [] ->
  saved (source_id (payload msg)) w
    (fst (validateAndSave validateEventSchema now newJobId nowIso msg qualityScore reply v)).
Proof.
  intros Hdb (Hvalid & geo & Hgeo) Hsource Hnone.
  unfold validateAndSave, bind. rewrite Hvalid. cbn [negb].
  unfold runGeoValidation. rewrite Hgeo.
  unfold saveExtractionResult. rewrite Hdb.
  destruct (findSource (source_id (payload msg)) (eventSources (db w))) as [s|] eqn:F;
    [|congruence].
  assert (E : existsb (fun x => (SourceExtraction.source_id x =? source_id (payload msg))%Z)
                (sourceExtractions (db w)) = false).
  { rewrite existsb_filter. unfold extractionsOf in Hnone. rewrite Hnone. reflexivity. }
  rewrite E. rewrite enqueue_cluster_typeError.
  unfold saved. cbn [fst withDb db events sourceExtractions eventSources].
  eexists. eexists.
  split; [reflexivity|]. split; [reflexivity|]. split; [reflexivity|].
  split; [reflexivity|]. split; [exact Hnone|].
  rewrite findSource_updateWhere by reflexivity. rewrite F. discriminate.
Qed.

(** A run on a source that can be extracted and has no record saves. *)
Lemma run_saves (now : Z) (newJobId nowIso : string) (msg : ExtractJobMessage) (w : World) :
  extractionsOf (source_id (payload msg)) w = [] ->
  extractable callOpenAIForExtraction validateEventSchema msg w ->
  saved (source_id (payload msg)) w
    (fst (run callOpenAIForExtraction validateEventSchema calculateSourceQualityScore
            scoreColumn now newJobId nowIso msg w)).
Proof.
  intros Hnone (Hsource & Hlong & Hanswered).
  destruct (run_cases callOpenAIForExtraction validateEventSchema
              calculateSourceQualityScore scoreColumn now newJobId nowIso msg w)
    as [[Hn _] | (_ & source & _ & Hsn & ->)].
  { exfalso. apply Hn. split; [exact Hsource | right; exact Hnone]. }
  unfold processSource. rewrite Hsn.
  set (text := truncateText (snippetOf (source_id (payload msg)) w) MAX_SOURCE_CHARS) in *.
  assert (E : String.eqb text "" = false).
  { destruct (String.eqb text "") eqn:E; [|reflexivity].
    apply String.eqb_eq in E. rewrite E in Hlong.
    assert (MIN_SOURCE_CHARS = 200%nat) by reflexivity.
    cbn in Hlong. lia. }
  assert (S : (String.length (Js.trim text) <? MIN_SOURCE_CHARS)%nat = false)
    by (apply Nat.ltb_ge; exact Hlong).
  rewrite E, S. cbn [orb].
  unfold extractAndSave, bind. rewrite requestExtraction_cases. cbn zeta.
  destruct Hanswered as [Hfirst | [Hfirst Hsecond]].
  - destruct (Hfirst (mkRequest source text false)) as (reply & -> & Hacc).
    rewrite (proj1 Hacc).
    apply validateAndSave_saves; [reflexivity | exact Hacc | exact Hsource | exact Hnone].
  - destruct (Hfirst (mkRequest source text false)) as (first & -> & ->).
    rewrite length_app. cbn [length]. rewrite Nat.add_1_r.
    destruct (Hsecond (strictly (mkRequest source text false))) as (reply & -> & Hacc).
    apply validateAndSave_saves; [reflexivity | exact Hacc | exact Hsource | exact Hnone].
Qed.

End Saving.

(** C8: without the force flag, a run for a source that already has an
    extraction record returns the world as it was (no status change, no call
    of the capability, no event, no envelope) and returns [null].  Two runs
    in a row for a source that had no record never leave more than one new
    event and one extraction record: they leave none, or exactly one of each.
    And when the source can be extracted (its row is there, its text is long
    enough, the capability gives a reply that passes the schema on the first
    call or, after one that fails it, on the second), the first run writes
    the event and its extraction record, the second run changes nothing and
    returns [null], and the two runs together leave exactly one event more and
    exactly one extraction record of the source. *)
Theorem C8_extraction_is_idempotent
    (callOpenAIForExtraction : nat -> Request -> Outcome Extraction.t)
    (validateEventSchema : Extraction.t -> bool)
    (calculateSourceQualityScore : string -> option string -> option Q -> Q)
    (scoreColumn : NumericColumn)
    (now1 now2 : Z) (jobId1 jobId2 iso1 iso2 : string)
    (msg : ExtractJobMessage) (w0 : World) :
  forced msg = false ->
  let job := run callOpenAIForExtraction validateEventSchema calculateSourceQualityScore
               scoreColumn in
  let sourceId := source_id (payload msg) in
  let w1 := fst (job now1 jobId1 iso1 msg w0) in
  let w2 := fst (job now2 jobId2 iso2 msg w1) in
  (forall w now jobId iso,
      extractionsOf sourceId w <> [] ->
      fst (job now jobId iso msg w) = w /\
      (findSource sourceId (eventSources (db w)) <> None ->
       snd (job now jobId iso msg w) = Return None)) /\
  (extractionsOf sourceId w0 = [] -> extractionsOf sourceId w1 <> [] ->
   job now2 jobId2 iso2 msg w1 = (w1, Return None)) /\
  (extractionsOf sourceId w0 = [] ->
   (events (db w2) = events (db w0) /\ extractionsOf sourceId w2 = []) \/
   (length (events (db w2)) = S (length (events (db w0))) /\
    length (extractionsOf sourceId w2) = 1%nat)) /\
  (extractionsOf sourceId w0 = [] ->
   extractable callOpenAIForExtraction validateEventSchema msg w0 ->
   (exists row x,
       events (db w1) = events (db w0) ++ [row] /\
       sourceExtractions (db w1) = sourceExtractions (db w0) ++ [x] /\
       SourceExtraction.source_id x = sourceId /\
       SourceExtraction.event_id x = Event.id row) /\
   job now2 jobId2 iso2 msg w1 = (w1, Return None) /\
   length (events (db w2)) = S (length (events (db w0))) /\
   length (extractionsOf sourceId w2) = 1%nat).
Proof.
  intros Hf job sourceId w1 w2.
  assert (NoOp : forall w now jobId iso,
             extractionsOf sourceId w <> [] ->
             fst (job now jobId iso msg w) = w /\
             (findSource sourceId (eventSources (db w)) <> None ->
              snd (job now jobId iso msg w) = Return None)).
  { intros w now jobId iso Hex. apply run_on_extracted_source; assumption. }
  pose proof (runExtractJob_effect callOpenAIForExtraction validateEventSchema
                calculateSourceQualityScore scoreColumn now1 jobId1 iso1 msg w0) as E1.
  pose proof (runExtractJob_effect callOpenAIForExtraction validateEventSchema
                calculateSourceQualityScore scoreColumn now2 jobId2 iso2 msg w1) as E2.
  cbn zeta in E1, E2. fold job in E1, E2. fold w1 in E1, E2. fold w2 in E2.
  fold sourceId in E1, E2.
  assert (Second : saved sourceId w0 w1 -> job now2 jobId2 iso2 msg w1 = (w1, Return None)).
  { intro S1. apply saved_counts in S1 as (_ & Hx & Hsrc).
    assert (H1 : extractionsOf sourceId w1 <> [])
      by (intro H; rewrite H in Hx; discriminate).
    destruct (NoOp w1 now2 jobId2 iso2 H1) as [Hw Ho].
    specialize (Ho Hsrc).
    destruct (job now2 jobId2 iso2 msg w1) as [w o]. cbn [fst snd] in *. congruence. }
  split; [exact NoOp|]. split; [|split].
  - intros H0 H1.
    destruct E1 as [Q1 | S1]; [rewrite (extractionsOf_quiet sourceId Q1) in H1; congruence|].
    exact (Second S1).
  - intros H0.
    destruct E1 as [Q1 | S1].
    + destruct E2 as [Q2 | S2].
      * left. destruct Q1 as [Qe1 Qx1]. destruct Q2 as [Qe2 Qx2].
        split; [congruence|]. unfold extractionsOf. rewrite Qx2, Qx1. exact H0.
      * right. apply saved_counts in S2 as (He & Hx & _).
        destruct Q1 as [Qe _]. rewrite Qe in He. split; assumption.
    + right. pose proof (Second S1) as R. unfold w2. rewrite R. cbn [fst].
      apply saved_counts in S1 as (He & Hx & _). split; assumption.
  - intros H0 Hext.
    pose proof (run_saves calculateSourceQualityScore scoreColumn now1 jobId1 iso1 H0 Hext)
      as S1.
    fold job in S1. fold w1 in S1. fold sourceId in S1.
    pose proof (Second S1) as R.
    split.
    { destruct S1 as (row & x & He & Hx & Hs & Hev & _ & _).
      exists row, x. repeat split; assumption. }
    split; [exact R|].
    unfold w2. rewrite R. cbn [fst].
    apply saved_counts in S1 as (He & Hx & _). split; assumption.
Qed.

(** C8 on two runs for the example source: the first run saves, the second
    is a no-op. *)
Lemma C8_witness_two_runs :
  let w1 := fst (sampleJob 1700000100000 "job_2" "t1" sampleMessage sampleWorld) in
  let w2 := fst (sampleJob 1700000200000 "job_3" "t2" sampleMessage w1) in
  (exists row x,
      events (db w1) = events (db sampleWorld) ++ [row] /\
      sourceExtractions (db w1) = sourceExtractions (db sampleWorld) ++ [x] /\
      SourceExtraction.source_id x = 7%Z /\
      SourceExtraction.event_id x = Event.id row) /\
  sampleJob 1700000200000 "job_3" "t2" sampleMessage w1 = (w1, Return None) /\
  length (events (db w2)) = S (length (events (db sampleWorld))) /\
  length (extractionsOf 7 w2) = 1%nat.
Proof.
  apply (proj2 (proj2 (proj2
           (@C8_extraction_is_idempotent (fun _ _ => Return sampleReply) (fun _ => true)
              (fun _ _ _ => 7 # 10) FloatColumn 1700000100000 1700000200000
              "job_2" "job_3" "t1" "t2" sampleMessage sampleWorld eq_refl)))).
  - reflexivity.
  - split; [discriminate|].
    split; [apply Nat.leb_le; vm_compute; reflexivity|].
    left. intro request. exists sampleReply. split; [reflexivity|].
    split; [reflexivity|]. eexists. vm_compute. reflexivity.
Defined.

(** The two runs of the example.  The first run calls the capability once
    and saves one event and one extraction record; it then fails on the
    follow-up envelope, because ["CLUSTER"] is a job type and no key of
    [QUEUES], so nothing is sent.  The second run changes nothing and returns
    [null]. *)
Example two_runs_of_the_example :
  let r1 := sampleJob 1700000100000 "job_2" "t1" sampleMessage sampleWorld in
  let r2 := sampleJob 1700000200000 "job_3" "t2" sampleMessage (fst r1) in
  length (events (db (fst r1))) = 1%nat /\
  length (extractionsOf 7 (fst r1)) = 1%nat /\
  length (calls (fst r1)) = 1%nat /\
  sent (fst r1) = [] /\
  snd r1 = Throw (typeError "Cannot read properties of undefined (reading 'url')") /\
  r2 = (fst r1, Return None).
Proof. vm_compute. repeat split; reflexivity. Qed.

(** The same with a first reply that fails the schema: the run asks again
    with the strict prompt and saves the second reply. *)
Example two_runs_after_a_refused_reply :
  let r1 := secondTryJob 1700000100000 "job_2" "t1" sampleMessage sampleWorld in
  let r2 := secondTryJob 1700000200000 "job_3" "t2" sampleMessage (fst r1) in
  length (events (db (fst r1))) = 1%nat /\
  length (extractionsOf 7 (fst r1)) = 1%nat /\
  length (calls (fst r1)) = 2%nat /\
  r2 = (fst r1, Return None).
Proof. vm_compute. repeat split; reflexivity. Qed.

End ExtractJobClaims.

(** ** The issues of the geolocation validator *)
Section IssueProperties.
Import Extraction GeoValidation.

Lemma checkRanges_adds (lng lat : Q) (a : Acc) (i : Issue) :
  In i (acc_issues (checkRanges lng lat a)) ->
  In i (acc_issues a) \/
  (i = InvalidLatitude lat /\ (lat < -90 \/ 90 < lat)) \/
  (i = InvalidLongitude lng /\ (lng < -180 \/ 180 < lng)).
Proof.
  unfold checkRanges.
  destruct (Js.Qltb lat (-90)) eqn:A, (Js.Qltb 90 lat) eqn:B,
           (Js.Qltb lng (-180)) eqn:C, (Js.Qltb 180 lng) eqn:D;
    cbn [orb acc_issues]; rewrite ?in_app_iff; cbn [In];
    rewrite ?Qltb_true in *; intuition (subst; auto).
Qed.

Lemma checkSwapped_adds (lng lat : Q) (a : Acc) (i : Issue) :
  In i (acc_issues (checkSwapped lng lat a)) ->
  acc_nullify a = outOfRangeb lng lat ->
  In i (acc_issues a).
Proof.
  intros H Hn.
  assert (E : checkSwapped lng lat a = a); [|rewrite E in H; exact H].
  unfold checkSwapped.
  destruct (negb (acc_nullify a) && Js.Qltb 90 (Qabs lat) && Qle_bool (Qabs lng) 90) eqn:S;
    [|reflexivity].
  exfalso.
  apply andb_prop in S as [S _]. apply andb_prop in S as [S1 S2].
  apply negb_true_iff in S1. rewrite S1 in Hn. symmetry in Hn.
  unfold outOfRangeb in Hn.
  apply orb_false_iff in Hn as [Hn _]. apply orb_false_iff in Hn as [Hn _].
  apply orb_false_iff in Hn as [O1 O2].
  apply Qltb_false in O1, O2. apply Qltb_true in S2.
  assert (Qabs lat <= 90) by (apply Qabs_Qle_condition; split; assumption).
  lra.
Qed.

Lemma checkCountry_adds (c : string) (lng lat : Q) (a a' : Acc) (i : Issue) :
  checkCountry c lng lat a = Return a' ->
  In i (acc_issues a') ->
  In i (acc_issues a) \/
  (i = OutsideCountry c lng lat /\ acc_nullify a = false /\
   exists b, lookupBounds (Js.trim (Js.toLowerCase c)) = Own b).
Proof.
  unfold checkCountry.
  destruct (negb (acc_nullify a)) eqn:N; cbn [andb];
    [|intro H; inversion H; subst; tauto].
  apply negb_true_iff in N.
  destruct (negb (String.eqb c "")); [|intro H; inversion H; subst; tauto].
  unfold checkCountryCoordinateMatch.
  destruct (lookupBounds (Js.trim (Js.toLowerCase c))) as [[[[x1 y1] x2] y2]| |] eqn:L.
  - destruct (_ && _); cbn [matches negb].
    + intro H; inversion H; subst; tauto.
    + intro H; inversion H; subst; clear H. cbn [acc_issues].
      rewrite in_app_iff. cbn [In]. intros [H | [H | []]]; [left; exact H|].
      right. split; [symmetry; exact H|]. split; [exact N|]. eexists; reflexivity.
  - discriminate.
  - cbn [matches negb]. intro H; inversion H; subst; tauto.
Qed.

Lemma checkOcean_adds (e : Extraction.t) (lng lat : Q) (a : Acc) (i : Issue) :
  In i (acc_issues (checkOcean e lng lat a)) ->
  In i (acc_issues a) \/
  (i = InOcean /\ acc_nullify a = false /\ checkIfLikelyOcean lng lat = true /\
   isMarineEventExpected e = false).
Proof.
  unfold checkOcean.
  destruct (negb (acc_nullify a)) eqn:N; [|tauto].
  apply negb_true_iff in N.
  destruct (checkIfLikelyOcean lng lat) eqn:O; cbn [andb]; [|tauto].
  destruct (isMarineEventExpected e) eqn:Ma; cbn [negb]; [tauto|].
  cbn [acc_issues]. rewrite in_app_iff. cbn [In].
  intros [H | [H | []]]; [left; exact H | right; auto].
Qed.

Lemma checkPrecision_adds (p : option string) (a : Acc) (i : Issue) :
  In i (acc_issues (checkPrecision p a)) ->
  In i (acc_issues a) \/ (i = ExactPrecisionWithIssues /\ p = Some "exact").
Proof.
  unfold checkPrecision.
  destruct (Js.strictEqStr p (Some "exact")) eqn:P; cbn [andb]; [|tauto].
  destruct (0 <? length (acc_issues a))%nat; [|tauto].
  cbn [acc_issues]. rewrite in_app_iff. cbn [In].
  intros [H | [H | []]]; [left; exact H|]. right. split; [symmetry; exact H|].
  destruct p as [x|]; [|discriminate]. cbn in P. apply String.eqb_eq in P. congruence.
Qed.

(** X26: every issue in a result of the validator has its cause in the
    payload.  An issue is reported only for a payload with point coordinates:
    a range issue names the offending value, which is out of range; a
    country issue is raised only for an in-range point and a country of the
    bounds table; an ocean issue only for an in-range point that the ocean
    test accepts, on an event that is not expected at sea; the precision
    issue only for a precision of 'exact'.  A swap issue is never reported. *)
Theorem every_issue_has_its_cause (e : Extraction.t) (r : GeoValidationResult) (i : Issue) :
  validateGeolocation e = Return r ->
  In i (issues r) ->
  exists g lng lat,
    geometry (location e) = Some g /\ coordinates g = Some (lng, lat) /\
    caused e g lng lat i.
Proof.
  unfold validateGeolocation.
  destruct (geometry (location e)) as [g|] eqn:G;
    [|intro H; inversion H; subst; intros []].
  destruct (coordinates g) as [[lng lat]|] eqn:K;
    [|intro H; inversion H; subst; intros []].
  destruct (checkCountry _ lng lat _) as [a|] eqn:C; [|discriminate].
  intro H; inversion H; subst; clear H. cbn [issues].
  intro Hin. exists g, lng, lat. split; [reflexivity|]. split; [exact K|].
  set (a0 := mkAcc [] 1 false None) in *.
  assert (N1 : acc_nullify (checkRanges lng lat a0) = outOfRangeb lng lat)
    by (rewrite checkRanges_nullify; reflexivity).
  assert (N2 : acc_nullify (checkSwapped lng lat (checkRanges lng lat a0)) =
               outOfRangeb lng lat)
    by (rewrite checkSwapped_nullify; exact N1).
  pose proof (checkCountry_nullify _ _ _ _ C) as N3. rewrite N2 in N3.
  apply checkPrecision_adds in Hin as [Hin | [-> Hp]]; [|exact Hp].
  apply checkOcean_adds in Hin as [Hin | (-> & Hn & Ho & Hm)];
    [|cbn [caused]; rewrite <- N3; auto].
  destruct (checkCountry_adds _ _ _ _ i C Hin) as [Hin' | (-> & Hn & Hb)];
    [|cbn [caused]; rewrite <- N2; auto].
  apply checkSwapped_adds in Hin'; [|exact N1].
  apply checkRanges_adds in Hin' as [[] | [[-> Hc] | [-> Hc]]]; cbn [caused]; auto.
Qed.

Lemma every_issue_has_its_cause_witness :
  exists g lng lat,
    geometry (location (pointExtraction 95 40 "United States")) = Some g /\
    coordinates g = Some (lng, lat) /\
    caused (pointExtraction 95 40 "United States") g lng lat
      (OutsideCountry "United States" 95 40).
Proof.
  apply (@every_issue_has_its_cause (pointExtraction 95 40 "United States")
           (mkResult false [OutsideCountry "United States" 95 40] (4 # 10) false
              (Some use_centroid))
           (OutsideCountry "United States" 95 40)).
  - vm_compute. reflexivity.
  - left. reflexivity.
Defined.

End IssueProperties.

(** ** Job types without a handler of their own *)
Section HandlerProperties.
Import QueueMessages SqsService Consumer.

Variable World : Type.
Variable runExtractJob : JobMessage -> World -> World * Outcome unit.

(** X27: only EXTRACT messages are worked on.  An envelope of any other job
    type (INGEST, CLUSTER, GEO_JOIN, ALERTS, VIDEO_BRIEF, CLASSROOM_EPISODE,
    SMOKE_TEST) goes to the placeholder handler: the world stays as it is and
    the message is deleted from its queue, whatever its payload and however
    often it was received. *)
Theorem other_job_types_are_deleted_unworked (cfg : Config) (random : Q)
    (queue : QueueName) (h body : string) (m : JobMessage) (receiveCount : option Z)
    (st : State World) :
  job_type m <> EXTRACT ->
  handleMessage cfg runExtractJob random queue h body (Some m) receiveCount st =
  mkState (world st) (sent st ++ [DeleteMessage queue h]) (invoked st ++ [m])
          (shuttingDown st).
Proof.
  intro H. unfold handleMessage.
  destruct (job_type m); try congruence; reflexivity.
Qed.

End HandlerProperties.

Lemma other_job_types_are_deleted_unworked_witness :
  Consumer.handleMessage Consumer.defaults (fun _ (w : nat) => (S w, Return tt)) 0
    "q_cluster" "rh-1" "<cluster envelope>"
    (Some (QueueMessages.createJobMessage QueueMessages.CLUSTER
             (QueueMessages.JObject [("event_id", QueueMessages.JNumber 12)])
             (Some "corr_1") "job_9" "corr_9" "2023-11-14T22:13:20.000Z"))
    (Some 1%Z) (Consumer.mkState 0%nat [] [] false) =
  Consumer.mkState 0%nat [SqsService.DeleteMessage "q_cluster" "rh-1"]
    [QueueMessages.createJobMessage QueueMessages.CLUSTER
       (QueueMessages.JObject [("event_id", QueueMessages.JNumber 12)])
       (Some "corr_1") "job_9" "corr_9" "2023-11-14T22:13:20.000Z"]
    false.
Proof.
  apply (@other_job_types_are_deleted_unworked nat (fun _ w => (S w, Return tt))
           Consumer.defaults 0 "q_cluster" "rh-1" "<cluster envelope>"
           (QueueMessages.createJobMessage QueueMessages.CLUSTER
              (QueueMessages.JObject [("event_id", QueueMessages.JNumber 12)])
              (Some "corr_1") "job_9" "corr_9" "2023-11-14T22:13:20.000Z")
           (Some 1%Z) (Consumer.mkState 0%nat [] [] false)).
  discriminate.
Defined.

(** ** When [clusterEvent] throws *)
Section ClusterFailureProperties.
Import Store EventCluster.

Variable M : MathLib.
Variable coordColumn : NumericColumn.

Lemma In_findEvent (row : Event.t) (es : list Event.t) :
  In row es -> exists r, findEvent (Event.id row) es = Some r.
Proof.
  unfold findEvent. induction es as [|e es IH]; [intros []|].
  cbn [find]. destruct (Event.id e =? Event.id row)%Z eqn:E; [eexists; reflexivity|].
  intros [-> | H]; [rewrite Z.eqb_refl in E; discriminate | exact (IH H)].
Qed.

(** X28: [clusterEvent] fails only when the event is missing.  For a key
    that no stored event has it throws and leaves the store as it is; for
    every stored event it returns a result: the rows a merge updates are
    always there, so the transaction never fails on them. *)
Theorem clusterEvent_fails_only_on_a_missing_event (now eventId : Z) (db : Db) :
  (findEvent eventId (events db) = None ->
   exists err, clusterEvent M coordColumn now eventId db = (db, Throw err)) /\
  (findEvent eventId (events db) <> None ->
   exists db' r, clusterEvent M coordColumn now eventId db = (db', Return r)).
Proof.
  unfold clusterEvent, loadEventForClustering. split.
  - intros ->. eexists. reflexivity.
  - destruct (findEvent eventId (events db)) as [row|] eqn:F; [intros _ | congruence].
    set (newEvent := mapToClusteringEvent coordColumn row).
    destruct (length (findCandidateMatches M coordColumn newEvent db) =? 0)%nat;
      [eexists; eexists; reflexivity|].
    destruct (bestMatch M newEvent _) as [best|] eqn:B; [|eexists; eexists; reflexivity].
    apply bestMatch_some in B as (Hin & _ & _).
    apply candidate_is_row in Hin as (primaryRow & Hrow & Hcand & _).
    destruct (In_findEvent _ _ Hrow) as [r1 H1].
    pose proof (mergeEvents_outcome now (candidate best) newEvent db) as O.
    rewrite Hcand in O at 2. cbn [mapToClusteringEvent id] in O.
    rewrite H1 in O.
    assert (H2 : findEvent (Event.id row) (events db) = Some row).
    { pose proof (findEvent_id _ _ F) as [Hid _]. rewrite Hid. exact F. }
    change (id newEvent) with (Event.id row) in O. rewrite H2 in O.
    destruct (mergeEvents now (candidate best) newEvent db) as [db' o].
    cbn [snd] in O. subst o. eexists; eexists; reflexivity.
Qed.

End ClusterFailureProperties.

(** ** The place brief *)
Section CoverageProperties.
Import PlaceBrief.

Lemma capped (n d : Z) :
  (0 < d)%Z -> Qmin (inject_Z n / inject_Z d) 1 == inject_Z (Z.min n d) / inject_Z d.
Proof.
  intro Hd.
  assert (Hq : 0 < inject_Z d) by (change 0 with (inject_Z 0); rewrite <- Zlt_Qlt; exact Hd).
  destruct (Z.le_gt_cases n d) as [H | H].
  - rewrite Z.min_l by exact H. apply Q.min_l.
    apply Qle_shift_div_r; [exact Hq|]. rewrite Qmult_1_l. rewrite <- Zle_Qle. exact H.
  - rewrite Z.min_r by lia. rewrite Q.min_r.
    + field. intro E. rewrite E in Hq. exact (Qlt_irrefl 0 Hq).
    + apply Qle_shift_div_l; [exact Hq|]. rewrite Qmult_1_l. rewrite <- Zle_Qle. lia.
Qed.

Lemma hundredths_minus_thousandths (x y : Z) :
  inject_Z x / 100 - inject_Z y / 1000 == inject_Z (10 * x - y) / 1000.
Proof.
  unfold Z.sub. rewrite (inject_Z_plus (10 * x) (- y)), inject_Z_opp, inject_Z_mult.
  change (inject_Z 10) with 10. field.
Qed.

(** The score in whole hundredths. *)
Lemma calculateCoverageScore_hundredths (n m : Z) :
  calculateCoverageScore n m ==
  inject_Z ((12 * Z.min n 50 + 20 * Z.min m 20 + 5) / 10) / 100 /\
  weightedCoverage n m == inject_Z (12 * Z.min n 50 + 20 * Z.min m 20) / 1000.
Proof.
  unfold calculateCoverageScore, weightedCoverage, Js.round.
  pose proof (@capped n 50 eq_refl) as Hn. pose proof (@capped m 20 eq_refl) as Hm.
  change (inject_Z 50) with 50 in Hn. change (inject_Z 20) with 20 in Hm.
  split.
  - assert (E : (Qmin (inject_Z n / 50) 1 * (6 # 10) +
                 Qmin (inject_Z m / 20) 1 * (4 # 10)) * 100 + (1 # 2) ==
                (12 * Z.min n 50 + 20 * Z.min m 20 + 5) # 10).
    { rewrite Hn, Hm. rewrite (Qmake_Qdiv (12 * Z.min n 50 + 20 * Z.min m 20 + 5) 10).
      rewrite !inject_Z_plus, !inject_Z_mult. change (inject_Z (Z.pos 10)) with 10.
      change (inject_Z 12) with 12. change (inject_Z 20) with 20.
      change (inject_Z 5) with 5. field. }
    rewrite E. reflexivity.
  - rewrite Hn, Hm. rewrite !inject_Z_plus, !inject_Z_mult.
    change (inject_Z 12) with 12. change (inject_Z 20) with 20. field.
Qed.

(** X29: the coverage score is a number of whole hundredths between 0 and 1
    that never goes down when a count goes up; it reaches 1 exactly when
    there are at least 50 sources and at least 20 events, and it is within
    0.004 of the weighted coverage it rounds, so that the rounding is never
    decided by a tie. *)
Theorem coverage_score_scale (sourceCount eventCount : Z) :
  (0 <= sourceCount)%Z -> (0 <= eventCount)%Z ->
  0 <= calculateCoverageScore sourceCount eventCount <= 1 /\
  (exists k, (0 <= k <= 100)%Z /\
             calculateCoverageScore sourceCount eventCount == inject_Z k / 100) /\
  (calculateCoverageScore sourceCount eventCount == 1 <->
   (50 <= sourceCount /\ 20 <= eventCount)%Z) /\
  (forall sourceCount' eventCount',
      (sourceCount <= sourceCount')%Z -> (eventCount <= eventCount')%Z ->
      calculateCoverageScore sourceCount eventCount <=
      calculateCoverageScore sourceCount' eventCount') /\
  Qabs (calculateCoverageScore sourceCount eventCount -
        weightedCoverage sourceCount eventCount) <= 4 # 1000.
Proof.
  intros Hn Hm.
  destruct (calculateCoverageScore_hundredths sourceCount eventCount) as [Hs Hw].
  set (a := Z.min sourceCount 50) in *. set (b := Z.min eventCount 20) in *.
  assert (Ha : (0 <= a <= 50)%Z) by (unfold a; lia).
  assert (Hb : (0 <= b <= 20)%Z) by (unfold b; lia).
  set (t := (12 * a + 20 * b + 5)%Z) in *.
  pose proof (Z.div_mod t 10 ltac:(lia)) as Hdm.
  pose proof (Z.mod_pos_bound t 10 ltac:(lia)) as Hr.
  set (k := (t / 10)%Z) in *.
  assert (Hk : (0 <= k <= 100)%Z) by (unfold t in *; lia).
  assert (Q100 : forall x y : Z, (x <= y)%Z -> inject_Z x / 100 <= inject_Z y / 100).
  { intros x y H. apply Qmult_le_compat_r; [rewrite <- Zle_Qle; exact H | discriminate]. }
  split.
  { rewrite Hs. split.
    - apply Qle_shift_div_l; [reflexivity|]. rewrite Qmult_0_l.
      change 0 with (inject_Z 0). rewrite <- Zle_Qle. lia.
    - apply Qle_shift_div_r; [reflexivity|]. rewrite Qmult_1_l.
      change 100 with (inject_Z 100). rewrite <- Zle_Qle. lia. }
  split; [exists k; split; [exact Hk | exact Hs]|].
  split.
  { rewrite Hs. split.
    - intro E.
      assert (E' : inject_Z k == inject_Z 100).
      { change (inject_Z 100) with 100. rewrite <- (Qmult_1_l 100), <- E. field. }
      apply (proj1 (inject_Z_injective k 100)) in E'. unfold t, a, b in *. lia.
    - intros [H1 H2].
      assert (k = 100%Z) by (unfold t, a, b in *; lia).
      rewrite H. reflexivity. }
  split.
  { intros n' m' Hn' Hm'.
    destruct (calculateCoverageScore_hundredths n' m') as [Hs' _].
    rewrite Hs, Hs'. apply Q100. unfold k, t, a, b.
    apply Z.div_le_mono; lia. }
  rewrite Hs, Hw.
  assert (E : inject_Z k / 100 - inject_Z (12 * a + 20 * b) / 1000 ==
              inject_Z (10 * k - (12 * a + 20 * b)) / 1000).
  { apply hundredths_minus_thousandths. }
  rewrite E.
  assert (Hodd : (t mod 10 <> 0)%Z).
  { intro Z0. rewrite Z0 in Hdm. unfold t in Hdm. lia. }
  apply Qabs_Qle_condition. split.
  - apply Qle_shift_div_l; [reflexivity|].
    apply Qle_trans with (inject_Z (-4)); [unfold Qle; cbn; lia|]. rewrite <- Zle_Qle.
    unfold t in *. lia.
  - apply Qle_shift_div_r; [reflexivity|].
    apply Qle_trans with (inject_Z 4); [|unfold Qle; cbn; lia]. rewrite <- Zle_Qle.
    unfold t in *. lia.
Qed.

Lemma coverage_score_scale_witness :
  calculateCoverageScore 25 10 == 1 # 2 /\
  Qabs (calculateCoverageScore 25 10 - weightedCoverage 25 10) <= 4 # 1000.
Proof.
  split; [vm_compute; reflexivity|].
  apply (@coverage_score_scale 25 10); lia.
Defined.

End CoverageProperties.

(** ** The summary of a place brief *)
Section CountingProperties.
Import PlaceBrief.

Variable K : Type.
Variable eqb : K -> K -> bool.
Hypothesis eqb_spec : forall x y, eqb x y = true <-> x = y.

Lemma eqb_other (x y : K) : x <> y -> eqb x y = false.
Proof.
  intro H. destruct (eqb x y) eqn:E; [|reflexivity].
  apply eqb_spec in E. contradiction.
Qed.

Lemma bump_keys (k x : K) (m : list (K * Z)) :
  In x (map fst (bump eqb k m)) <-> x = k \/ In x (map fst m).
Proof.
  induction m as [|[k' n] r IH]; cbn [bump map fst In].
  - intuition.
  - destruct (eqb k' k) eqn:E; cbn [map fst In].
    + apply eqb_spec in E. subst k'. intuition.
    + rewrite IH. intuition.
Qed.

Lemma bump_NoDup (k : K) (m : list (K * Z)) :
  NoDup (map fst m) -> NoDup (map fst (bump eqb k m)).
Proof.
  induction m as [|[k' n] r IH]; cbn [bump map fst]; intro N.
  - constructor; [intros [] | constructor].
  - inversion N as [|x l Hx N']; subst.
    destruct (eqb k' k) eqn:E; cbn [map fst].
    + constructor; assumption.
    + constructor; [|apply IH; exact N'].
      rewrite bump_keys. intros [-> | H]; [|contradiction].
      assert (eqb k k = true) by (apply eqb_spec; reflexivity). congruence.
Qed.

Lemma bump_countOf (k k' : K) (m : list (K * Z)) :
  countOf eqb k' (bump eqb k m) = (countOf eqb k' m + if eqb k k' then 1 else 0)%Z.
Proof.
  induction m as [|[k0 n] r IH]; cbn [bump countOf].
  - destruct (eqb k k'); lia.
  - destruct (eqb k0 k) eqn:E; cbn [countOf].
    + apply eqb_spec in E. subst k0. destruct (eqb k k'); lia.
    + destruct (eqb k0 k') eqn:E'; [|exact IH].
      apply eqb_spec in E'. subst k0.
      destruct (eqb k k') eqn:E2; [|lia].
      apply eqb_spec in E2. subst k.
      assert (eqb k' k' = true) by (apply eqb_spec; reflexivity). congruence.
Qed.

Lemma bump_total (k : K) (m : list (K * Z)) : total (bump eqb k m) = (total m + 1)%Z.
Proof.
  unfold total. induction m as [|[k0 n] r IH]; cbn [bump map snd fold_right]; [lia|].
  destruct (eqb k0 k); cbn [map snd fold_right]; lia.
Qed.

Lemma bump_positive (k : K) (m : list (K * Z)) :
  Forall (fun kc => (1 <= snd kc)%Z) m ->
  Forall (fun kc => (1 <= snd kc)%Z) (bump eqb k m).
Proof.
  induction m as [|[k0 n] r IH]; cbn [bump]; intro H.
  - constructor; [cbn; lia | constructor].
  - inversion H as [|x l Hx H']; subst. cbn [snd] in Hx.
    destruct (eqb k0 k); constructor; cbn [snd]; try lia; try assumption.
    apply IH. exact H'.
Qed.

Lemma countOf_In (k : K) (c : Z) (m : list (K * Z)) :
  NoDup (map fst m) -> In (k, c) m -> countOf eqb k m = c.
Proof.
  induction m as [|[k0 n] r IH]; [intros _ []|].
  cbn [map fst countOf]. intros N [H | H]; inversion N as [|x l Hx N']; subst.
  - inversion H; subst.
    assert (E : eqb k k = true) by (apply eqb_spec; reflexivity). rewrite E. reflexivity.
  - destruct (eqb k0 k) eqn:E; [|apply IH; assumption].
    apply eqb_spec in E. subst k0. exfalso. apply Hx.
    change k with (fst (k, c)). apply in_map. exact H.
Qed.

Lemma countOf_set (k : K) (m : list (K * Z)) :
  countOf eqb k m <> 0%Z -> In k (map fst m).
Proof.
  induction m as [|[k0 n] r IH]; cbn [countOf map fst In]; [congruence|].
  destruct (eqb k0 k) eqn:E; [apply eqb_spec in E; left; exact E|].
  intro H. right. exact (IH H).
Qed.

Variable A : Type.
Variable key : A -> K.

(** The [Map] of counts after the loop over the events. *)
Lemma counts_of_the_loop (events : list A) (m0 : list (K * Z)) :
  let m := fold_left (fun m event => bump eqb (key event) m) events m0 in
  (NoDup (map fst m0) -> NoDup (map fst m)) /\
  (Forall (fun kc => (1 <= snd kc)%Z) m0 -> Forall (fun kc => (1 <= snd kc)%Z) m) /\
  total m = (total m0 + Z.of_nat (length events))%Z /\
  (forall k, countOf eqb k m =
             (countOf eqb k m0 +
              Z.of_nat (length (filter (fun e => eqb (key e) k) events)))%Z).
Proof.
  cbn zeta. revert m0. induction events as [|e es IH]; intro m0; cbn [fold_left].
  - repeat split; try tauto; cbn; intros; lia.
  - destruct (IH (bump eqb (key e) m0)) as (I1 & I2 & I3 & I4).
    split; [intro N; apply I1, bump_NoDup; exact N|].
    split; [intro P; apply I2, bump_positive; exact P|].
    split; [rewrite I3, bump_total; cbn [length]; lia|].
    intro k. rewrite I4, bump_countOf. cbn [filter].
    destruct (eqb (key e) k); cbn [length]; lia.
Qed.

End CountingProperties.

Section SortingProperties.

Variable A : Type.
Variable key : A -> Z.

Lemma insertDesc_In (x y : A) (l : list A) :
  In y (insertDesc key Z.gtb x l) <-> y = x \/ In y l.
Proof.
  induction l as [|z l IH]; cbn [insertDesc In]; [intuition|].
  destruct (key z >? key x)%Z; cbn [In]; [rewrite IH|]; intuition.
Qed.

Lemma sortDesc_In (y : A) (l : list A) : In y (sortDesc key Z.gtb l) <-> In y l.
Proof.
  unfold sortDesc. induction l as [|x l IH]; cbn [fold_right In]; [tauto|].
  rewrite insertDesc_In, IH. intuition.
Qed.

Lemma insertDesc_descending (x : A) (l : list A) :
  descending (map key l) -> descending (map key (insertDesc key Z.gtb x l)).
Proof.
  induction l as [|y r IH]; cbn [insertDesc map descending]; [tauto|].
  intros [Hy Hr].
  destruct (key y >? key x)%Z eqn:E; cbn [map descending].
  - apply Z.gtb_lt in E. split; [|apply IH; exact Hr].
    destruct r as [|z r']; cbn [insertDesc map]; [lia|].
    destruct (key z >? key x)%Z; cbn [map] in *; lia.
  - assert (key y <= key x)%Z
      by (destruct (Z.gtb_spec (key y) (key x)); [discriminate | assumption]).
    split; [assumption|]. split; assumption.
Qed.

Lemma sortDesc_descending (l : list A) : descending (map key (sortDesc key Z.gtb l)).
Proof.
  unfold sortDesc. induction l as [|x l IH]; cbn [fold_right]; [exact I|].
  apply insertDesc_descending. exact IH.
Qed.

Lemma insertDesc_strict (x : A) (l : list A) :
  strictlyDescending (map key l) -> ~ In (key x) (map key l) ->
  strictlyDescending (map key (insertDesc key Z.gtb x l)).
Proof.
  induction l as [|y r IH]; cbn [insertDesc map strictlyDescending In]; [tauto|].
  intros [Hy Hr] Hn.
  destruct (key y >? key x)%Z eqn:E; cbn [map strictlyDescending].
  - apply Z.gtb_lt in E. split; [|apply IH; tauto].
    destruct r as [|z r']; cbn [insertDesc map]; [lia|].
    destruct (key z >? key x)%Z; cbn [map] in *; lia.
  - assert (key y <= key x)%Z
      by (destruct (Z.gtb_spec (key y) (key x)); [discriminate | assumption]).
    split; [|split; assumption].
    assert (key y <> key x) by tauto. lia.
Qed.

Lemma sortDesc_strict (l : list A) :
  NoDup (map key l) -> strictlyDescending (map key (sortDesc key Z.gtb l)).
Proof.
  unfold sortDesc. induction l as [|x l IH]; cbn [fold_right map]; [intros _; exact I|].
  intro N. inversion N as [|k ks Hx N']; subst.
  apply insertDesc_strict; [apply IH; exact N'|].
  intro H. apply Hx. apply in_map_iff in H as (y & Hy & Hin).
  apply (proj1 (sortDesc_In y l)) in Hin. rewrite <- Hy. apply in_map. exact Hin.
Qed.

Lemma firstn_descending (n : nat) (l : list Z) : descending l -> descending (firstn n l).
Proof.
  revert l. induction n as [|n IH]; intros [|x r]; cbn [firstn descending]; try tauto.
  intros [Hx Hr]. split; [|apply IH; exact Hr].
  destruct r as [|y r']; [destruct n; exact I|].
  destruct n; cbn [firstn]; [exact I | exact Hx].
Qed.

End SortingProperties.

Lemma sortDesc_total {K : Type} (key : K * Z -> Z) (m : list (K * Z)) :
  total (sortDesc key Z.gtb m) = total m.
Proof.
  unfold total, sortDesc. induction m as [|x m IH]; cbn [fold_right map]; [reflexivity|].
  rewrite <- IH. clear IH.
  induction (fold_right (insertDesc key Z.gtb) [] m) as [|y l IH];
    cbn [insertDesc map fold_right]; [reflexivity|].
  destruct (key y >? key x)%Z; cbn [map fold_right]; [rewrite IH|]; lia.
Qed.

Section SummaryProperties.
Import PlaceBrief.

(** X30: the summary counts every event once.  The threat types listed are
    at most five, in descending order of their counts, each with the number
    of events of that type.  The severity breakdown lists every severity
    level that occurs, each once, from the highest level down, with the
    number of events of that level; its counts add up to the number of
    events.  No count is below 1, and the protected areas counted are those
    that contain the point and those nearby. *)
Theorem summary_counts_every_event (events : list EventBrief)
    (protectedAreas : ProtectedAreasResult) :
  let summary := buildSummary events protectedAreas in
  (length (top_threat_types summary) <= 5)%nat /\
  descending (map snd (top_threat_types summary)) /\
  Forall (fun tc => snd tc = ofType (fst tc) events /\ (1 <= snd tc)%Z)
         (top_threat_types summary) /\
  strictlyDescending (map fst (severity_breakdown summary)) /\
  Forall (fun sc => snd sc = ofSeverity (fst sc) events /\ (1 <= snd sc)%Z)
         (severity_breakdown summary) /\
  (forall e, In e events ->
             In (severity_level e) (map fst (severity_breakdown summary))) /\
  total (severity_breakdown summary) = Z.of_nat (length events) /\
  protected_areas_nearby_count summary =
    Z.of_nat (length (contains_point protectedAreas ++ nearby protectedAreas)).
Proof.
  cbn zeta. unfold buildSummary.
  cbn [top_threat_types severity_breakdown protected_areas_nearby_count].
  destruct (@counts_of_the_loop string String.eqb String.eqb_eq EventBrief
              event_type_primary events []) as (T1 & T2 & _ & T4).
  destruct (@counts_of_the_loop Z Z.eqb Z.eqb_eq EventBrief
              severity_level events []) as (S1 & S2 & S3 & S4).
  cbn zeta in *.
  set (typeCounts :=
         fold_left (fun m event => bump String.eqb (event_type_primary event) m)
           events []) in *.
  set (severityCounts :=
         fold_left (fun m event => bump Z.eqb (severity_level event) m) events []) in *.
  specialize (T1 (NoDup_nil _)). specialize (S1 (NoDup_nil _)).
  specialize (T2 (Forall_nil _)). specialize (S2 (Forall_nil _)).
  split; [apply firstn_le_length|].
  split.
  { rewrite <- firstn_map. apply firstn_descending, sortDesc_descending. }
  split.
  { apply Forall_forall. intros [t c] Hin.
    apply In_firstn, sortDesc_In in Hin. cbn [fst snd].
    split; [|exact (proj1 (Forall_forall _ _) T2 _ Hin)].
    rewrite <- (countOf_In String.eqb String.eqb_eq t c typeCounts T1 Hin).
    rewrite T4. cbn [countOf]. unfold ofType. lia. }
  split; [apply sortDesc_strict; exact S1|].
  split.
  { apply Forall_forall. intros [s c] Hin.
    apply sortDesc_In in Hin. cbn [fst snd].
    split; [|exact (proj1 (Forall_forall _ _) S2 _ Hin)].
    rewrite <- (countOf_In Z.eqb Z.eqb_eq s c severityCounts S1 Hin).
    rewrite S4. cbn [countOf]. unfold ofSeverity. lia. }
  split.
  { intros e He.
    assert (Hc : countOf Z.eqb (severity_level e) severityCounts <> 0%Z).
    { rewrite S4. cbn [countOf].
      assert (In e (filter (fun x => (severity_level x =? severity_level e)%Z) events))
        by (apply filter_In; split; [exact He | apply Z.eqb_refl]).
      destruct (filter _ events); [contradiction | cbn [length]; lia]. }
    apply (countOf_set Z.eqb Z.eqb_eq) in Hc.
    apply in_map_iff in Hc as (x & Hx & Hin).
    apply in_map_iff. exists x. split; [exact Hx|]. apply sortDesc_In. exact Hin. }
  split; [rewrite sortDesc_total, S3; cbn; lia|].
  rewrite length_app. lia.
Qed.

(** The summary of the four example events. *)
Example summary_of_the_example :
  buildSummary sampleEvents (mkProtectedAreasResult [] []) =
  mkPlaceSummary [("wildfire", 2%Z); ("oil_spill", 1%Z); ("poaching", 1%Z)]
                 [(4%Z, 2%Z); (3%Z, 2%Z)] 0 "unknown".
Proof. vm_compute. reflexivity. Qed.

End SummaryProperties.
